(** * 3D Product Viewer: interaction, visual feedback and camera setters

    A shallow embedding of the interaction core of the viewer
    ([js/interaction.js], [js/createProduct.js], the camera animation
    module and the event wiring of [js/main.js]) together with the
    properties of hovering, clicking, timers, panel text and clamping.

    Conventions of the embedding:
    - a coordinate, a distance or a scale factor is a rational [Q], a
      decimal literal standing for the double nearest to it; the sums
      and products the animation accumulates frame after frame are the
      host's rounded operations, parameters of the model; a number that
      reaches a camera setter is a [JS.number], which has [NaN] and the
      infinities; [Date.now()] and [setTimeout] delays are integers in
      ms ([Z]);
    - a JavaScript string is a [string] of ASCII characters (codes below
      128, see [JS.isAscii]);
    - [null] is [None];
    - the object [this.parts], enumerated with [Object.values], is an
      association list in insertion order, which is the order of the
      object for keys that are neither digit strings nor [__proto__]
      (see [JS.ordinaryKey]), as the names of the chair's parts;
    - the lookup table [this.partDescriptions] is a finite map of own
      properties, read with [JS.obj_get], which follows the object to
      [Object.prototype];
    - [setTimeout] appends a closure to the queue of pending timers of the
      page, and the event loop runs the due ones before it dispatches the
      next event. *)

From Stdlib Require Import ZArith QArith Lqa Lia List String Ascii.
From stdpp Require Import base option list strings gmap.

Local Open Scope Z_scope.
Local Open Scope string_scope.

(* ================================================================== *)
(** ** JavaScript values *)
(* ================================================================== *)

Module JS.

(** A number as a caller can pass it: [NaN], an infinity, or a finite
    value. ([undefined] where a number is expected converts to [NaN].) *)
Inductive number := NaN | NegInf | Fin (q : Q) | PosInf.

(** [a <= b] and [a < b]; both are false when either side is [NaN]. *)
Definition leb (a b : number) : bool :=
  match a, b with
  | NaN, _ | _, NaN => false
  | NegInf, _ => true
  | _, PosInf => true
  | Fin x, Fin y => Qle_bool x y
  | _, _ => false
  end.

Definition ltb (a b : number) : bool := (leb a b && negb (leb b a))%bool.

Definition le (a b : number) : Prop := leb a b = true.
Definition lt (a b : number) : Prop := ltb a b = true.

(** [Math.max] and [Math.min] on two numbers: [NaN] when either is. *)
Definition Math_max (a b : number) : number :=
  match a, b with
  | NaN, _ | _, NaN => NaN
  | _, _ => if leb a b then b else a
  end.

Definition Math_min (a b : number) : number :=
  match a, b with
  | NaN, _ | _, NaN => NaN
  | _, _ => if leb b a then b else a
  end.

(** Every character of the string is an ASCII character. *)
Fixpoint isAscii (s : string) : bool :=
  match s with
  | EmptyString => true
  | String c r => ((nat_of_ascii c <? 128)%nat && isAscii r)%bool
  end.

(** Truthiness of a string-or-null value: [null] and the empty string
    are falsy. *)
Definition truthy (v : option string) : bool :=
  match v with
  | None => false
  | Some s => negb (String.eqb s "")
  end.

(** [a || b] on strings coming out of a property lookup ([undefined]
    when the key is absent). *)
Definition or_else (v : option string) (d : string) : string :=
  match v with
  | Some s => if truthy v then s else d
  | None => d
  end.

(** [c.toUpperCase()] on one ASCII character (outside ASCII the
    method also changes accented letters, and can give two characters). *)
Definition upper_ascii (c : ascii) : ascii :=
  let n := nat_of_ascii c in
  if ((97 <=? n)%nat && (n <=? 122)%nat)%bool
  then ascii_of_nat (n - 32) else c.

Fixpoint toUpperCase (s : string) : string :=
  match s with
  | EmptyString => EmptyString
  | String c r => String (upper_ascii c) (toUpperCase r)
  end.

(** [s.charAt(i)]: the one-character string at [i], or [""]. *)
Definition charAt (s : string) (i : nat) : string :=
  match String.get i s with
  | Some c => String c EmptyString
  | None => EmptyString
  end.

(** [s.slice(n)] for [n >= 0]. *)
Fixpoint slice (s : string) (n : nat) {struct n} : string :=
  match n, s with
  | O, _ => s
  | S _, EmptyString => EmptyString
  | S k, String _ r => slice r k
  end.

(** [s.split(sep)] for a one-character separator. The result is never
    empty: [''.split('-')] is [['']]. *)
Fixpoint split (sep : ascii) (s : string) : list string :=
  match s with
  | EmptyString => [EmptyString]
  | String c r =>
      if Ascii.eqb c sep then EmptyString :: split sep r
      else match split sep r with
           | w :: ws => String c w :: ws
           | [] => [String c EmptyString]
           end
  end.

(** [ws.join(sep)]. *)
Fixpoint join (sep : string) (ws : list string) : string :=
  match ws with
  | [] => EmptyString
  | [w] => w
  | w :: rest => w ++ sep ++ join sep rest
  end.

(** A key an object keeps in insertion order and as an own property:
    not a string of digits (an array index goes before the other keys)
    and not [__proto__] (which names the prototype). *)
Fixpoint allDigits (s : string) : bool :=
  match s with
  | EmptyString => true
  | String c r =>
      ((48 <=? nat_of_ascii c)%nat && (nat_of_ascii c <=? 57)%nat && allDigits r)%bool
  end.

Definition ordinaryKey (k : string) : bool :=
  (negb (allDigits k && negb (String.eqb k "")) && negb (String.eqb k "__proto__"))%bool.

(** [obj[k] = v] on an object whose own keys are ordinary: an existing
    key keeps its place, a new one goes last. *)
Fixpoint obj_set {A} (k : string) (v : A) (o : list (string * A))
  : list (string * A) :=
  match o with
  | [] => [(k, v)]
  | (k', v') :: rest =>
      if String.eqb k' k then (k, v) :: rest
      else (k', v') :: obj_set k v rest
  end.

(** [Object.values(obj)]. *)
Definition Object_values {A} (o : list (string * A)) : list A := map snd o.

(** The names of the members of [Object.prototype], which every object
    literal inherits. *)
Definition Object_prototype_keys : list string :=
  [ "constructor"; "hasOwnProperty"; "isPrototypeOf"; "propertyIsEnumerable";
    "toLocaleString"; "toString"; "valueOf"; "__proto__";
    "__defineGetter__"; "__defineSetter__"; "__lookupGetter__";
    "__lookupSetter__" ].

Definition inheritedKey (k : string) : bool :=
  existsb (String.eqb k) Object_prototype_keys.

(** What [obj[k]] finds on an object literal with the own string
    properties [own]: an own property, else the member of
    [Object.prototype] of that name (a function or an object), else
    [undefined]. *)
Inductive Property := Own (s : string) | Inherited | Undefined.

Definition obj_get (own : gmap string string) (k : string) : Property :=
  match own !! k with
  | Some s => Own s
  | None => if inheritedKey k then Inherited else Undefined
  end.

(** [classList.add] and [classList.remove]. *)
Definition classList_add (c : string) (l : list string) : list string :=
  if existsb (String.eqb c) l then l else l ++ [c].
Definition classList_remove (c : string) (l : list string) : list string :=
  List.filter (fun x => negb (String.eqb c x)) l.

End JS.

(** A finite value where a number is expected. *)
Coercion JS.Fin : Q >-> JS.number.

(* ================================================================== *)
(** ** Stable sorting, as [Array.prototype.sort] with a comparator *)
(* ================================================================== *)

Module Sorting.
Section Sort.
Context {A : Type} (leb : A -> A -> bool).

Fixpoint insert_sorted (x : A) (l : list A) : list A :=
  match l with
  | [] => [x]
  | y :: r => if leb x y then x :: l else y :: insert_sorted x r
  end.

Fixpoint sort_by (l : list A) : list A :=
  match l with
  | [] => []
  | x :: r => insert_sorted x (sort_by r)
  end.
End Sort.
End Sorting.

(* ================================================================== *)
(** ** The part of three.js the viewer relies on *)
(* ================================================================== *)

Module Three.

Record Vector2 := mkVector2 { v2_x : Q; v2_y : Q }.
Record Vector3 := mkVector3 { v3_x : Q; v3_y : Q; v3_z : Q }.

Inductive Geometry :=
| BoxGeometry (width height depth : Q)
| CylinderGeometry (radiusTop radiusBottom height : Q).

(** [mesh.userData] as [Chair.createPart] fills it. *)
Record UserData := mkUserData {
  name : string;
  originalColor : Z;
  description : string;
  originalScale : Vector3
}.

(** A mesh: geometry, [position], [material.color] (as its hex value),
    [scale] and [userData]. *)
Record Mesh := mkMesh {
  geometry : Geometry;
  position : Vector3;
  color : Z;
  scale : Vector3;
  userData : UserData
}.

Definition setHex (h : Z) (m : Mesh) : Mesh :=
  mkMesh (geometry m) (position m) h (scale m) (userData m).

Definition scale_set (x y z : Q) (m : Mesh) : Mesh :=
  mkMesh (geometry m) (position m) (color m) (mkVector3 x y z) (userData m).

(** One entry of the array [Raycaster.intersectObjects] returns. *)
Record Intersection := mkIntersection { distance : Q; object : Mesh }.

Definition ascSort (a b : Intersection) : bool :=
  Qle_bool (distance a) (distance b).

(** [Raycaster.intersectObjects(objects)]: every object contributes the
    intersections of the ray with it (each with its distance from the
    ray origin), and the array is sorted by ascending distance. The
    intersection test itself is three.js geometry, the parameter
    [raycast]. *)
Definition intersectObjects (raycast : Mesh -> list Q) (objects : list Mesh)
  : list Intersection :=
  Sorting.sort_by ascSort
    (flat_map (fun o => map (fun d => mkIntersection d o) (raycast o)) objects).

End Three.

(** The host of the page: the camera and ray types of three.js, the
    geometry of a ray against a mesh of the chair group (whose height
    floats), [Math.sin], the sum and the product of two doubles as the
    host rounds them, and the text [String(Object.prototype[k])] of an
    inherited member, which is the host's to word. *)
Class Host := {
  Camera : Type;
  Ray : Type;
  setFromCamera : Three.Vector2 -> Camera -> Ray;
  raycastMesh : Ray -> Q -> Three.Mesh -> list Q;
  Math_sin : Q -> Q;
  Double_add : Q -> Q -> Q;
  Double_mul : Q -> Q -> Q;
  Object_prototype_text : string -> string
}.

(* ================================================================== *)
(** ** js/createProduct.js: the chair *)
(* ================================================================== *)

Module Product.
Import Three.
Local Open Scope Q_scope.

(** The fields of [Chair]: [parts] (name to mesh, in creation order),
    [hoveredPart], [clickedPart], [animationTime] and the height
    [group.position.y] of the group that holds the meshes. *)
Record Chair := mkChair {
  parts : list (string * Mesh);
  hoveredPart : option string;
  clickedPart : option string;
  animationTime : Q;
  group_y : Q
}.

(** [createPart(name, geometry, position, color, description)]. *)
Definition createPart (nm : string) (g : Geometry) (pos : Vector3)
    (col : Z) (descr : string) (c : Chair) : Chair :=
  let mesh :=
    mkMesh g pos col (mkVector3 1 1 1)
      (mkUserData nm col descr (mkVector3 1 1 1)) in
  mkChair (JS.obj_set nm mesh (parts c)) (hoveredPart c) (clickedPart c)
    (animationTime c) (group_y c).

(** [createChairComponents()]. *)
Definition createChairComponents (c : Chair) : Chair :=
  let c := createPart "seat" (BoxGeometry 2 0.2 2) (mkVector3 0 0 0)
             0x8b4513 "Main seating surface" c in
  let c := createPart "backrest" (BoxGeometry 2 2 0.2) (mkVector3 0 1 (-0.9))
             0xa0522d "Ergonomic backrest" c in
  let c := createPart "front-left-leg" (CylinderGeometry 0.05 0.05 1.2)
             (mkVector3 (-0.8) (-0.6) 0.8) 0x654321 "Front left support leg" c in
  let c := createPart "front-right-leg" (CylinderGeometry 0.05 0.05 1.2)
             (mkVector3 0.8 (-0.6) 0.8) 0x654321 "Front right support leg" c in
  let c := createPart "back-left-leg" (CylinderGeometry 0.05 0.05 1.2)
             (mkVector3 (-0.8) (-0.6) (-0.8)) 0x654321 "Back left support leg" c in
  let c := createPart "back-right-leg" (CylinderGeometry 0.05 0.05 1.2)
             (mkVector3 0.8 (-0.6) (-0.8)) 0x654321 "Back right support leg" c in
  let c := createPart "left-armrest" (BoxGeometry 0.4 0.1 1.5)
             (mkVector3 (-1.2) 0.5 0) 0x8b4513 "Left armrest" c in
  let c := createPart "right-armrest" (BoxGeometry 0.4 0.1 1.5)
             (mkVector3 1.2 0.5 0) 0x8b4513 "Right armrest" c in
  let c := createPart "left-support" (CylinderGeometry 0.03 0.03 0.5)
             (mkVector3 (-1.2) 0.25 0) 0x654321 "Left armrest support" c in
  createPart "right-support" (CylinderGeometry 0.03 0.03 0.5)
    (mkVector3 1.2 0.25 0) 0x654321 "Right armrest support" c.

(** [new Chair(scene)]. *)
Definition newChair : Chair :=
  let c := createChairComponents (mkChair [] None None 0 0) in
  mkChair (parts c) (hoveredPart c) (clickedPart c) (animationTime c) 1.

(** The colours and scale factors of [update]. *)
Definition TEAL : Z := 0x4ecdc4.
Definition RED : Z := 0xff6b6b.

(** The body of the [forEach] of [update], on one part: reset, then the
    hover effect, then the click effect. [===] between the state (a
    string or [null]) and the part's name is equality with [Some name]. *)
Definition updatePart (hovered clicked : option string) (part : Mesh) : Mesh :=
  let nm := name (userData part) in
  let part := setHex (originalColor (userData part)) part in
  let part := scale_set 1 1 1 part in
  let part :=
    if decide (hovered = Some nm)
    then scale_set 1.05 1.05 1.05 (setHex TEAL part) else part in
  if decide (clicked = Some nm)
  then scale_set 1.1 1.1 1.1 (setHex RED part) else part.

(** [update()]: one frame of the chair. *)
Definition update `{Host} (c : Chair) : Chair :=
  let t := Double_add (animationTime c) 0.016 in
  mkChair
    (map (fun kv => (fst kv, updatePart (hoveredPart c) (clickedPart c) (snd kv)))
         (parts c))
    (hoveredPart c) (clickedPart c) t
    (Double_add 1 (Double_mul (Math_sin (Double_mul t 0.5)) 0.1)).

(** [getPartByName(name)], for a name that is not a member of
    [Object.prototype] when no part has it: the part, or [undefined]. *)
Definition getPartByName (nm : string) (c : Chair) : option Mesh :=
  snd <$> List.find (fun kv => String.eqb (fst kv) nm) (parts c).

Definition getAllParts (c : Chair) : list Mesh := JS.Object_values (parts c).

Definition getPartDescriptions (c : Chair) : list (string * string) :=
  fold_left
    (fun d part => JS.obj_set (name (userData part)) (description (userData part)) d)
    (JS.Object_values (parts c)) [].

End Product.

(* ================================================================== *)
(** ** js/interaction.js and the event wiring of js/main.js *)
(* ================================================================== *)

Module Viewer.
Import Three Product.

Record MouseEvent := mkMouseEvent { clientX : Q; clientY : Q }.

(** [getBoundingClientRect()] of the canvas. *)
Record DOMRect := mkDOMRect {
  rect_left : Q; rect_top : Q; rect_width : Q; rect_height : Q
}.

(** [renderer.domElement]: its bounding rectangle and [style.cursor]. *)
Record Canvas := mkCanvas { rect : DOMRect; cursor : string }.

(** The element [#interactionPanel]: [style.display] and [classList]. *)
Record Panel := mkPanel { display : string; classList : list string }.

(** What the code reads and writes of the document: the three elements
    it looks up by id ([None] when [getElementById] gives [null]; the
    two text elements by their [textContent]) and [body.style.cursor]. *)
Record Document := mkDocument {
  interactionPanel : option Panel;
  partTitle : option string;
  partDescription : option string;
  body_cursor : string
}.

(** The own state of [InteractionHandler]; its [camera], [chair] and
    [domElement] are the page's. *)
Record InteractionHandler := mkInteractionHandler {
  mouse : Vector2;
  partDescriptions : gmap string string;
  lastClickTime : Z;
  clickDelay : Z
}.

(** The two closures the code hands to [setTimeout]:
    [() => { this.clickedPart = null }] and
    [() => { this.hideInteractionPanel() }]. *)
Inductive Callback := ClearClickedPart | HidePanel.

Record Timer := mkTimer { due : Z; callback : Callback }.

Definition due_leb (a b : Timer) : bool := (due a <=? due b)%Z.

Definition descriptionTable : gmap string string :=
  list_to_map
    [ ("seat", "The main seating surface - crafted from solid wood");
      ("backrest", "Ergonomic backrest for comfortable support");
      ("front-left-leg", "Front left support leg - sturdy cylindrical design");
      ("front-right-leg", "Front right support leg - sturdy cylindrical design");
      ("back-left-leg", "Back left support leg - sturdy cylindrical design");
      ("back-right-leg", "Back right support leg - sturdy cylindrical design");
      ("left-armrest", "Left armrest for comfortable arm positioning");
      ("right-armrest", "Right armrest for comfortable arm positioning");
      ("left-support", "Left armrest support column");
      ("right-support", "Right armrest support column") ].

(** [new InteractionHandler(camera, scene, domElement, chair)]. *)
Definition newInteractionHandler : InteractionHandler :=
  mkInteractionHandler (mkVector2 0 0) descriptionTable 0 200.

(** [formatPartName(partName)]. *)
Definition capitalizeWord (word : string) : string :=
  JS.toUpperCase (JS.charAt word 0) ++ JS.slice word 1.

Definition formatPartName (partName : string) : string :=
  JS.join " " (map capitalizeWord (JS.split "-"%char partName)).

Section WithHost.
Context `{Host}.

(** The state of the page: the clock [Date.now()], the shared chair,
    camera, canvas and document, the handler, the pending timers in
    the order they were set, and the audio output (whether an
    [AudioContext] can be made, and how many click sounds started). *)
Record Page := mkPage {
  clock : Z;
  chair : Chair;
  camera : Camera;
  canvas : Canvas;
  document : Document;
  handler : InteractionHandler;
  timers : list Timer;
  audio : bool;
  clickSounds : nat
}.

Definition with_clock (t : Z) (p : Page) : Page :=
  mkPage t (chair p) (camera p) (canvas p) (document p) (handler p)
    (timers p) (audio p) (clickSounds p).
Definition with_chair (c : Chair) (p : Page) : Page :=
  mkPage (clock p) c (camera p) (canvas p) (document p) (handler p)
    (timers p) (audio p) (clickSounds p).
Definition with_camera (c : Camera) (p : Page) : Page :=
  mkPage (clock p) (chair p) c (canvas p) (document p) (handler p)
    (timers p) (audio p) (clickSounds p).
Definition with_canvas (c : Canvas) (p : Page) : Page :=
  mkPage (clock p) (chair p) (camera p) c (document p) (handler p)
    (timers p) (audio p) (clickSounds p).
Definition with_document (d : Document) (p : Page) : Page :=
  mkPage (clock p) (chair p) (camera p) (canvas p) d (handler p)
    (timers p) (audio p) (clickSounds p).
Definition with_handler (h : InteractionHandler) (p : Page) : Page :=
  mkPage (clock p) (chair p) (camera p) (canvas p) (document p) h
    (timers p) (audio p) (clickSounds p).
Definition with_timers (l : list Timer) (p : Page) : Page :=
  mkPage (clock p) (chair p) (camera p) (canvas p) (document p) (handler p)
    l (audio p) (clickSounds p).
Definition with_clickSounds (n : nat) (p : Page) : Page :=
  mkPage (clock p) (chair p) (camera p) (canvas p) (document p) (handler p)
    (timers p) (audio p) n.

(** [setTimeout(cb, delay)]. *)
Definition setTimeout (cb : Callback) (delay : Z) (p : Page) : Page :=
  with_timers (timers p ++ [mkTimer (clock p + delay) cb]) p.

(** *** Chair methods that reach outside the chair *)

(** [Chair.setHoveredPart(partName)]. *)
Definition setHoveredPart (partName : option string) (p : Page) : Page :=
  let c := chair p in
  let p := with_chair (mkChair (parts c) partName (clickedPart c)
                         (animationTime c) (group_y c)) p in
  let d := document p in
  with_document
    (mkDocument (interactionPanel d) (partTitle d) (partDescription d)
       (if JS.truthy partName then "pointer" else "default")) p.

Definition set_clickedPart (v : option string) (p : Page) : Page :=
  let c := chair p in
  with_chair (mkChair (parts c) (hoveredPart c) v (animationTime c) (group_y c)) p.

(** [Chair.setClickedPart(partName)]. *)
Definition setClickedPart (partName : option string) (p : Page) : Page :=
  let p := set_clickedPart partName p in
  if JS.truthy partName then setTimeout ClearClickedPart 500 p else p.

(** *** InteractionHandler *)

(** [updateMousePosition(event)]. (A zero width or height would give
    an infinity or [NaN] in JavaScript; [Q] gives 0 there.) *)
Definition updateMousePosition (e : MouseEvent) (p : Page) : Page :=
  let r := rect (canvas p) in
  let h := handler p in
  let mx := (((clientX e - rect_left r) / rect_width r) * 2 - 1)%Q in
  let my := (- ((clientY e - rect_top r) / rect_height r) * 2 + 1)%Q in
  with_handler
    (mkInteractionHandler (mkVector2 mx my) (partDescriptions h)
       (lastClickTime h) (clickDelay h)) p.

(** [getIntersectedObject()]. *)
Definition getIntersectedObject (p : Page) : option Mesh :=
  let ray := setFromCamera (mouse (handler p)) (camera p) in
  let intersects :=
    intersectObjects (raycastMesh ray (group_y (chair p)))
      (getAllParts (chair p)) in
  match intersects with
  | i :: _ => Some (object i)
  | [] => None
  end.

Definition set_cursor (s : string) (p : Page) : Page :=
  with_canvas (mkCanvas (rect (canvas p)) s) p.

(** [handleMouseMove(event)]. *)
Definition handleMouseMove (e : MouseEvent) (p : Page) : Page :=
  let p := updateMousePosition e p in
  match getIntersectedObject p with
  | Some intersectedObject =>
      let partName := name (userData intersectedObject) in
      let p := setHoveredPart (Some partName) p in
      set_cursor "pointer" p
  | None =>
      let p := setHoveredPart None p in
      set_cursor "default" p
  end.

(** [hideInteractionPanel()]. *)
Definition hideInteractionPanel (p : Page) : Page :=
  let d := document p in
  match interactionPanel d with
  | Some panel =>
      with_document
        (mkDocument
           (Some (mkPanel "none" (JS.classList_remove "panel-show" (classList panel))))
           (partTitle d) (partDescription d) (body_cursor d)) p
  | None => p
  end.

(** [this.partDescriptions[partName] || "Chair component"], as the text
    it leaves in [textContent]: an inherited member is an object or a
    function, which is truthy, and shows as the host words it. *)
Definition descriptionText (table : gmap string string) (partName : string)
    : string :=
  match JS.obj_get table partName with
  | JS.Own s => JS.or_else (Some s) "Chair component"
  | JS.Inherited => Object_prototype_text partName
  | JS.Undefined => "Chair component"
  end.

(** [showInteractionPanel(partName)]. *)
Definition showInteractionPanel (partName : string) (p : Page) : Page :=
  let d := document p in
  match interactionPanel d, partTitle d, partDescription d with
  | Some panel, Some _, Some _ =>
      let title := formatPartName partName in
      let descr := descriptionText (partDescriptions (handler p)) partName in
      let p :=
        with_document
          (mkDocument
             (Some (mkPanel "block" (JS.classList_add "panel-show" (classList panel))))
             (Some title) (Some descr) (body_cursor d)) p in
      setTimeout HidePanel 5000 p
  | _, _, _ => p
  end.

(** [playClickSound()]: the sound starts when an audio context can be
    made, and the failure is swallowed otherwise. *)
Definition playClickSound (p : Page) : Page :=
  if audio p then with_clickSounds (S (clickSounds p)) p else p.

Definition set_lastClickTime (t : Z) (p : Page) : Page :=
  let h := handler p in
  with_handler
    (mkInteractionHandler (mouse h) (partDescriptions h) t (clickDelay h)) p.

(** [handleClick(event)]. *)
Definition handleClick (e : MouseEvent) (p : Page) : Page :=
  let currentTime := clock p in
  if (currentTime - lastClickTime (handler p) <? clickDelay (handler p))%Z
  then p
  else
    let p := set_lastClickTime currentTime p in
    let p := updateMousePosition e p in
    match getIntersectedObject p with
    | Some intersectedObject =>
        let partName := name (userData intersectedObject) in
        let p := setClickedPart (Some partName) p in
        let p := showInteractionPanel partName p in
        playClickSound p
    | None => hideInteractionPanel p
    end.

(** *** The event loop *)

Definition runCallback (cb : Callback) (p : Page) : Page :=
  match cb with
  | ClearClickedPart => set_clickedPart None p
  | HidePanel => hideInteractionPanel p
  end.

(** The timers due at [t] are taken off the queue and run, earliest
    first (in the order they were set when due together). *)
Definition fireTimers (t : Z) (p : Page) : Page :=
  let dueNow := List.filter (fun tm => (due tm <=? t)%Z) (timers p) in
  let later := List.filter (fun tm => negb (due tm <=? t)%Z) (timers p) in
  fold_left (fun q tm => runCallback (callback tm) q)
    (Sorting.sort_by due_leb dueNow) (with_timers later p).

(** The page at time [t], no event having been dispatched since. *)
Definition advance (t : Z) (p : Page) : Page :=
  with_clock t (fireTimers t p).

(** What main.js listens to: [mousemove] and [click] on the canvas,
    the animation frame ([animate]; the pose the camera animator or
    the orbit controls leave the camera in is the event's), and the
    console hook [debugViewer.highlightPart]. *)
Inductive Event :=
| MouseMove (e : MouseEvent)
| Click (e : MouseEvent)
| AnimationFrame (pose : Camera)
| HighlightPart (partName : option string).

Definition dispatch (ev : Event) (p : Page) : Page :=
  match ev with
  | MouseMove e => handleMouseMove e p
  | Click e => handleClick e p
  | AnimationFrame pose => with_chair (update (chair p)) (with_camera pose p)
  | HighlightPart partName => setClickedPart partName p
  end.

(** An event at time [t]: the due timers run first. *)
Definition step (p : Page) (tev : Z * Event) : Page :=
  dispatch (snd tev) (advance (fst tev) p).

Definition run (p : Page) (trace : list (Z * Event)) : Page :=
  fold_left step trace p.

(** The page once [init] has run, at time [t0], over the given canvas,
    document and camera: [init] ends with a call of [animate], whose
    frame has updated the chair once and left the camera as given. (The
    timer that takes the loading screen away touches nothing of this
    state and is left out.) *)
Definition initPage (t0 : Z) (cam : Camera) (cv : Canvas) (d : Document)
    (audioOk : bool) : Page :=
  mkPage t0 (update newChair) cam cv d newInteractionHandler [] audioOk 0.

(** The panel is on screen: the element exists and is displayed. *)
Definition panelVisible (p : Page) : bool :=
  match interactionPanel (document p) with
  | Some panel => String.eqb (display panel) "block"
  | None => false
  end.

End WithHost.
End Viewer.

(* ================================================================== *)
(** ** The camera animation module: state and setters *)
(* ================================================================== *)

Module CameraAnimation.
Import Three.
Local Open Scope Q_scope.

Record Oscillation := mkOscillation {
  enabled : bool; amplitude : JS.number; frequency : JS.number
}.

Record CameraController := mkCameraController {
  angle : JS.number;
  radius : JS.number;
  speed : JS.number;
  targetY : JS.number;
  lookAtTarget : Vector3;
  isAnimating : bool;
  animationStartTime : Z;
  verticalOscillation : Oscillation;
  radiusOscillation : Oscillation
}.

(** [new CameraController(camera)] at time [now]. [initializePosition]
    reads the angle ([Math.atan2]) and the radius ([Math.sqrt]) off the
    camera position; they are taken as given. *)
Definition newCameraController (angle0 radius0 : JS.number) (now : Z)
    : CameraController :=
  mkCameraController angle0 radius0 0.5 3 (mkVector3 0 1 0) true now
    (mkOscillation true 0.5 0.3) (mkOscillation false 1 0.2).

(** [setSpeed(speed)]. *)
Definition setSpeed (s : JS.number) (c : CameraController) : CameraController :=
  mkCameraController (angle c) (radius c) (JS.Math_max 0 s) (targetY c)
    (lookAtTarget c) (isAnimating c) (animationStartTime c)
    (verticalOscillation c) (radiusOscillation c).

(** [setRadius(radius)]. *)
Definition setRadius (r : JS.number) (c : CameraController) : CameraController :=
  mkCameraController (angle c) (JS.Math_max 2 (JS.Math_min 20 r)) (speed c)
    (targetY c) (lookAtTarget c) (isAnimating c) (animationStartTime c)
    (verticalOscillation c) (radiusOscillation c).

(** [setTargetHeight(height)]. *)
Definition setTargetHeight (h : JS.number) (c : CameraController)
    : CameraController :=
  mkCameraController (angle c) (radius c) (speed c) h
    (lookAtTarget c) (isAnimating c) (animationStartTime c)
    (verticalOscillation c) (radiusOscillation c).

(** [start()] at time [now], [stop()] and [toggle()]. *)
Definition start (now : Z) (c : CameraController) : CameraController :=
  mkCameraController (angle c) (radius c) (speed c) (targetY c)
    (lookAtTarget c) true now (verticalOscillation c) (radiusOscillation c).

Definition stop (c : CameraController) : CameraController :=
  mkCameraController (angle c) (radius c) (speed c) (targetY c)
    (lookAtTarget c) false (animationStartTime c)
    (verticalOscillation c) (radiusOscillation c).

Definition toggle (now : Z) (c : CameraController) : CameraController :=
  if isAnimating c then stop c else start now c.

(** [setLookAtTarget(x, y, z)]. *)
Definition setLookAtTarget (x y z : Q) (c : CameraController) : CameraController :=
  mkCameraController (angle c) (radius c) (speed c) (targetY c)
    (mkVector3 x y z) (isAnimating c) (animationStartTime c)
    (verticalOscillation c) (radiusOscillation c).

End CameraAnimation.

(* ================================================================== *)
(** ** A concrete host, for running the model *)
(* ================================================================== *)

Module Demo.
Import Three Product Viewer.

(** A flat stand-in for the geometry: the pointer's horizontal
    coordinate decides what the ray meets. Left of 0.25 it meets the
    seat at distance 5; between -0.25 and 0.9 it meets the backrest at
    distances 7 and 9; right of 0.9 it meets nothing. *)
Definition demoRaycast (ray : Vector2) (_ : Q) (m : Mesh) : list Q :=
  if String.eqb (name (userData m)) "seat"
  then (if Qle_bool 0.25 (v2_x ray) then [] else [5%Q])
  else if String.eqb (name (userData m)) "backrest"
  then (if (Qle_bool (v2_x ray) (-0.25) || Qle_bool 0.9 (v2_x ray))%bool
        then [] else [9%Q; 7%Q])
  else [].

#[export] Instance demoHost : Host := {|
  Camera := unit;
  Ray := Vector2;
  setFromCamera m _ := m;
  raycastMesh := demoRaycast;
  Math_sin _ := 0%Q;
  Double_add := Qplus;
  Double_mul := Qmult;
  Object_prototype_text k :=
    if String.eqb k "__proto__" then "[object Object]"
    else if String.eqb k "constructor" then "function Object() { [native code] }"
    else "function " ++ k ++ "() { [native code] }"
|}.

Definition demoCanvas : Canvas := mkCanvas (mkDOMRect 0 0 800 600) "default".

Definition demoDocument : Document :=
  mkDocument (Some (mkPanel "none" ["interaction-panel"])) (Some "") (Some "") "default".

(** The page as loaded at time 1000. *)
Definition demoPage : Page := initPage 1000 tt demoCanvas demoDocument true.

(** Pointer positions over the seat, over the backrest, over both, and
    over empty space. *)
Definition atSeat : MouseEvent := mkMouseEvent 200 300.
Definition atBackrest : MouseEvent := mkMouseEvent 600 300.
Definition atBoth : MouseEvent := mkMouseEvent 400 300.
Definition atNothing : MouseEvent := mkMouseEvent 790 300.

(** The seat as [createPart] makes it, and as a frame leaves it while
    it is hovered and not selected. *)
Definition seatMesh : Mesh :=
  mkMesh (BoxGeometry 2 0.2 2) (mkVector3 0 0 0) 0x8b4513 (mkVector3 1 1 1)
    (mkUserData "seat" 0x8b4513 "Main seating surface" (mkVector3 1 1 1)).

Definition hoveredSeatMesh : Mesh :=
  scale_set 1.05 1.05 1.05 (setHex TEAL seatMesh).

End Demo.

(* ================================================================== *)
(** ** The vocabulary of the specification *)
(* ================================================================== *)

Module Spec.
Import Three Product Viewer.

(** The word [w] does not contain the separator. *)
Fixpoint noSep (sep : ascii) (w : string) : bool :=
  match w with
  | EmptyString => true
  | String c r => (negb (Ascii.eqb c sep) && noSep sep r)%bool
  end.

(** The displayed colour and scale of a part as the specification
    words it: a function of whether the part is hovered, whether it is
    selected, and its base colour and scale. *)
Definition displayed (isHovered isSelected : bool) (baseColor : Z)
    (baseScale : Vector3) : Z * Vector3 :=
  if isSelected then (RED, mkVector3 1.1 1.1 1.1)
  else if isHovered then (TEAL, mkVector3 1.05 1.05 1.05)
  else (baseColor, baseScale).

(** What a mesh is apart from its current colour and scale. *)
Definition unstyled (m : Mesh) : Geometry * Vector3 * UserData :=
  (geometry m, position m, userData m).

(** Two chairs have the same parts but for the colours and scales the
    parts have at the moment. *)
Definition sameUnstyled (c1 c2 : Chair) : Prop :=
  map (fun kv => (fst kv, unstyled (snd kv))) (parts c1) =
  map (fun kv => (fst kv, unstyled (snd kv))) (parts c2).

(** The chair with another hovered and selected part. *)
Definition withState (hovered clicked : option string) (c : Chair) : Chair :=
  mkChair (parts c) hovered clicked (animationTime c) (group_y c).

(** The pointer sample of the event [e] over a canvas with bounding
    rectangle [r] (of positive width and height), in normalized device
    coordinates: the position within the rectangle, scaled to [-1, 1]
    on each axis, up positive. *)
Definition pointerSample (r : DOMRect) (e : MouseEvent) : Vector2 :=
  mkVector2 (((clientX e - rect_left r) / rect_width r) * 2 - 1)%Q
            (- ((clientY e - rect_top r) / rect_height r) * 2 + 1)%Q.

(** [r] is the nearest part the ray meets among [objs], or nothing when
    it meets none. *)
Definition isNearest (raycast : Mesh -> list Q) (objs : list Mesh)
    (r : option Mesh) : Prop :=
  match r with
  | None => forall o, In o objs -> raycast o = []
  | Some m =>
      In m objs /\
      exists d, In d (raycast m) /\
        forall o d', In o objs -> In d' (raycast o) -> (d <= d')%Q
  end.

Definition callback_eqb (a b : Callback) : bool :=
  match a, b with
  | ClearClickedPart, ClearClickedPart => true
  | HidePanel, HidePanel => true
  | _, _ => false
  end.

(** A timer with callback [cb] is pending in [l] and due at [u]. *)
Definition dueBy (cb : Callback) (u : Z) (l : list Timer) : bool :=
  existsb (fun tm => ((due tm <=? u)%Z && callback_eqb (callback tm) cb)%bool) l.

Definition isMouseMove `{Host} (tev : Z * Event) : bool :=
  match snd tev with
  | MouseMove _ => true
  | _ => false
  end.

Definition isClick `{Host} (tev : Z * Event) : bool :=
  match snd tev with
  | Click _ => true
  | _ => false
  end.

Section WithHost.
Context `{Host}.

(** The hit test on the coordinates of [e], in the scene of [p]. *)
Definition hitTest (e : MouseEvent) (p : Page) : option Mesh :=
  getIntersectedObject (updateMousePosition e p).

(** What a hit test reads of the page: the camera, the rectangle of the
    canvas, and the parts of the chair with the height of their group. *)
Definition scene (p : Page) :=
  (camera p, rect (canvas p), parts (chair p), group_y (chair p)).

(** A click at time [t] passes the debounce of [p]. *)
Definition accepted (t : Z) (p : Page) : Prop :=
  (clickDelay (handler p) <= t - lastClickTime (handler p))%Z.

(** The three elements of the panel are in the document. *)
Definition panelElements (p : Page) : Prop :=
  is_Some (interactionPanel (document p)) /\
  is_Some (partTitle (document p)) /\
  is_Some (partDescription (document p)).

(** The part named [nm] has its base colour and scale 1. *)
Definition baseStyled (nm : string) (p : Page) : Prop :=
  forall k part, In (k, part) (parts (chair p)) ->
    name (userData part) = nm ->
    color part = originalColor (userData part) /\
    scale part = mkVector3 1 1 1.

(** The part of the page no timer callback changes. *)
Definition untimed (p : Page) :=
  (parts (chair p), hoveredPart (chair p), animationTime (chair p),
   group_y (chair p), handler p, camera p, canvas p, audio p,
   clickSounds p, partTitle (document p), partDescription (document p),
   body_cursor (document p)).

(** What an accepted click on a part does. *)
Definition clickOnPart (nm : string) (e : MouseEvent) (p : Page) : Page :=
  playClickSound
    (showInteractionPanel nm
       (setClickedPart (Some nm)
          (updateMousePosition e (set_lastClickTime (clock p) p)))).

(** The statements of the specification on timers, each at one
    input. *)

(** A click on a part at [t] and an accepted click on a part at
    [t + 300]: at every later time [u] before [t + 800] the selection
    is the part of the second click. *)
Definition reclickKeepsSelection (p : Page) (t : Z) (eA eB : MouseEvent)
    (u : Z) : Prop :=
  let p1 := step p (t, Click eA) in
  let p2 := step p1 (t + 300, Click eB)%Z in
  accepted t p ->
  is_Some (hitTest eA (advance t p)) ->
  is_Some (hitTest eB (advance (t + 300) p1)) ->
  (t + 300 <= u < t + 800)%Z ->
  clickedPart (chair (advance u p2)) =
  (fun m => name (userData m)) <$> hitTest eB (advance (t + 300) p1).

(** Two accepted clicks on parts, at [t1] and [t2]: the panel shown by
    the second is on screen at every time [v] less than 5000ms after
    it, no click on empty space having occurred. *)
Definition panelStaysFiveSeconds (p : Page) (t1 : Z) (e1 : MouseEvent)
    (t2 : Z) (e2 : MouseEvent) (v : Z) : Prop :=
  let p1 := step p (t1, Click e1) in
  let p2 := step p1 (t2, Click e2) in
  panelElements p ->
  accepted t1 p -> accepted t2 p1 ->
  is_Some (hitTest e1 (advance t1 p)) ->
  is_Some (hitTest e2 (advance t2 p1)) ->
  (t2 <= v < t2 + 5000)%Z ->
  panelVisible (advance v p2) = true.

(** An accepted click on a part at [t], then nothing until a frame at
    [u], 5000ms later or more: the panel is hidden and the part has
    its base colour and scale 1. *)
Definition idleRestoresBase (p : Page) (t : Z) (e : MouseEvent) (u : Z)
    (pose : Camera) : Prop :=
  let p1 := step p (t, Click e) in
  accepted t p ->
  forall m, hitTest e (advance t p) = Some m ->
  (t + 5000 <= u)%Z ->
  let q := step p1 (u, AnimationFrame pose) in
  panelVisible q = false /\ baseStyled (name (userData m)) q.

(** The part named [nm] has the hover colour and scale 1.05. *)
Definition hoverStyled (nm : string) (p : Page) : Prop :=
  forall k part, In (k, part) (parts (chair p)) ->
    name (userData part) = nm ->
    color part = TEAL /\ scale part = mkVector3 1.05 1.05 1.05.

End WithHost.
End Spec.

(* ================================================================== *)
(** ** The camera animation module: motion *)
(* ================================================================== *)

(** The arithmetic of the host on the numbers of the camera animator,
    which can be [NaN]: the rounded sum, product and quotient of two
    doubles, and [Math.sin], [Math.cos], [Math.atan2] and [Math.sqrt]. *)
Module Double.
Class Arith := {
  add : JS.number -> JS.number -> JS.number;
  mul : JS.number -> JS.number -> JS.number;
  div : JS.number -> JS.number -> JS.number;
  sin : JS.number -> JS.number;
  cos : JS.number -> JS.number;
  atan2 : JS.number -> JS.number -> JS.number;
  sqrt : JS.number -> JS.number
}.
End Double.

Module CameraMotion.
Import Three CameraAnimation.
Local Open Scope Q_scope.

(** The camera as the animator uses it: [camera.position] and the point
    the last [camera.lookAt] aimed it at ([None] before any). *)
Record Position := mkPosition {
  pos_x : JS.number; pos_y : JS.number; pos_z : JS.number
}.

Record PerspectiveCamera := mkPerspectiveCamera {
  cam_position : Position;
  cam_lookedAt : option Vector3
}.

(** The camera as [initScene] makes it: [camera.position.set(5, 3, 5)]. *)
Definition initialCamera : PerspectiveCamera :=
  mkPerspectiveCamera (mkPosition 5 3 5) None.

Section WithMath.
Context `{Double.Arith}.

(** [initializePosition()]. *)
Definition initializePosition (cam : PerspectiveCamera) (c : CameraController)
    : CameraController :=
  let currentPos := cam_position cam in
  mkCameraController
    (Double.atan2 (pos_z currentPos) (pos_x currentPos))
    (Double.sqrt (Double.add (Double.mul (pos_x currentPos) (pos_x currentPos))
                             (Double.mul (pos_z currentPos) (pos_z currentPos))))
    (speed c) (targetY c) (lookAtTarget c) (isAnimating c)
    (animationStartTime c) (verticalOscillation c) (radiusOscillation c).

(** [new CameraController(camera)] at time [now], with the starting
    position read off the camera. *)
Definition constructController (cam : PerspectiveCamera) (now : Z)
    : CameraController :=
  initializePosition cam (newCameraController 0 8 now).

(** [update()] at time [now] ([Date.now()]): the controller and the
    camera it leaves. *)
Definition update (now : Z) (s : CameraController * PerspectiveCamera)
    : CameraController * PerspectiveCamera :=
  let (c, cam) := s in
  if negb (isAnimating c) then s
  else
    let deltaTime : JS.number := 0.016 in
    let elapsedTime :=
      Double.div (inject_Z (now - animationStartTime c)) 1000 in
    let angle' := Double.add (angle c) (Double.mul deltaTime (speed c)) in
    let currentRadius := radius c in
    let currentY := targetY c in
    let currentRadius :=
      if enabled (radiusOscillation c)
      then Double.add currentRadius
             (Double.mul
                (Double.sin (Double.mul elapsedTime (frequency (radiusOscillation c))))
                (amplitude (radiusOscillation c)))
      else currentRadius in
    let currentY :=
      if enabled (verticalOscillation c)
      then Double.add currentY
             (Double.mul
                (Double.sin (Double.mul elapsedTime (frequency (verticalOscillation c))))
                (amplitude (verticalOscillation c)))
      else currentY in
    let x := Double.mul (Double.cos angle') currentRadius in
    let z := Double.mul (Double.sin angle') currentRadius in
    (mkCameraController angle' (radius c) (speed c) (targetY c)
       (lookAtTarget c) (isAnimating c) (animationStartTime c)
       (verticalOscillation c) (radiusOscillation c),
     mkPerspectiveCamera (mkPosition x currentY z) (Some (lookAtTarget c))).

(** [reset()] at time [now]. *)
Definition reset (cam : PerspectiveCamera) (now : Z) (c : CameraController)
    : CameraController :=
  let c := initializePosition cam c in
  mkCameraController (angle c) (radius c) (speed c) (targetY c)
    (lookAtTarget c) (isAnimating c) now
    (verticalOscillation c) (radiusOscillation c).

(** Successive frames, each at its own time. *)
Definition updates (times : list Z) (s : CameraController * PerspectiveCamera)
    : CameraController * PerspectiveCamera :=
  fold_left (fun s now => update now s) times s.

End WithMath.
End CameraMotion.

(* ================================================================== *)
(** ** js/main.js: auto-rotation *)
(* ================================================================== *)

Module Main.
Import Three CameraAnimation CameraMotion.

(** What the auto-rotate switch touches of the application: the flag
    [app.autoRotate], [app.controls.enableRotate], the [checked] state
    of the checkbox [#autoRotateToggle], the camera controller and the
    camera. *)
Record App := mkApp {
  autoRotate : bool;
  enableRotate : bool;
  toggleChecked : bool;
  cameraController : CameraController;
  camera : PerspectiveCamera
}.

(** What the orbit controls do to the camera when they update it, on a
    frame ([controls.update()]) or on the user's dragging and zooming:
    three.js and the user decide it. *)
Definition Controls := PerspectiveCamera -> PerspectiveCamera.

Section WithMath.
Context `{Double.Arith}.

(** The listener of the checkbox's [change] event, the browser having
    set [checked] to [checked']. *)
Definition onAutoRotateChange (checked' : bool) (now : Z) (a : App) : App :=
  let autoRotate' := checked' in
  let enableRotate' := negb autoRotate' in
  let cc :=
    if autoRotate' then reset (camera a) now (cameraController a)
    else cameraController a in
  mkApp autoRotate' enableRotate' checked' cc (camera a).

(** [debugViewer.toggleAutoRotate()]. *)
Definition toggleAutoRotate (a : App) : App :=
  let autoRotate' := negb (autoRotate a) in
  mkApp autoRotate' (negb autoRotate') autoRotate' (cameraController a) (camera a).

(** [debugViewer.setRotationSpeed(speed)] and
    [debugViewer.setCameraDistance(distance)]. *)
Definition setRotationSpeed (s : JS.number) (a : App) : App :=
  mkApp (autoRotate a) (enableRotate a) (toggleChecked a)
    (setSpeed s (cameraController a)) (camera a).

Definition setCameraDistance (d : JS.number) (a : App) : App :=
  mkApp (autoRotate a) (enableRotate a) (toggleChecked a)
    (setRadius d (cameraController a)) (camera a).

(** The camera part of [animate()] at time [now]: the animator when
    auto-rotation is on, then the orbit controls. *)
Definition animateCamera (now : Z) (controls : Controls) (a : App) : App :=
  let (cc, cam) :=
    if autoRotate a then update now (cameraController a, camera a)
    else (cameraController a, camera a) in
  mkApp (autoRotate a) (enableRotate a) (toggleChecked a) cc (controls cam).

(** The application once [init] has run at time [now]: [autoRotate] is
    [true], [initScene] leaves [enableRotate] false, the checkbox is as
    the page has it, and the call of [animate] that ends [init] has run
    its frame. *)
Definition initApp (cam : PerspectiveCamera) (checked : bool) (now : Z)
    (controls : Controls) : App :=
  animateCamera now controls
    (mkApp true false checked (constructController cam now) cam).

(** The orbit controls move the camera between two frames. *)
Definition orbit (controls : Controls) (a : App) : App :=
  mkApp (autoRotate a) (enableRotate a) (toggleChecked a) (cameraController a)
    (controls (camera a)).

Inductive Action :=
| CheckboxChange (checked' : bool) (now : Z)
| DebugToggle
| DebugSpeed (s : JS.number)
| DebugDistance (d : JS.number)
| Frame (now : Z) (controls : Controls)
| Orbit (controls : Controls).

Definition act (a : App) (x : Action) : App :=
  match x with
  | CheckboxChange checked' now => onAutoRotateChange checked' now a
  | DebugToggle => toggleAutoRotate a
  | DebugSpeed s => setRotationSpeed s a
  | DebugDistance d => setCameraDistance d a
  | Frame now controls => animateCamera now controls a
  | Orbit controls => orbit controls a
  end.

Definition acts (a : App) (l : list Action) : App := fold_left act l a.

Definition isSwitch (x : Action) : bool :=
  match x with
  | CheckboxChange _ _ | DebugToggle => true
  | _ => false
  end.

End WithMath.
End Main.

(* ================================================================== *)
(** ** js/main.js and js/initScene.js: start-up *)
(* ================================================================== *)

Module Startup.
Import Product Viewer CameraAnimation CameraMotion.

(** What the loading screen shows: the loading indicator of the page, or
    the error box of [showErrorMessage] with its message. *)
Inductive Content := LoadingIndicator | ErrorBox (message : string).

Record LoadingScreen := mkLoadingScreen {
  ls_display : string;
  ls_content : Content
}.

(** The elements start-up looks up by id: [#canvas-container] (with
    whether the renderer's canvas has been appended to it),
    [#autoRotateToggle] and [#loadingScreen]; [None] and [false] stand
    for an element that is not in the document. *)
Record Dom := mkDom {
  canvasContainer : option bool;
  autoRotateToggle : bool;
  loadingScreen : option LoadingScreen
}.

(** The listeners [setupEventListeners] installs. *)
Inductive Listener := OnAutoRotateChange | OnResize | OnClick | OnMouseMove.

(** The application at start-up: the document, the fields of [app]
    ([scene], [renderer] and [controls] are set together with the
    camera), the listeners installed, the time the loading-screen timer
    is due, and whether the frame loop runs. *)
Record State := mkState {
  dom : Dom;
  app_sceneData : bool;
  app_camera : option PerspectiveCamera;
  app_chair : option Chair;
  app_interactionHandler : option InteractionHandler;
  app_cameraController : option CameraController;
  listeners : list Listener;
  loadingTimer : option Z;
  frameLoop : bool
}.

(** How a piece of code ends: normally, or with an exception nobody
    catches. *)
Inductive Completion := Normal | Uncaught (message : string).

Section WithHostErrors.
Context `{Host} `{Double.Arith}.
(** The message of the [TypeError] the host raises on a property access
    on [null], and what [controls.update()] does to the camera on the
    first frame. *)
Variable nullAccessMessage : string.
Variable controls : PerspectiveCamera -> PerspectiveCamera.

(** [initScene()]: the document it leaves, or the message of the error
    it throws. *)
Definition initScene (d : Dom) : string + Dom :=
  match canvasContainer d with
  | None => inl "Canvas container not found"
  | Some _ => inr (mkDom (Some true) (autoRotateToggle d) (loadingScreen d))
  end.

(** [setupEventListeners()]. *)
Definition setupEventListeners (s : State) : string + State :=
  if autoRotateToggle (dom s)
  then inr (mkState (dom s) (app_sceneData s) (app_camera s) (app_chair s)
              (app_interactionHandler s) (app_cameraController s)
              (listeners s ++ [OnAutoRotateChange; OnResize; OnClick; OnMouseMove])
              (loadingTimer s) (frameLoop s))
  else inl nullAccessMessage.

(** [animate()] at time [now], called by [init]: it asks for the next
    frame and runs one, with [app.autoRotate] as it starts, [true]. *)
Definition animate (now : Z) (s : State) : State :=
  let (cc, cam) :=
    match app_cameraController s, app_camera s with
    | Some cc, Some cam =>
        let (cc, cam) := CameraMotion.update now (cc, cam) in (Some cc, Some cam)
    | cc, cam => (cc, cam)
    end in
  mkState (dom s) (app_sceneData s) (controls <$> cam)
    (Product.update <$> app_chair s)
    (app_interactionHandler s) cc (listeners s) (loadingTimer s) true.

(** [showErrorMessage(message)]. *)
Definition showErrorMessage (message : string) (s : State) : State * Completion :=
  match loadingScreen (dom s) with
  | Some ls =>
      (mkState
         (mkDom (canvasContainer (dom s)) (autoRotateToggle (dom s))
            (Some (mkLoadingScreen (ls_display ls) (ErrorBox message))))
         (app_sceneData s) (app_camera s) (app_chair s) (app_interactionHandler s)
         (app_cameraController s) (listeners s) (loadingTimer s) (frameLoop s),
       Normal)
  | None => (s, Uncaught nullAccessMessage)
  end.

(** The body of the [try] of [init()] at time [now]: the state it
    reaches, with the message of the error thrown if one is. *)
Definition initBody (now : Z) (s : State) : State * option string :=
  match initScene (dom s) with
  | inl message => (s, Some message)
  | inr d =>
      let s := mkState d true (Some initialCamera) (Some newChair)
                 (Some newInteractionHandler)
                 (Some (constructController initialCamera now))
                 (listeners s) (loadingTimer s) (frameLoop s) in
      match setupEventListeners s with
      | inl message => (s, Some message)
      | inr s =>
          let s := mkState (dom s) (app_sceneData s) (app_camera s) (app_chair s)
                     (app_interactionHandler s) (app_cameraController s)
                     (listeners s) (Some (now + 1000)%Z) (frameLoop s) in
          (animate now s, None)
      end
  end.

(** [init()]. *)
Definition init (now : Z) (s : State) : State * Completion :=
  match initBody now s with
  | (s, None) => (s, Normal)
  | (s, Some message) =>
      showErrorMessage ("Failed to load 3D viewer: " ++ message) s
  end.

(** The callback of the loading-screen timer. *)
Definition hideLoadingScreen (s : State) : State * Completion :=
  match loadingScreen (dom s) with
  | Some ls =>
      (mkState
         (mkDom (canvasContainer (dom s)) (autoRotateToggle (dom s))
            (Some (mkLoadingScreen "none" (ls_content ls))))
         (app_sceneData s) (app_camera s) (app_chair s) (app_interactionHandler s)
         (app_cameraController s) (listeners s) None (frameLoop s),
       Normal)
  | None =>
      (mkState (dom s) (app_sceneData s) (app_camera s) (app_chair s)
         (app_interactionHandler s) (app_cameraController s) (listeners s)
         None (frameLoop s),
       Uncaught nullAccessMessage)
  end.

End WithHostErrors.

(** The application before [init]: nothing set, no listener, no timer. *)
Definition freshState (d : Dom) : State :=
  mkState d false None None None None [] None false.

End Startup.

(** A stand-in for the host's arithmetic, for running the model: exact
    on finite values and [NaN] otherwise, with a sine that is constantly
    0 and a cosine that is constantly 1. *)
Module DemoMath.
Import Three CameraAnimation CameraMotion.

Definition lift2 (f : Q -> Q -> Q) (a b : JS.number) : JS.number :=
  match a, b with
  | JS.Fin x, JS.Fin y => JS.Fin (f x y)
  | _, _ => JS.NaN
  end.

#[export] Instance demoArith : Double.Arith := {|
  Double.add := lift2 Qplus;
  Double.mul := lift2 Qmult;
  Double.div := lift2 Qdiv;
  Double.sin _ := JS.Fin 0;
  Double.cos _ := JS.Fin 1;
  Double.atan2 _ _ := JS.Fin 0;
  Double.sqrt x := x
|}.

(** The camera where [initScene] puts it. *)
Definition demoCamera : PerspectiveCamera := initialCamera.

End DemoMath.

(* ================================================================== *)
(** ** More vocabulary: the part registry and sessions *)
(* ================================================================== *)

Module Registry.
Import Three Product.

(** The keys of [parts] are distinct and each is the name of its mesh. *)
Definition wellKeyed (c : Chair) : Prop :=
  List.NoDup (map fst (parts c)) /\
  Forall (fun kv => name (userData (snd kv)) = fst kv) (parts c).

(** No part has the empty name. *)
Definition allNamed (c : Chair) : Prop :=
  Forall (fun kv => JS.truthy (Some (name (userData (snd kv)))) = true) (parts c).

(** The mesh [createPart] makes. *)
Definition freshMesh (nm : string) (g : Geometry) (pos : Vector3) (col : Z)
    (descr : string) : Mesh :=
  mkMesh g pos col (mkVector3 1 1 1) (mkUserData nm col descr (mkVector3 1 1 1)).

(** The arguments of one [createPart] call, and a chair built by a
    series of calls. *)
Record PartSpec := mkPartSpec {
  spec_name : string;
  spec_geometry : Geometry;
  spec_position : Vector3;
  spec_color : Z;
  spec_description : string
}.

Definition createParts (specs : list PartSpec) (c : Chair) : Chair :=
  fold_left
    (fun c s => createPart (spec_name s) (spec_geometry s) (spec_position s)
                  (spec_color s) (spec_description s) c)
    specs c.

(** The names of the parts, in order. *)
Definition partNames (c : Chair) : list string :=
  map (fun kv => name (userData (snd kv))) (parts c).

(** [v] is [null] or the name of a part. *)
Definition namesPart (c : Chair) (v : option string) : Prop :=
  match v with
  | None => True
  | Some nm => In nm (partNames c)
  end.

End Registry.

Module Session.
Import Three Product Viewer Spec.

(** The display name character by character: a hyphen becomes a space,
    and the character at the start or after a hyphen is upper-cased. *)
Fixpoint formatChars (start : bool) (s : string) : string :=
  match s with
  | EmptyString => EmptyString
  | String c r =>
      if Ascii.eqb c "-"%char then String " "%char (formatChars true r)
      else String (if start then JS.upper_ascii c else c) (formatChars false r)
  end.

(** The classes of an element other than ["panel-show"]. *)
Definition otherClasses (l : list string) : list string :=
  List.filter (fun x => negb (String.eqb "panel-show" x)) l.

Section WithHost.
Context `{Host}.

(** An event of the page itself, not of the console. *)
Definition uiEvent (tev : Z * Event) : bool :=
  match snd tev with
  | HighlightPart _ => false
  | _ => true
  end.

(** The events come in order of time, from [t] on. *)
Fixpoint inOrder (t : Z) (trace : list (Z * Event)) : Prop :=
  match trace with
  | [] => True
  | tev :: rest => (t <= fst tev)%Z /\ inOrder (fst tev) rest
  end.

(** The page with the audio output switched. *)
Definition with_audio (b : bool) (p : Page) : Page :=
  mkPage (clock p) (chair p) (camera p) (canvas p) (document p) (handler p)
    (timers p) b (clickSounds p).

(** The page apart from the audio output and the count of sounds. *)
Definition silentView (p : Page) :=
  (clock p, chair p, camera p, canvas p, document p, handler p, timers p).

(** The chair has the parts [new Chair] made: the same keys, in order,
    each with the same [userData]. *)
Definition sameParts (c : Chair) : Prop :=
  map (fun kv => (fst kv, userData (snd kv))) (parts c) =
  map (fun kv => (fst kv, userData (snd kv))) (parts newChair).

(** The page is as a session keeps it: the chair has its parts, the
    hovered and the selected part are [null] or names of parts, and the
    handler has its description table and its delay of 200ms. *)
Definition steady (p : Page) : Prop :=
  sameParts (chair p) /\
  Registry.namesPart newChair (hoveredPart (chair p)) /\
  Registry.namesPart newChair (clickedPart (chair p)) /\
  partDescriptions (handler p) = descriptionTable /\
  clickDelay (handler p) = 200%Z.

(** The pending timers account for what is on: each is due after the
    clock and at most 5000ms ahead, the deselect ones at most 500ms
    ahead; one of these is pending while a part is selected, and a hide
    timer is pending while the panel is on screen. *)
Definition draining (p : Page) : Prop :=
  (forall tm, In tm (timers p) ->
     (clock p < due tm <= clock p + 5000)%Z) /\
  (forall tm, In tm (timers p) -> callback tm = ClearClickedPart ->
     (due tm <= clock p + 500)%Z) /\
  (clickedPart (chair p) <> None ->
     exists tm, In tm (timers p) /\ callback tm = ClearClickedPart) /\
  (panelVisible p = true ->
     exists tm, In tm (timers p) /\ callback tm = HidePanel).

End WithHost.
End Session.

(* ================================================================== *)
(** * Properties *)
(* ================================================================== *)

(** ** Sorting *)

Module SortingFacts.
Import Sorting.
Section Facts.
Context {A : Type} (leb : A -> A -> bool).

Lemma insert_sorted_In (x y : A) (l : list A) :
  In y (insert_sorted leb x l) <-> y = x \/ In y l.
Proof.
  induction l as [|z r IH]; simpl.
  - intuition auto.
  - destruct (leb x z); simpl; rewrite ?IH; intuition auto.
Qed.

Lemma sort_by_In (y : A) (l : list A) : In y (sort_by leb l) <-> In y l.
Proof.
  induction l as [|x r IH]; simpl; [reflexivity|].
  rewrite insert_sorted_In, IH. intuition auto.
Qed.

Lemma sort_by_nil (l : list A) : sort_by leb l = [] -> l = [].
Proof.
  destruct l as [|x r]; [reflexivity|]. intros E.
  assert (In x (sort_by leb (x :: r))) as Hin
    by (apply sort_by_In; left; reflexivity).
  rewrite E in Hin. destruct Hin.
Qed.

Hypothesis leb_total : forall a b, leb a b = true \/ leb b a = true.
Hypothesis leb_trans :
  forall a b c, leb a b = true -> leb b c = true -> leb a c = true.

(** The first element of the sorted list is below every element. *)
Lemma sort_by_head_least (l : list A) (x : A) (r : list A) :
  sort_by leb l = x :: r -> forall y, In y l -> leb x y = true.
Proof.
  revert x r. induction l as [|a l IH]; intros x r E y Hy; [destruct Hy|].
  simpl in E. destruct (sort_by leb l) as [|b s] eqn:Es.
  - apply sort_by_nil in Es. subst l. simpl in E. injection E as <- _.
    destruct Hy as [<-|[]]. destruct (leb_total a a); assumption.
  - simpl in E. destruct (leb a b) eqn:Eab; injection E as <- _.
    + destruct Hy as [<-|Hy].
      * destruct (leb_total a a); assumption.
      * apply leb_trans with b; [assumption|]. eapply IH; eauto.
    + destruct Hy as [<-|Hy].
      * destruct (leb_total b a) as [Hba|Hab]; [assumption|congruence].
      * eapply IH; eauto.
Qed.
End Facts.
End SortingFacts.

(** ** The camera setters *)

Module CameraFacts.
Import CameraAnimation.
Local Open Scope Q_scope.

(** Case analysis on the comparisons of finite values. *)
Ltac qcases :=
  repeat match goal with
    | |- context [Qle_bool ?a ?b] => destruct (Qle_bool a b) eqn:?
    end;
  repeat match goal with
    | H : Qle_bool _ _ = true |- _ => apply Qle_bool_iff in H
    | H : Qle_bool _ _ = false |- _ =>
        apply not_true_iff_false in H; rewrite Qle_bool_iff in H
    end.

Lemma le_Fin (x y : Q) : JS.le x y <-> x <= y.
Proof. unfold JS.le. simpl. apply Qle_bool_iff. Qed.

Lemma lt_Fin (x y : Q) : JS.lt x y <-> x < y.
Proof.
  unfold JS.lt, JS.ltb. simpl. split.
  - intros Hlt. apply andb_prop in Hlt as [Hle Hnge].
    apply negb_true_iff in Hnge. qcases. lra.
  - intros Hlt. apply andb_true_intro. split.
    + apply Qle_bool_iff. lra.
    + apply negb_true_iff. apply not_true_iff_false.
      rewrite Qle_bool_iff. lra.
Qed.

(** [Math.max] and [Math.min] give one of their arguments, the larger
    or the smaller, unless one is [NaN]. *)
Lemma Math_max_Fin (a b : Q) :
  (a <= b -> JS.Math_max a b = b) /\ (b < a -> JS.Math_max a b = a).
Proof.
  simpl. split; intros Hab; qcases; (reflexivity || lra).
Qed.

Lemma Math_min_Fin (a b : Q) :
  (b <= a -> JS.Math_min a b = b) /\ (a < b -> JS.Math_min a b = a).
Proof.
  simpl. split; intros Hab; qcases; (reflexivity || lra).
Qed.

(** The clamp of [setRadius] on a finite input. *)
Lemma clamp_Fin (q : Q) :
  (q < 2 -> JS.Math_max 2 (JS.Math_min 20 q) = 2) /\
  (20 < q -> JS.Math_max 2 (JS.Math_min 20 q) = 20) /\
  (2 <= q <= 20 -> JS.Math_max 2 (JS.Math_min 20 q) = q).
Proof.
  repeat split.
  - intros Hq. rewrite (proj1 (Math_min_Fin 20 q)) by lra.
    apply Math_max_Fin. exact Hq.
  - intros Hq. rewrite (proj2 (Math_min_Fin 20 q)) by exact Hq.
    apply Math_max_Fin. lra.
  - intros [Hlo Hhi]. rewrite (proj1 (Math_min_Fin 20 q)) by exact Hhi.
    apply Math_max_Fin. exact Hlo.
Qed.

Lemma clamp_range (x : JS.number) :
  x <> JS.NaN ->
  JS.le 2 (JS.Math_max 2 (JS.Math_min 20 x)) /\
  JS.le (JS.Math_max 2 (JS.Math_min 20 x)) 20.
Proof.
  intros Hx. destruct x as [| |q|]; [congruence| | |]; try (split; reflexivity).
  destruct (Qlt_le_dec q 2) as [Hlt|Hge].
  - rewrite (proj1 (clamp_Fin q) Hlt). split; reflexivity.
  - destruct (Qlt_le_dec 20 q) as [Hgt|Hle].
    + rewrite (proj1 (proj2 (clamp_Fin q)) Hgt). split; reflexivity.
    + rewrite (proj2 (proj2 (clamp_Fin q)) (conj Hge Hle)).
      split; apply le_Fin; assumption.
Qed.

Lemma max0_range (x : JS.number) :
  x <> JS.NaN -> JS.le 0 (JS.Math_max 0 x).
Proof.
  intros Hx. destruct x as [| |q|]; [congruence| | |]; try reflexivity.
  destruct (Qlt_le_dec q 0) as [Hlt|Hge].
  - rewrite (proj2 (Math_max_Fin 0 q) Hlt). reflexivity.
  - rewrite (proj1 (Math_max_Fin 0 q) Hge). apply le_Fin, Hge.
Qed.

(** C8: for every input that is a number the speed setter stores
    [max(0, input)], 0 for a negative input and the input itself when it
    is not negative, and the radius setter stores the input clamped into
    [2, 20]: 2 below 2, 20 above 20, the input itself in between. For
    the input [NaN] both setters store [NaN], which is not at least 0
    and not within [2, 20]. *)
Theorem setSpeed_setRadius_clamp (c : CameraController) (x : JS.number) :
  speed (setSpeed x c) = JS.Math_max 0 x /\
  radius (setRadius x c) = JS.Math_max 2 (JS.Math_min 20 x) /\
  (x <> JS.NaN ->
     JS.le 0 (speed (setSpeed x c)) /\
     (JS.lt x 0 -> speed (setSpeed x c) = 0) /\
     (JS.le 0 x -> speed (setSpeed x c) = x) /\
     JS.le 2 (radius (setRadius x c)) /\
     JS.le (radius (setRadius x c)) 20 /\
     (JS.lt x 2 -> radius (setRadius x c) = 2) /\
     (JS.lt 20 x -> radius (setRadius x c) = 20) /\
     (JS.le 2 x -> JS.le x 20 -> radius (setRadius x c) = x)) /\
  (x = JS.NaN ->
     speed (setSpeed x c) = JS.NaN /\
     radius (setRadius x c) = JS.NaN /\
     ~ JS.le 0 (speed (setSpeed x c)) /\
     ~ JS.le 2 (radius (setRadius x c)) /\
     ~ JS.le (radius (setRadius x c)) 20).
Proof.
  split; [reflexivity|]. split; [reflexivity|]. split.
  - intros Hx. cbn [speed radius setSpeed setRadius].
    split; [apply max0_range, Hx|].
    pose proof (clamp_range x Hx) as [Hlo Hhi].
    destruct x as [| |q|]; [congruence| | |].
    + repeat split; try assumption; try reflexivity; intros; discriminate.
    + repeat split; try assumption.
      * intros Hq. apply lt_Fin in Hq. apply Math_max_Fin, Hq.
      * intros Hq. apply le_Fin in Hq. apply Math_max_Fin, Hq.
      * intros Hq. apply lt_Fin in Hq. apply clamp_Fin, Hq.
      * intros Hq. apply lt_Fin in Hq. apply clamp_Fin, Hq.
      * intros Hq Hq'. apply le_Fin in Hq, Hq'. apply clamp_Fin. split; assumption.
    + repeat split; try assumption; try reflexivity; intros; discriminate.
  - intros ->. repeat split; intros Hle; discriminate Hle.
Qed.

Lemma setSpeed_setRadius_clamp_witness :
  let c := newCameraController 0 8 0 in
  speed (setSpeed (-3) c) = 0 /\
  speed (setSpeed 0.7 c) = 0.7 /\
  radius (setRadius 1 c) = 2 /\
  radius (setRadius 25 c) = 20 /\
  radius (setRadius 8.5 c) = 8.5 /\
  speed (setSpeed JS.NaN c) = JS.NaN /\
  radius (setRadius JS.NaN c) = JS.NaN /\
  ~ JS.le 2 (radius (setRadius JS.NaN c)).
Proof.
  intros c.
  destruct (setSpeed_setRadius_clamp c (-3)) as (_ & _ & Hneg & _).
  destruct (setSpeed_setRadius_clamp c 0.7) as (_ & _ & Hpos & _).
  destruct (setSpeed_setRadius_clamp c 1) as (_ & _ & Hlo & _).
  destruct (setSpeed_setRadius_clamp c 25) as (_ & _ & Hhi & _).
  destruct (setSpeed_setRadius_clamp c 8.5) as (_ & _ & Hin & _).
  destruct (setSpeed_setRadius_clamp c JS.NaN) as (_ & _ & _ & Hnan).
  split; [apply Hneg; [discriminate|reflexivity]|].
  split; [apply Hpos; [discriminate|reflexivity]|].
  split; [apply Hlo; [discriminate|reflexivity]|].
  split; [apply Hhi; [discriminate|reflexivity]|].
  split; [apply Hin; [discriminate|reflexivity|reflexivity]|].
  split; [apply Hnan; reflexivity|].
  split; apply Hnan; reflexivity.
Defined.

End CameraFacts.

(** ** The per-frame visual update *)

Module ProductFacts.
Import Three Product Spec.

Lemma updatePart_userData (hov clk : option string) (part : Mesh) :
  userData (updatePart hov clk part) = userData part /\
  geometry (updatePart hov clk part) = geometry part /\
  position (updatePart hov clk part) = position part.
Proof. unfold updatePart. repeat case_decide; simpl; auto. Qed.

(** What [updatePart] leaves depends on the part's current colour and
    scale in no way. *)
Lemma updatePart_forgets (hov clk : option string) (part : Mesh)
    (col : Z) (sx sy sz : Q) :
  updatePart hov clk (scale_set sx sy sz (setHex col part)) =
  updatePart hov clk part.
Proof. unfold updatePart. simpl. repeat case_decide; reflexivity. Qed.

Lemma updatePart_ext (hov clk : option string) (m1 m2 : Mesh) :
  userData m1 = userData m2 -> geometry m1 = geometry m2 ->
  position m1 = position m2 ->
  updatePart hov clk m1 = updatePart hov clk m2.
Proof.
  destruct m1, m2. simpl. intros -> -> ->. reflexivity.
Qed.

Lemma updatePart_idempotent (hov clk : option string) (part : Mesh) :
  updatePart hov clk (updatePart hov clk part) = updatePart hov clk part.
Proof. apply updatePart_ext; apply updatePart_userData. Qed.

Lemma updatePart_displayed (hov clk : option string) (part : Mesh) :
  let nm := name (userData part) in
  (color (updatePart hov clk part), scale (updatePart hov clk part)) =
  displayed (bool_decide (hov = Some nm)) (bool_decide (clk = Some nm))
    (originalColor (userData part)) (mkVector3 1 1 1).
Proof.
  intros nm. unfold updatePart, displayed. fold nm.
  repeat case_bool_decide; repeat case_decide; simpl; congruence.
Qed.

Lemma update_parts `{Host} (c : Chair) :
  parts (update c) =
  map (fun kv => (fst kv, updatePart (hoveredPart c) (clickedPart c) (snd kv)))
    (parts c).
Proof. reflexivity. Qed.

(** C3: after one frame update every part of the chair is styled by the
    hovered and the selected part alone. The selected part is red
    ([0xff6b6b]) at scale 1.1, also when it is the hovered part; the
    hovered part that is not selected is teal ([0x4ecdc4]) at scale 1.05;
    any other part has its base colour at scale 1. *)
Theorem update_styles_each_part `{Host} (c : Chair) (i : nat) (k : string)
    (part : Mesh) :
  nth_error (parts c) i = Some (k, part) ->
  let nm := name (userData part) in
  exists part',
    nth_error (parts (update c)) i = Some (k, part') /\
    userData part' = userData part /\
    (clickedPart c = Some nm ->
       color part' = RED /\ scale part' = mkVector3 1.1 1.1 1.1) /\
    (hoveredPart c = Some nm -> clickedPart c <> Some nm ->
       color part' = TEAL /\ scale part' = mkVector3 1.05 1.05 1.05) /\
    (hoveredPart c <> Some nm -> clickedPart c <> Some nm ->
       color part' = originalColor (userData part) /\
       scale part' = mkVector3 1 1 1).
Proof.
  intros Hi nm.
  exists (updatePart (hoveredPart c) (clickedPart c) part).
  split.
  { rewrite update_parts, nth_error_map, Hi. reflexivity. }
  split; [apply updatePart_userData|].
  pose proof (updatePart_displayed (hoveredPart c) (clickedPart c) part) as D.
  cbv zeta in D. fold nm in D. unfold displayed in D.
  repeat split; intros; repeat case_bool_decide; congruence.
Qed.

Lemma update_styles_each_part_witness :
  let c := mkChair (parts newChair) (Some "seat") (Some "seat") 0 1 in
  exists part',
    nth_error (parts (update (H := Demo.demoHost) c)) 0 = Some ("seat", part') /\
    color part' = RED /\ scale part' = mkVector3 1.1 1.1 1.1.
Proof.
  intros c.
  destruct (update_styles_each_part (H := Demo.demoHost) c 0 "seat"
              Demo.seatMesh eq_refl)
    as (part' & Hnth & _ & Hsel & _).
  exists part'. split; [exact Hnth|]. apply Hsel. reflexivity.
Defined.

Lemma map_through {A B C} (f : A -> B) (g : A -> C) (l1 l2 : list A) :
  (forall a b, f a = f b -> g a = g b) ->
  map f l1 = map f l2 -> map g l1 = map g l2.
Proof.
  intros Hfg. revert l2.
  induction l1 as [|a l1 IH]; intros [|b l2]; simpl; try discriminate.
  - reflexivity.
  - intros [= Hab Hl]. rewrite (Hfg a b Hab), (IH l2 Hl). reflexivity.
Qed.

(** A frame styles the parts of two chairs alike when they differ in
    the current colours and scales only. *)
Lemma update_sameUnstyled `{Host} (c1 c2 : Chair) :
  hoveredPart c1 = hoveredPart c2 -> clickedPart c1 = clickedPart c2 ->
  sameUnstyled c1 c2 -> parts (update c1) = parts (update c2).
Proof.
  intros Hh Hc Hs. rewrite !update_parts, Hh, Hc.
  revert Hs. unfold sameUnstyled. apply map_through.
  intros [k1 m1] [k2 m2]. unfold unstyled. simpl.
  intros [= -> Hg Hp Hu]. f_equal. apply updatePart_ext; assumption.
Qed.

Lemma update_unstyled `{Host} (c : Chair) : sameUnstyled (update c) c.
Proof.
  unfold sameUnstyled. rewrite update_parts, map_map. apply map_ext.
  intros [k m]. unfold unstyled. simpl.
  destruct (updatePart_userData (hoveredPart c) (clickedPart c) m)
    as (-> & -> & ->).
  reflexivity.
Qed.

(** C4: the colour and scale a frame update leaves on every part of the
    chair are a function of whether the part is hovered, whether it is
    selected and its base colour (the base scale being 1). The colours
    and scales the parts had before the update do not matter: chairs
    that differ in them only are styled alike, a second update in the
    same state changes nothing, and once the hovered or the selected
    part changes or clears, the next update styles the chair as if the
    earlier state had never been. *)
Theorem update_visual_state_pure `{Host} (c : Chair) :
  (forall i k part,
      nth_error (parts c) i = Some (k, part) ->
      let nm := name (userData part) in
      exists part',
        nth_error (parts (update c)) i = Some (k, part') /\
        (color part', scale part') =
        displayed (bool_decide (hoveredPart c = Some nm))
          (bool_decide (clickedPart c = Some nm))
          (originalColor (userData part)) (mkVector3 1 1 1)) /\
  List.length (parts (update c)) = List.length (parts c) /\
  parts (update (update c)) = parts (update c) /\
  (forall c',
      hoveredPart c' = hoveredPart c -> clickedPart c' = clickedPart c ->
      sameUnstyled c' c -> parts (update c') = parts (update c)) /\
  (forall hovered clicked,
      parts (update (withState hovered clicked (update c))) =
      parts (update (withState hovered clicked c))) /\
  Forall (fun kv => originalScale (userData (snd kv)) = mkVector3 1 1 1)
    (parts newChair).
Proof.
  split; [|split; [|split; [|split; [|split]]]].
  - intros i k part Hi nm.
    exists (updatePart (hoveredPart c) (clickedPart c) part). split.
    + rewrite update_parts, nth_error_map, Hi. reflexivity.
    + apply updatePart_displayed.
  - rewrite update_parts. apply length_map.
  - apply update_sameUnstyled; [reflexivity|reflexivity|apply update_unstyled].
  - intros c'. apply update_sameUnstyled.
  - intros hovered clicked.
    apply update_sameUnstyled; [reflexivity|reflexivity|].
    exact (update_unstyled c).
  - repeat constructor.
Qed.

Lemma update_visual_state_pure_witness :
  let c := mkChair [("seat", Demo.hoveredSeatMesh)] None None 0 1 in
  let c' := mkChair [("seat", Demo.seatMesh)] None None 7 2 in
  (exists part',
     nth_error (parts (update (H := Demo.demoHost) c)) 0 = Some ("seat", part') /\
     (color part', scale part') = (0x8b4513%Z, mkVector3 1 1 1)) /\
  parts (update (H := Demo.demoHost) c') = parts (update (H := Demo.demoHost) c).
Proof.
  intros c c'.
  destruct (update_visual_state_pure (H := Demo.demoHost) c)
    as (Hstyle & _ & _ & Hsame & _).
  split.
  - apply (Hstyle 0%nat "seat" Demo.hoveredSeatMesh). reflexivity.
  - apply Hsame; reflexivity.
Defined.

End ProductFacts.

(** ** Part names and panel text *)

Module PanelFacts.
Import Three Product Viewer Spec.

Lemma split_noSep (sep : ascii) (w : string) :
  noSep sep w = true -> JS.split sep w = [w].
Proof.
  induction w as [|c r IH]; simpl; [reflexivity|].
  intros Hw. apply andb_prop in Hw as [Hc Hr].
  apply negb_true_iff in Hc. rewrite Hc, (IH Hr). reflexivity.
Qed.

Lemma split_app_sep (sep : ascii) (w s : string) :
  noSep sep w = true ->
  JS.split sep (w ++ String sep s) = w :: JS.split sep s.
Proof.
  induction w as [|c r IH]; simpl.
  - intros _. rewrite Ascii.eqb_refl. reflexivity.
  - intros Hw. apply andb_prop in Hw as [Hc Hr].
    apply negb_true_iff in Hc. rewrite Hc, (IH Hr). reflexivity.
Qed.

(** Splitting undoes joining, for words free of the separator. *)
Lemma split_join (sep : ascii) (ws : list string) :
  ws <> [] -> Forall (fun w => noSep sep w = true) ws ->
  JS.split sep (JS.join (String sep EmptyString) ws) = ws.
Proof.
  induction ws as [|w rest IH]; [congruence|].
  intros _ Hall. inversion Hall as [|? ? Hw Hrest]; subst.
  destruct rest as [|w2 rest'].
  - simpl. apply split_noSep, Hw.
  - change (JS.join (String sep EmptyString) (w :: w2 :: rest'))
      with (w ++ String sep (JS.join (String sep EmptyString) (w2 :: rest'))).
    rewrite split_app_sep by exact Hw.
    rewrite IH by (congruence || exact Hrest). reflexivity.
Qed.

Lemma capitalizeWord_cons (c : ascii) (r : string) :
  capitalizeWord (String c r) = String (JS.upper_ascii c) r.
Proof. reflexivity. Qed.

Lemma formatPartName_words (ws : list string) :
  Forall (fun w => noSep "-" w = true) ws ->
  formatPartName (JS.join "-" ws) = JS.join " " (map capitalizeWord ws).
Proof.
  intros Hall. destruct ws as [|w rest]; [reflexivity|].
  unfold formatPartName. rewrite split_join; [reflexivity|congruence|exact Hall].
Qed.

Lemma descriptionTable_truthy (k s : string) :
  descriptionTable !! k = Some s -> JS.truthy (Some s) = true.
Proof.
  unfold descriptionTable. intros Hl.
  apply elem_of_list_to_map_2 in Hl.
  repeat (apply elem_of_cons in Hl as [Hl|Hl];
          [injection Hl as -> ->; reflexivity|]).
  apply elem_of_nil in Hl. destruct Hl.
Qed.

(** What the panel body shows for a name, by where the lookup finds
    it: the registered text, the text of the inherited member of that
    name, or the fallback. *)
Lemma descriptionText_table `{Host} (k : string) :
  descriptionText descriptionTable k =
  match descriptionTable !! k with
  | Some s => s
  | None =>
      if JS.inheritedKey k then Object_prototype_text k else "Chair component"
  end.
Proof.
  unfold descriptionText, JS.obj_get.
  destruct (descriptionTable !! k) as [s|] eqn:E.
  - unfold JS.or_else. rewrite (descriptionTable_truthy k s E). reflexivity.
  - destruct (JS.inheritedKey k); reflexivity.
Qed.

Lemma showInteractionPanel_texts `{Host} (p : Page) (partName : string) :
  panelElements p ->
  partTitle (document (showInteractionPanel partName p)) =
    Some (formatPartName partName) /\
  partDescription (document (showInteractionPanel partName p)) =
    Some (descriptionText (partDescriptions (handler p)) partName).
Proof.
  intros (Hpanel & Htitle & Hdescr). unfold showInteractionPanel.
  destruct Hpanel as [panel ->], Htitle as [t ->], Hdescr as [d ->].
  split; reflexivity.
Qed.

(** C7: the panel title is the part name with every hyphen-separated
    word capitalised and the words joined by spaces
    ("back-right-leg" gives "Back Right Leg"), and the panel body is the
    description registered for the part. For a name with no registered
    description the body is "Chair component" unless the name is that
    of a member of [Object.prototype] ("constructor", "toString", ...):
    the lookup then finds the inherited member, and the body is its
    text, not the fallback. Title and body are set whatever the name
    is. *)
Theorem panel_title_and_body `{Host} :
  formatPartName "back-right-leg" = "Back Right Leg" /\
  (forall ws,
     Forall (fun w => noSep "-" w = true) ws ->
     Forall (fun w => JS.isAscii w = true) ws ->
     formatPartName (JS.join "-" ws) = JS.join " " (map capitalizeWord ws)) /\
  (forall c r,
     JS.isAscii (String c r) = true ->
     capitalizeWord (String c r) = String (JS.upper_ascii c) r) /\
  (forall (p : Page) (partName : string),
     panelElements p ->
     partDescriptions (handler p) = descriptionTable ->
     let p' := showInteractionPanel partName p in
     partTitle (document p') = Some (formatPartName partName) /\
     (forall descr, descriptionTable !! partName = Some descr ->
        partDescription (document p') = Some descr) /\
     (descriptionTable !! partName = None ->
      JS.inheritedKey partName = false ->
        partDescription (document p') = Some "Chair component") /\
     (descriptionTable !! partName = None ->
      JS.inheritedKey partName = true ->
        partDescription (document p') = Some (Object_prototype_text partName))).
Proof.
  split; [reflexivity|].
  split; [intros ws Hsep _; apply formatPartName_words, Hsep|].
  split; [intros c r _; apply capitalizeWord_cons|].
  intros p partName Hel Htable p'.
  destruct (showInteractionPanel_texts p partName Hel) as [Ht Hd].
  rewrite Htable, descriptionText_table in Hd.
  split; [exact Ht|]. subst p'. rewrite Hd.
  split; [intros descr ->; reflexivity|].
  split; intros -> ->; reflexivity.
Qed.

Lemma panel_title_and_body_witness :
  formatPartName (JS.join "-" ["front"; "left"; "leg"]) = "Front Left Leg" /\
  capitalizeWord "seat" = "Seat" /\
  partTitle (document (showInteractionPanel "back-right-leg" Demo.demoPage))
    = Some "Back Right Leg" /\
  partDescription (document (showInteractionPanel "seat" Demo.demoPage))
    = Some "The main seating surface - crafted from solid wood" /\
  partDescription (document (showInteractionPanel "cushion" Demo.demoPage))
    = Some "Chair component" /\
  partDescription (document (showInteractionPanel "constructor" Demo.demoPage))
    = Some "function Object() { [native code] }".
Proof.
  destruct (panel_title_and_body (H := Demo.demoHost))
    as (_ & Hwords & Hcap & Hpanel).
  split.
  { apply (Hwords ["front"; "left"; "leg"]); repeat constructor. }
  split.
  { apply (Hcap "s"%char "eat"). reflexivity. }
  assert (panelElements Demo.demoPage) as Hel
    by (repeat split; eexists; reflexivity).
  split.
  { apply (Hpanel Demo.demoPage "back-right-leg" Hel eq_refl). }
  split.
  { apply (Hpanel Demo.demoPage "seat" Hel eq_refl). reflexivity. }
  split.
  - apply (Hpanel Demo.demoPage "cushion" Hel eq_refl); reflexivity.
  - apply (Hpanel Demo.demoPage "constructor" Hel eq_refl); reflexivity.
Defined.

End PanelFacts.

(** ** Timers, clicks and pointer moves *)

Module ViewerFacts.
Import Three Product Viewer Spec.

Section WithHost.
Context `{Host}.

Local Abbreviation runCallbacks :=
  (fold_left (fun q tm => runCallback (callback tm) q)).

(** *** What a timer callback touches *)

Lemma panelVisible_hide (p : Page) :
  panelVisible (hideInteractionPanel p) = false.
Proof.
  unfold hideInteractionPanel, panelVisible.
  destruct (interactionPanel (document p)) eqn:E; simpl; [reflexivity|].
  rewrite E. reflexivity.
Qed.

Lemma hideInteractionPanel_frame (p : Page) :
  let p' := hideInteractionPanel p in
  chair p' = chair p /\ timers p' = timers p /\ handler p' = handler p /\
  clock p' = clock p /\ camera p' = camera p /\ canvas p' = canvas p /\
  audio p' = audio p /\ clickSounds p' = clickSounds p /\
  partTitle (document p') = partTitle (document p) /\
  partDescription (document p') = partDescription (document p) /\
  body_cursor (document p') = body_cursor (document p) /\
  (is_Some (interactionPanel (document p')) <->
   is_Some (interactionPanel (document p))).
Proof.
  unfold hideInteractionPanel.
  destruct (interactionPanel (document p)) eqn:E; simpl;
    rewrite ?E; repeat split; auto; intros _; eexists; reflexivity.
Qed.

Lemma untimed_eq (p q : Page) :
  untimed p = untimed q ->
  parts (chair p) = parts (chair q) /\
  hoveredPart (chair p) = hoveredPart (chair q) /\
  handler p = handler q /\ camera p = camera q /\ canvas p = canvas q /\
  audio p = audio q /\ clickSounds p = clickSounds q /\
  partTitle (document p) = partTitle (document q) /\
  partDescription (document p) = partDescription (document q) /\
  animationTime (chair p) = animationTime (chair q) /\
  group_y (chair p) = group_y (chair q) /\
  body_cursor (document p) = body_cursor (document q).
Proof.
  unfold untimed. intros E. injection E. intros. repeat split; assumption.
Qed.

Lemma runCallback_untimed (cb : Callback) (p : Page) :
  untimed (runCallback cb p) = untimed p /\
  timers (runCallback cb p) = timers p /\
  clock (runCallback cb p) = clock p /\
  (is_Some (interactionPanel (document (runCallback cb p))) <->
   is_Some (interactionPanel (document p))).
Proof.
  destruct cb; simpl.
  - repeat split; auto.
  - destruct (hideInteractionPanel_frame p)
      as (Hc & Ht & Hh & Hk & Hcam & Hcv & Ha & Hs & Hti & Hd & Hb & Hp).
    unfold untimed. rewrite Hc, Ht, Hh, Hk, Hcam, Hcv, Ha, Hs, Hti, Hd, Hb.
    repeat split; apply Hp.
Qed.

Lemma runCallbacks_untimed (l : list Timer) (p : Page) :
  untimed (runCallbacks l p) = untimed p /\
  timers (runCallbacks l p) = timers p /\
  clock (runCallbacks l p) = clock p /\
  (is_Some (interactionPanel (document (runCallbacks l p))) <->
   is_Some (interactionPanel (document p))).
Proof.
  revert p. induction l as [|tm l IH]; intros p; simpl.
  - repeat split; auto.
  - destruct (IH (runCallback (callback tm) p)) as (U & T & K & P).
    destruct (runCallback_untimed (callback tm) p) as (U' & T' & K' & P').
    rewrite U, T, K, P. auto.
Qed.

Lemma runCallbacks_clickedPart (l : list Timer) (p : Page) :
  clickedPart (chair (runCallbacks l p)) =
  if existsb (fun tm => callback_eqb (callback tm) ClearClickedPart) l
  then None else clickedPart (chair p).
Proof.
  revert p. induction l as [|tm l IH]; intros p; simpl; [reflexivity|].
  rewrite IH. destruct (callback tm); simpl.
  - destruct (existsb _ l); reflexivity.
  - destruct (hideInteractionPanel_frame p) as (-> & _). reflexivity.
Qed.

Lemma runCallbacks_panelVisible (l : list Timer) (p : Page) :
  panelVisible (runCallbacks l p) =
  if existsb (fun tm => callback_eqb (callback tm) HidePanel) l
  then false else panelVisible p.
Proof.
  revert p. induction l as [|tm l IH]; intros p; simpl; [reflexivity|].
  rewrite IH. destruct (callback tm); simpl.
  - reflexivity.
  - rewrite panelVisible_hide. destruct (existsb _ l); reflexivity.
Qed.

(** *** The page as time passes *)

Lemma existsb_same_elements {A} (f : A -> bool) (l1 l2 : list A) :
  (forall x, In x l1 <-> In x l2) -> existsb f l1 = existsb f l2.
Proof.
  intros Hin. apply eq_true_iff_eq.
  rewrite !existsb_exists. split; intros (x & Hx & Hf); exists x;
    (split; [apply Hin; exact Hx|exact Hf]).
Qed.

Lemma existsb_filter {A} (f g : A -> bool) (l : list A) :
  existsb f (List.filter g l) = existsb (fun x => (g x && f x)%bool) l.
Proof.
  induction l as [|x l IH]; simpl; [reflexivity|].
  destruct (g x); simpl; rewrite IH; reflexivity.
Qed.

Lemma callback_eqb_eq (a b : Callback) : callback_eqb a b = true <-> a = b.
Proof. destruct a, b; simpl; split; congruence. Qed.

Lemma dueBy_true_iff (cb : Callback) (u : Z) (l : list Timer) :
  dueBy cb u l = true <->
  exists tm, In tm l /\ callback tm = cb /\ (due tm <= u)%Z.
Proof.
  unfold dueBy. rewrite existsb_exists. split.
  - intros (tm & Hin & Hb). apply andb_prop in Hb as [Hd Hc].
    exists tm. repeat split; [exact Hin|apply callback_eqb_eq, Hc|lia].
  - intros (tm & Hin & Hc & Hd). exists tm. split; [exact Hin|].
    apply andb_true_intro. split; [lia|apply callback_eqb_eq, Hc].
Qed.

Lemma dueBy_false_iff (cb : Callback) (u : Z) (l : list Timer) :
  dueBy cb u l = false <->
  forall tm, In tm l -> callback tm = cb -> (u < due tm)%Z.
Proof.
  split.
  - intros Hf tm Hin Hc. destruct (Z_lt_le_dec u (due tm)) as [|Hle]; [assumption|].
    assert (dueBy cb u l = true) as Ht
      by (apply dueBy_true_iff; exists tm; auto).
    congruence.
  - intros Hall. destruct (dueBy cb u l) eqn:E; [|reflexivity].
    apply dueBy_true_iff in E as (tm & Hin & Hc & Hd).
    specialize (Hall tm Hin Hc). lia.
Qed.

Lemma advance_timers (u : Z) (p : Page) :
  timers (advance u p) =
  List.filter (fun tm => negb (due tm <=? u)%Z) (timers p).
Proof.
  unfold advance, fireTimers. simpl.
  destruct (runCallbacks_untimed
              (Sorting.sort_by due_leb
                 (List.filter (fun tm => (due tm <=? u)%Z) (timers p)))
              (with_timers
                 (List.filter (fun tm => negb (due tm <=? u)%Z) (timers p)) p))
    as (_ & -> & _). reflexivity.
Qed.

Lemma advance_untimed (u : Z) (p : Page) :
  untimed (advance u p) = untimed p /\ clock (advance u p) = u /\
  (is_Some (interactionPanel (document (advance u p))) <->
   is_Some (interactionPanel (document p))).
Proof.
  unfold advance, fireTimers.
  match goal with
  | |- context [fold_left ?f ?l ?q] =>
      destruct (runCallbacks_untimed l q) as (U & _ & _ & P)
  end.
  split; [|split; [reflexivity|exact P]].
  exact U.
Qed.

Lemma dueNow_callbacks (cb : Callback) (u : Z) (l : list Timer) :
  existsb (fun tm => callback_eqb (callback tm) cb)
    (Sorting.sort_by due_leb (List.filter (fun tm => (due tm <=? u)%Z) l)) =
  dueBy cb u l.
Proof.
  rewrite (existsb_same_elements _ _
             (List.filter (fun tm => (due tm <=? u)%Z) l))
    by (intros x; apply SortingFacts.sort_by_In).
  rewrite existsb_filter. reflexivity.
Qed.

(** The selection at time [u]: cleared when a deselect timer was due,
    untouched otherwise. *)
Lemma advance_clickedPart (u : Z) (p : Page) :
  clickedPart (chair (advance u p)) =
  if dueBy ClearClickedPart u (timers p) then None
  else clickedPart (chair p).
Proof.
  unfold advance, fireTimers. simpl.
  rewrite runCallbacks_clickedPart, dueNow_callbacks. reflexivity.
Qed.

(** The panel at time [u]: hidden when a hide timer was due, untouched
    otherwise. *)
Lemma advance_panelVisible (u : Z) (p : Page) :
  panelVisible (advance u p) =
  if dueBy HidePanel u (timers p) then false else panelVisible p.
Proof.
  unfold advance, fireTimers.
  change (panelVisible (with_clock u ?q)) with (panelVisible q).
  rewrite runCallbacks_panelVisible, dueNow_callbacks. reflexivity.
Qed.

Lemma advance_panelElements (u : Z) (p : Page) :
  panelElements p -> panelElements (advance u p).
Proof.
  unfold panelElements. intros (Hp & Ht & Hd).
  destruct (advance_untimed u p) as (U & _ & P).
  apply untimed_eq in U as (_ & _ & _ & _ & _ & _ & _ & Eti & Ed & _).
  rewrite Eti, Ed. split; [apply P; exact Hp|]. split; assumption.
Qed.

(** *** Clicks *)

Lemma handleClick_ignored (e : MouseEvent) (p : Page) :
  (clock p - lastClickTime (handler p) < clickDelay (handler p))%Z ->
  handleClick e p = p.
Proof.
  intros Hlt. unfold handleClick.
  destruct (Z.ltb_spec (clock p - lastClickTime (handler p))
              (clickDelay (handler p))); [reflexivity|lia].
Qed.

Ltac split_page :=
  unfold clickOnPart, setClickedPart;
  match goal with
  | |- context [JS.truthy ?v] => destruct (JS.truthy v) eqn:?
  | _ => idtac
  end;
  unfold playClickSound, showInteractionPanel;
  repeat (simpl;
          match goal with
          | |- context [match interactionPanel ?d with _ => _ end] =>
              destruct (interactionPanel d) eqn:?
          | |- context [match partTitle ?d with _ => _ end] =>
              destruct (partTitle d) eqn:?
          | |- context [match partDescription ?d with _ => _ end] =>
              destruct (partDescription d) eqn:?
          | |- context [if audio ?q then _ else _] => destruct (audio q) eqn:?
          | |- context [if JS.truthy ?v then _ else _] =>
              destruct (JS.truthy v) eqn:?
          end).

Lemma handleClick_hit (e : MouseEvent) (p : Page) (m : Mesh) :
  (clickDelay (handler p) <= clock p - lastClickTime (handler p))%Z ->
  hitTest e p = Some m ->
  handleClick e p = clickOnPart (name (userData m)) e p.
Proof.
  intros Hacc Hhit. unfold handleClick.
  destruct (Z.ltb_spec (clock p - lastClickTime (handler p))
              (clickDelay (handler p))); [lia|].
  change (getIntersectedObject
            (updateMousePosition e (set_lastClickTime (clock p) p)))
    with (hitTest e p).
  rewrite Hhit. reflexivity.
Qed.

Lemma handleClick_miss (e : MouseEvent) (p : Page) :
  (clickDelay (handler p) <= clock p - lastClickTime (handler p))%Z ->
  hitTest e p = None ->
  handleClick e p =
  hideInteractionPanel (updateMousePosition e (set_lastClickTime (clock p) p)).
Proof.
  intros Hacc Hhit. unfold handleClick.
  destruct (Z.ltb_spec (clock p - lastClickTime (handler p))
              (clickDelay (handler p))); [lia|].
  change (getIntersectedObject
            (updateMousePosition e (set_lastClickTime (clock p) p)))
    with (hitTest e p).
  rewrite Hhit. reflexivity.
Qed.

Lemma clickOnPart_frame (nm : string) (e : MouseEvent) (p : Page) :
  let p' := clickOnPart nm e p in
  parts (chair p') = parts (chair p) /\
  hoveredPart (chair p') = hoveredPart (chair p) /\
  clickedPart (chair p') = Some nm /\
  clock p' = clock p /\
  lastClickTime (handler p') = clock p /\
  clickDelay (handler p') = clickDelay (handler p) /\
  partDescriptions (handler p') = partDescriptions (handler p).
Proof. split_page; repeat split; reflexivity. Qed.

(** The timers pending after an accepted click on a part: those that
    were, a deselect in 500ms when the name is not empty, and a hide in
    5000ms when the panel is in the document. None is taken off. *)
Lemma clickOnPart_timers_keep (nm : string) (e : MouseEvent) (p : Page)
    (tm : Timer) :
  In tm (timers p) -> In tm (timers (clickOnPart nm e p)).
Proof.
  intros Hin. split_page; simpl; rewrite ?in_app_iff; auto.
Qed.

Lemma clickOnPart_timers_deselect (nm : string) (e : MouseEvent) (p : Page) :
  JS.truthy (Some nm) = true ->
  In (mkTimer (clock p + 500) ClearClickedPart) (timers (clickOnPart nm e p)).
Proof.
  intros Htr. split_page; simpl; rewrite ?in_app_iff; simpl; auto; congruence.
Qed.

Lemma clickOnPart_timers_hide (nm : string) (e : MouseEvent) (p : Page) :
  panelElements p ->
  In (mkTimer (clock p + 5000) HidePanel) (timers (clickOnPart nm e p)).
Proof.
  unfold panelElements. intros ([? Hp] & [? Ht] & [? Hd]).
  split_page; simpl; rewrite ?in_app_iff; simpl; auto; congruence.
Qed.

Lemma clickOnPart_timers_inv (nm : string) (e : MouseEvent) (p : Page)
    (tm : Timer) :
  In tm (timers (clickOnPart nm e p)) ->
  In tm (timers p) \/
  tm = mkTimer (clock p + 500) ClearClickedPart \/
  tm = mkTimer (clock p + 5000) HidePanel.
Proof.
  split_page; simpl; rewrite ?in_app_iff; simpl; intuition auto.
Qed.

Lemma clickOnPart_panelVisible (nm : string) (e : MouseEvent) (p : Page) :
  panelElements p -> panelVisible (clickOnPart nm e p) = true.
Proof.
  unfold panelElements. intros ([? Hp] & [? Ht] & [? Hd]).
  unfold clickOnPart, setClickedPart.
  destruct (JS.truthy (Some nm));
    unfold playClickSound, showInteractionPanel; simpl;
    rewrite Hp, Ht, Hd; simpl;
    match goal with
    | |- context [if audio ?q then _ else _] => destruct (audio q)
    end; reflexivity.
Qed.

(** A click is ignored, or lands on a part, or lands on nothing. *)
Lemma handleClick_cases (e : MouseEvent) (p : Page) :
  ((clock p - lastClickTime (handler p) < clickDelay (handler p))%Z /\
   handleClick e p = p) \/
  (exists m, hitTest e p = Some m /\
             handleClick e p = clickOnPart (name (userData m)) e p) \/
  (hitTest e p = None /\
   handleClick e p =
   hideInteractionPanel
     (updateMousePosition e (set_lastClickTime (clock p) p))).
Proof.
  destruct (Z_lt_le_dec (clock p - lastClickTime (handler p))
              (clickDelay (handler p))) as [Hlt|Hle].
  - left. split; [exact Hlt|apply handleClick_ignored, Hlt].
  - right. destruct (hitTest e p) as [m|] eqn:Hhit.
    + left. exists m. split; [reflexivity|].
      apply handleClick_hit; assumption.
    + right. split; [reflexivity|]. apply handleClick_miss; assumption.
Qed.

Lemma handleClick_handler (e : MouseEvent) (p : Page) :
  clickDelay (handler (handleClick e p)) = clickDelay (handler p) /\
  partDescriptions (handler (handleClick e p)) = partDescriptions (handler p).
Proof.
  destruct (handleClick_cases e p) as [[_ ->]|[(m & _ & ->)|[_ ->]]].
  - split; reflexivity.
  - destruct (clickOnPart_frame (name (userData m)) e p)
      as (_ & _ & _ & _ & _ & Hd & Ht). split; assumption.
  - destruct (hideInteractionPanel_frame
                (updateMousePosition e (set_lastClickTime (clock p) p)))
      as (_ & _ & -> & _). split; reflexivity.
Qed.

Lemma handleClick_hoveredPart (e : MouseEvent) (p : Page) :
  hoveredPart (chair (handleClick e p)) = hoveredPart (chair p).
Proof.
  destruct (handleClick_cases e p) as [[_ ->]|[(m & _ & ->)|[_ ->]]].
  - reflexivity.
  - apply clickOnPart_frame.
  - destruct (hideInteractionPanel_frame
                (updateMousePosition e (set_lastClickTime (clock p) p)))
      as (-> & _). reflexivity.
Qed.

Lemma setClickedPart_hoveredPart (v : option string) (p : Page) :
  hoveredPart (chair (setClickedPart v p)) = hoveredPart (chair p).
Proof. unfold setClickedPart. destruct (JS.truthy v); reflexivity. Qed.

Lemma advance_hoveredPart (u : Z) (p : Page) :
  hoveredPart (chair (advance u p)) = hoveredPart (chair p).
Proof.
  destruct (advance_untimed u p) as (U & _). apply untimed_eq in U.
  apply U.
Qed.

Lemma advance_handler (u : Z) (p : Page) : handler (advance u p) = handler p.
Proof.
  destruct (advance_untimed u p) as (U & _). apply untimed_eq in U.
  apply U.
Qed.

Lemma dispatch_handler (ev : Event) (p : Page) :
  clickDelay (handler (dispatch ev p)) = clickDelay (handler p) /\
  partDescriptions (handler (dispatch ev p)) = partDescriptions (handler p).
Proof.
  destruct ev as [e|e|pose|v]; simpl.
  - unfold handleMouseMove.
    destruct (getIntersectedObject (updateMousePosition e p));
      split; reflexivity.
  - apply handleClick_handler.
  - split; reflexivity.
  - unfold setClickedPart. destruct (JS.truthy v); split; reflexivity.
Qed.

Lemma run_handler (trace : list (Z * Event)) (p : Page) :
  clickDelay (handler (run p trace)) = clickDelay (handler p) /\
  partDescriptions (handler (run p trace)) = partDescriptions (handler p).
Proof.
  revert p. induction trace as [|[t ev] trace IH]; intros p; simpl.
  - split; reflexivity.
  - destruct (IH (step p (t, ev))) as [-> ->]. unfold step. simpl.
    destruct (dispatch_handler ev (advance t p)) as [-> ->].
    rewrite advance_handler. split; reflexivity.
Qed.

(** C2: on the page as [init] leaves it and after any events, a click
    less than 200ms after the last accepted click is ignored entirely:
    the page is the one it would be had the click not occurred, so the
    selection, the hovered part, the panel, the pending timers, the
    sounds played and the time of the last accepted click are
    unchanged. Any other click is accepted and its time recorded. *)
Theorem click_debounce (t0 : Z) (cam : Camera) (cv : Canvas) (d : Document)
    (audioOk : bool) (trace : list (Z * Event)) (t : Z) (e : MouseEvent) :
  let p := run (initPage t0 cam cv d audioOk) trace in
  ((t - lastClickTime (handler p) < 200)%Z ->
     step p (t, Click e) = advance t p) /\
  ((200 <= t - lastClickTime (handler p))%Z ->
     lastClickTime (handler (step p (t, Click e))) = t).
Proof.
  intros p.
  assert (clickDelay (handler p) = 200%Z) as Hdelay
    by (subst p; rewrite (proj1 (run_handler _ _)); reflexivity).
  assert (clock (advance t p) = t) as Hclock by apply advance_untimed.
  unfold step. simpl. split; intros Ht.
  - apply handleClick_ignored.
    rewrite advance_handler, Hclock, Hdelay. exact Ht.
  - destruct (handleClick_cases e (advance t p))
      as [[Hlt _]|[(m & _ & ->)|[_ ->]]].
    + rewrite advance_handler, Hclock, Hdelay in Hlt. lia.
    + destruct (clickOnPart_frame (name (userData m)) e (advance t p))
        as (_ & _ & _ & _ & -> & _). exact Hclock.
    + destruct (hideInteractionPanel_frame
                  (updateMousePosition e
                     (set_lastClickTime (clock (advance t p)) (advance t p))))
        as (_ & _ & -> & _). exact Hclock.
Qed.

(** C9: an accepted click that lands on no part hides the panel and
    changes neither the selected nor the hovered part; the chair, the
    pending timers, the sounds, the canvas and the panel's texts are
    as they were. *)
Theorem empty_click_hides_panel_only (e : MouseEvent) (p : Page) :
  (clickDelay (handler p) <= clock p - lastClickTime (handler p))%Z ->
  hitTest e p = None ->
  let p' := handleClick e p in
  panelVisible p' = false /\
  (forall panel, interactionPanel (document p') = Some panel ->
     display panel = "none" /\ ~ In "panel-show" (classList panel)) /\
  clickedPart (chair p') = clickedPart (chair p) /\
  hoveredPart (chair p') = hoveredPart (chair p) /\
  chair p' = chair p /\
  timers p' = timers p /\
  clickSounds p' = clickSounds p /\
  canvas p' = canvas p /\
  partTitle (document p') = partTitle (document p) /\
  partDescription (document p') = partDescription (document p).
Proof.
  intros Hacc Hhit p'. subst p'. rewrite (handleClick_miss e p Hacc Hhit).
  set (q := updateMousePosition e (set_lastClickTime (clock p) p)).
  destruct (hideInteractionPanel_frame q)
    as (Hc & Ht & _ & _ & _ & Hcv & _ & Hs & Hti & Hd & _).
  split; [apply panelVisible_hide|].
  split.
  { unfold hideInteractionPanel.
    destruct (interactionPanel (document q)) as [pan|] eqn:E; simpl.
    - intros panel [= <-]. simpl. split; [reflexivity|].
      unfold JS.classList_remove. rewrite filter_In.
      intros [_ Hneq]. rewrite String.eqb_refl in Hneq. discriminate.
    - intros panel Hp. unfold q in E. simpl in E. congruence. }
  rewrite Hc, Ht, Hs, Hcv, Hti, Hd. repeat split; reflexivity.
Qed.

(** C10: the hovered part changes on pointer moves only. Over any
    events without a pointer move (clicks, frames, highlights), and
    however much time passes and whichever timers run, it stays what
    it was. *)
Theorem hover_changes_on_move_only (trace : list (Z * Event)) (p : Page)
    (u : Z) :
  Forall (fun tev => isMouseMove tev = false) trace ->
  hoveredPart (chair (advance u (run p trace))) = hoveredPart (chair p).
Proof.
  intros Hall. rewrite advance_hoveredPart. revert p.
  induction Hall as [|[t ev] trace Hev _ IH]; intros p; [reflexivity|].
  cbn [run fold_left]. fold (run (step p (t, ev)) trace). rewrite IH.
  unfold step. cbn [fst snd].
  transitivity (hoveredPart (chair (advance t p)));
    [|apply advance_hoveredPart].
  destruct ev as [e|e|pose|v]; cbn [dispatch].
  - discriminate Hev.
  - apply handleClick_hoveredPart.
  - reflexivity.
  - apply setClickedPart_hoveredPart.
Qed.

(** *** The hit test and hovering *)

Lemma ascSort_total (a b : Intersection) :
  ascSort a b = true \/ ascSort b a = true.
Proof.
  unfold ascSort. rewrite !Qle_bool_iff.
  destruct (Qlt_le_dec (distance b) (distance a)) as [Hlt|Hle];
    [right; apply Qlt_le_weak, Hlt|left; exact Hle].
Qed.

Lemma ascSort_trans (a b c : Intersection) :
  ascSort a b = true -> ascSort b c = true -> ascSort a c = true.
Proof. unfold ascSort. rewrite !Qle_bool_iff. apply Qle_trans. Qed.

(** The head of the sorted intersections is the nearest part met. *)
Lemma getIntersectedObject_nearest (p : Page) :
  isNearest
    (raycastMesh (setFromCamera (mouse (handler p)) (camera p))
       (group_y (chair p)))
    (getAllParts (chair p)) (getIntersectedObject p).
Proof.
  unfold getIntersectedObject, intersectObjects.
  set (raycast := raycastMesh _ _).
  set (objs := getAllParts (chair p)).
  set (all := flat_map _ objs).
  destruct (Sorting.sort_by ascSort all) as [|i rest] eqn:E; simpl.
  - apply SortingFacts.sort_by_nil in E. intros o Ho.
    destruct (raycast o) as [|d ds] eqn:Er; [reflexivity|].
    assert (In (mkIntersection d o) all) as Hin.
    { apply in_flat_map. exists o. split; [exact Ho|].
      rewrite Er. left. reflexivity. }
    rewrite E in Hin. destruct Hin.
  - assert (In i all) as Hi.
    { apply (SortingFacts.sort_by_In ascSort). rewrite E. left. reflexivity. }
    apply in_flat_map in Hi as (o & Ho & Hi).
    apply in_map_iff in Hi as (d & <- & Hd). simpl.
    split; [exact Ho|]. exists d. split; [exact Hd|].
    intros o' d' Ho' Hd'.
    assert (In (mkIntersection d' o') all) as Hin.
    { apply in_flat_map. exists o'. split; [exact Ho'|].
      apply in_map_iff. exists d'. split; [reflexivity|exact Hd']. }
    pose proof (SortingFacts.sort_by_head_least ascSort ascSort_total
                  ascSort_trans all _ _ E _ Hin) as Hle.
    apply Qle_bool_iff in Hle. exact Hle.
Qed.

Lemma handleMouseMove_hoveredPart (e : MouseEvent) (p : Page) :
  hoveredPart (chair (handleMouseMove e p)) =
  (fun m => name (userData m)) <$> hitTest e p.
Proof.
  unfold handleMouseMove, hitTest.
  destruct (getIntersectedObject (updateMousePosition e p)); reflexivity.
Qed.

Lemma run_snoc (p : Page) (trace : list (Z * Event)) (tev : Z * Event) :
  run p (trace ++ [tev]) = step (run p trace) tev.
Proof. unfold run. rewrite fold_left_app. reflexivity. Qed.

(** The hit test reads the scene and the event, and nothing else of
    the page. *)
Lemma hitTest_scene (e : MouseEvent) (q q' : Page) :
  scene q' = scene q -> hitTest e q' = hitTest e q.
Proof.
  unfold scene. intros [= Hcam Hrect Hparts Hy].
  unfold hitTest, getIntersectedObject, getAllParts, updateMousePosition.
  cbn [handler mouse camera chair canvas with_handler].
  rewrite Hcam, Hrect, Hparts, Hy. reflexivity.
Qed.

Lemma handleMouseMove_scene (e : MouseEvent) (p : Page) :
  scene (handleMouseMove e p) = scene p.
Proof.
  unfold handleMouseMove.
  destruct (getIntersectedObject (updateMousePosition e p)); reflexivity.
Qed.

Lemma advance_scene (u : Z) (p : Page) : scene (advance u p) = scene p.
Proof.
  destruct (advance_untimed u p) as (U & _). apply untimed_eq in U.
  destruct U as (Hparts & _ & _ & Hcam & Hcv & _ & _ & _ & _ & _ & Hy & _).
  unfold scene. rewrite Hparts, Hcam, Hcv, Hy. reflexivity.
Qed.

(** Pointer moves leave the scene as it is. *)
Lemma run_moves_scene (trace : list (Z * Event)) (p : Page) :
  Forall (fun tev => isMouseMove tev = true) trace ->
  scene (run p trace) = scene p.
Proof.
  intros Hall. revert p.
  induction Hall as [|[t ev] trace Hev _ IH]; intros p; [reflexivity|].
  cbn [run fold_left]. fold (run (step p (t, ev)) trace). rewrite IH.
  unfold step. cbn [fst snd].
  destruct ev as [e|e|pose|v]; try discriminate Hev. cbn [dispatch].
  rewrite handleMouseMove_scene. apply advance_scene.
Qed.

(** C5: after any pointer moves (and other events), the hovered part
    is the result of the hit test on the coordinates of the last move
    alone: it is the name of a part the ray through the pointer sample
    of that move meets at the least distance, and nothing when the ray
    meets no part, in particular when there are no parts. Nothing of
    the page but the scene (camera, canvas rectangle, parts) has a say:
    any page with the same scene gives the same hovered part on that
    move, and after a series of moves alone the hovered part is what
    the last move gives on the page the series started from. *)
Theorem hover_is_latest_hit_test (p : Page) (trace : list (Z * Event))
    (t : Z) (e : MouseEvent) :
  let q := advance t (run p trace) in
  let ray := setFromCamera (pointerSample (rect (canvas q)) e) (camera q) in
  let hovered := hoveredPart (chair (run p (trace ++ [(t, MouseMove e)]))) in
  (exists r,
     hovered = (fun m => name (userData m)) <$> r /\
     isNearest (raycastMesh ray (group_y (chair q))) (getAllParts (chair q)) r) /\
  (getAllParts (chair q) = [] -> hovered = None) /\
  (forall q', scene q' = scene q ->
     hoveredPart (chair (handleMouseMove e q')) = hovered) /\
  (Forall (fun tev => isMouseMove tev = true) trace ->
     hovered = hoveredPart (chair (handleMouseMove e p))).
Proof.
  intros q ray hovered.
  pose proof (getIntersectedObject_nearest (updateMousePosition e q)) as Hn.
  change (getIntersectedObject (updateMousePosition e q))
    with (hitTest e q) in Hn.
  change (isNearest (raycastMesh ray (group_y (chair q)))
            (getAllParts (chair q)) (hitTest e q)) in Hn.
  assert (hovered = (fun m => name (userData m)) <$> hitTest e q) as Hhov.
  { subst hovered. rewrite run_snoc. unfold step. cbn [fst snd dispatch].
    apply handleMouseMove_hoveredPart. }
  split; [exists (hitTest e q); split; [exact Hhov|exact Hn]|].
  split; [|split].
  - intros Hempty. rewrite Hhov.
    destruct (hitTest e q) as [m|]; [|reflexivity].
    destruct Hn as [Hin _]. rewrite Hempty in Hin. destruct Hin.
  - intros q' Hscene.
    rewrite handleMouseMove_hoveredPart, (hitTest_scene e q q' Hscene).
    symmetry. exact Hhov.
  - intros Hmoves.
    rewrite handleMouseMove_hoveredPart, Hhov. f_equal.
    apply hitTest_scene. subst q.
    rewrite advance_scene. apply run_moves_scene, Hmoves.
Qed.

End WithHost.

Import Demo.

Lemma click_debounce_witness :
  step (run demoPage [(1000, Click atSeat)]) (1100, Click atBackrest) =
    advance 1100 (run demoPage [(1000, Click atSeat)]) /\
  lastClickTime
    (handler (step (run demoPage [(1000, Click atSeat)]) (1200, Click atBackrest)))
    = 1200%Z.
Proof.
  split.
  - apply (proj1 (click_debounce (H := demoHost) 1000 tt demoCanvas demoDocument true
                    [(1000, Click atSeat)] 1100 atBackrest)).
    vm_compute. reflexivity.
  - apply (proj2 (click_debounce (H := demoHost) 1000 tt demoCanvas demoDocument true
                    [(1000, Click atSeat)] 1200 atBackrest)).
    vm_compute. discriminate.
Defined.

Lemma empty_click_hides_panel_only_witness :
  let p := advance 1300 (run demoPage [(1000, Click atSeat)]) in
  panelVisible p = true /\
  panelVisible (handleClick atNothing p) = false /\
  chair (handleClick atNothing p) = chair p.
Proof.
  intros p.
  assert (clickDelay (handler p) <= clock p - lastClickTime (handler p))%Z
    as Hacc by (vm_compute; discriminate).
  assert (hitTest atNothing p = None) as Hhit by (vm_compute; reflexivity).
  destruct (empty_click_hides_panel_only atNothing p Hacc Hhit)
    as (Hhid & _ & _ & _ & Hch & _).
  split; [vm_compute; reflexivity|]. split; [exact Hhid|exact Hch].
Defined.

Lemma hover_changes_on_move_only_witness :
  hoveredPart
    (chair (advance 9000
              (run (run demoPage [(1000, MouseMove atSeat)])
                 [(1100, Click atSeat); (1200, AnimationFrame tt);
                  (1400, Click atNothing); (1500, HighlightPart (Some "backrest"))])))
  = Some "seat".
Proof.
  rewrite hover_changes_on_move_only.
  - vm_compute. reflexivity.
  - repeat constructor.
Defined.

(** A page whose chair has no parts, and two moves on the page as
    loaded. *)
Lemma hover_is_latest_hit_test_witness :
  let bare :=
    with_chair (mkChair [] (Some "seat") None 0 1) demoPage in
  hoveredPart (chair (run bare [(1000, MouseMove atSeat)])) = None /\
  hoveredPart (chair (run demoPage [(1000, MouseMove atBackrest);
                                    (1016, MouseMove atBoth)]))
  = Some "seat".
Proof.
  intros bare. split.
  - destruct (hover_is_latest_hit_test bare [] 1000 atSeat)
      as (_ & Hempty & _).
    apply Hempty. reflexivity.
  - destruct (hover_is_latest_hit_test demoPage
                [(1000, MouseMove atBackrest)] 1016 atBoth)
      as (_ & _ & _ & Hmoves).
    etransitivity; [apply Hmoves; repeat constructor|].
    vm_compute. reflexivity.
Defined.

End ViewerFacts.

(** ** Timers that are never cancelled *)

Module TimerFacts.
Import Three Product Viewer Spec ViewerFacts.

Section WithHost.
Context `{Host}.

Lemma step_click_on_part (p : Page) (t : Z) (e : MouseEvent) (m : Mesh) :
  accepted t p ->
  hitTest e (advance t p) = Some m ->
  step p (t, Click e) = clickOnPart (name (userData m)) e (advance t p) /\
  clock (advance t p) = t.
Proof.
  intros Hacc Hhit.
  assert (clock (advance t p) = t) as Hclock by apply advance_untimed.
  split; [|exact Hclock].
  unfold step. cbn [fst snd dispatch]. apply handleClick_hit; [|exact Hhit].
  rewrite advance_handler, Hclock. exact Hacc.
Qed.

Lemma advance_timers_In (u : Z) (p : Page) (tm : Timer) :
  In tm (timers (advance u p)) <-> In tm (timers p) /\ (u < due tm)%Z.
Proof.
  rewrite advance_timers, filter_In.
  destruct (Z.leb_spec (due tm) u); simpl; intuition (lia || congruence).
Qed.

Lemma showInteractionPanel_keeps_timers (nm : string) (p : Page) (tm : Timer) :
  In tm (timers p) -> In tm (timers (showInteractionPanel nm p)).
Proof.
  intros Hin. unfold showInteractionPanel.
  destruct (interactionPanel (document p)); [|exact Hin].
  destruct (partTitle (document p)); [|exact Hin].
  destruct (partDescription (document p)); [|exact Hin].
  simpl. apply in_app_iff. left. exact Hin.
Qed.

(** C1, as the code has it: an accepted click on a part selects it and
    sets one more deselect timer, 500ms ahead; the timers set before
    stay pending, and a deselect timer that runs clears whatever is
    selected. After a
    click on part A at [t] and an accepted click on part B at
    [t + 300] (no older deselect timer being due later than that), the
    selection is B until A's timer runs at [t + 500], and none from
    then on, B's own timer at [t + 800] still pending. *)
Theorem reclick_selection_until_first_timer :
  (forall (p : Page) (u : Z),
      dueBy ClearClickedPart u (timers p) = true ->
      clickedPart (chair (advance u p)) = None) /\
  (forall (p : Page) (t : Z) (eA eB : MouseEvent) (mA mB : Mesh),
      clickDelay (handler p) = 200%Z ->
      accepted t p ->
      (forall tm, In tm (timers p) -> callback tm = ClearClickedPart ->
                  (due tm <= t + 300)%Z) ->
      hitTest eA (advance t p) = Some mA ->
      JS.truthy (Some (name (userData mA))) = true ->
      let p1 := step p (t, Click eA) in
      hitTest eB (advance (t + 300) p1) = Some mB ->
      JS.truthy (Some (name (userData mB))) = true ->
      let p2 := step p1 ((t + 300)%Z, Click eB) in
      clickedPart (chair p2) = Some (name (userData mB)) /\
      In (mkTimer (t + 500) ClearClickedPart) (timers p2) /\
      In (mkTimer (t + 800) ClearClickedPart) (timers p2) /\
      (forall u, (t + 300 <= u < t + 500)%Z ->
         clickedPart (chair (advance u p2)) = Some (name (userData mB))) /\
      (forall u, (t + 500 <= u)%Z ->
         clickedPart (chair (advance u p2)) = None)).
Proof.
  split.
  { intros p u Hdue. rewrite advance_clickedPart, Hdue. reflexivity. }
  intros p t eA eB mA mB Hdelay Hacc Hold HhitA HtrA p1 HhitB HtrB p2.
  destruct (step_click_on_part p t eA mA Hacc HhitA) as [E1 Hc0].
  fold p1 in E1.
  destruct (clickOnPart_frame (name (userData mA)) eA (advance t p))
    as (_ & _ & _ & Hc1 & Hl1 & Hd1 & _).
  cbv zeta in Hc1, Hl1, Hd1. rewrite <- E1 in Hc1, Hl1, Hd1.
  rewrite Hc0 in Hc1, Hl1. rewrite advance_handler, Hdelay in Hd1.
  assert (accepted (t + 300) p1) as Hacc1
    by (unfold accepted; rewrite Hd1, Hl1; lia).
  destruct (step_click_on_part p1 (t + 300) eB mB Hacc1 HhitB) as [E2 Hc2].
  fold p2 in E2.
  assert (In (mkTimer (t + 500) ClearClickedPart) (timers p1)) as HinA.
  { rewrite E1, <- Hc0 at 1.
    apply clickOnPart_timers_deselect, HtrA. }
  assert (In (mkTimer (t + 500) ClearClickedPart) (timers p2)) as HinA2.
  { rewrite E2. apply clickOnPart_timers_keep.
    apply advance_timers_In. split; [exact HinA|simpl; lia]. }
  assert (In (mkTimer (t + 800) ClearClickedPart) (timers p2)) as HinB2.
  { rewrite E2. replace (t + 800)%Z with (clock (advance (t + 300) p1) + 500)%Z
      by (rewrite Hc2; lia).
    apply clickOnPart_timers_deselect, HtrB. }
  assert (clickedPart (chair p2) = Some (name (userData mB))) as Hsel
    by (rewrite E2; apply clickOnPart_frame).
  split; [exact Hsel|]. split; [exact HinA2|]. split; [exact HinB2|].
  split; intros u Hu; rewrite advance_clickedPart.
  - replace (dueBy ClearClickedPart u (timers p2)) with false; [exact Hsel|].
    symmetry. apply dueBy_false_iff. intros tm Hin Hcb.
    rewrite E2 in Hin. apply clickOnPart_timers_inv in Hin.
    rewrite Hc2 in Hin. destruct Hin as [Hin|[->| ->]];
      [|simpl; lia|discriminate Hcb].
    apply advance_timers_In in Hin as [Hin Hlater].
    rewrite E1 in Hin. apply clickOnPart_timers_inv in Hin.
    rewrite Hc0 in Hin. destruct Hin as [Hin|[->| ->]];
      [|simpl; lia|discriminate Hcb].
    apply advance_timers_In in Hin as [Hin _].
    specialize (Hold tm Hin Hcb). lia.
  - replace (dueBy ClearClickedPart u (timers p2)) with true; [reflexivity|].
    symmetry. apply dueBy_true_iff.
    exists (mkTimer (t + 500) ClearClickedPart).
    split; [exact HinA2|]. split; [reflexivity|exact Hu].
Qed.

(** The parts after a frame at time [u]: each as [updatePart] styles
    it from the state the timers leave. *)
Lemma frame_parts (p : Page) (u : Z) (pose : Camera) (k : string)
    (part : Mesh) :
  let r := advance u p in
  In (k, part) (parts (chair (step p (u, AnimationFrame pose)))) ->
  exists part0,
    In (k, part0) (parts (chair p)) /\
    part = updatePart (hoveredPart (chair p)) (clickedPart (chair r)) part0.
Proof.
  intros r. unfold step. cbn [fst snd dispatch]. fold r.
  change (chair (with_chair (update (chair r)) (with_camera pose r)))
    with (update (chair r)).
  rewrite ProductFacts.update_parts. intros Hin.
  apply in_map_iff in Hin as ([k0 part0] & [= <- <-] & Hin).
  exists part0.
  destruct (advance_untimed u p) as (U & _). apply untimed_eq in U.
  destruct U as (Hparts & Hhov & _). fold r in Hparts, Hhov.
  rewrite <- Hparts, <- Hhov. split; [exact Hin|reflexivity].
Qed.

(** An event other than a click neither shows nor hides the panel, and
    sets no hide timer. *)
Lemma dispatch_nonclick_panel (ev : Event) (q : Page) :
  (forall e, ev <> Click e) ->
  panelVisible (dispatch ev q) = panelVisible q /\
  forall v, dueBy HidePanel v (timers (dispatch ev q)) =
            dueBy HidePanel v (timers q).
Proof.
  intros Hev. destruct ev as [e|e|pose|partName]; cbn [dispatch].
  - unfold handleMouseMove.
    destruct (getIntersectedObject (updateMousePosition e q));
      split; reflexivity.
  - destruct (Hev e). reflexivity.
  - split; reflexivity.
  - unfold setClickedPart. destruct (JS.truthy partName); [|split; reflexivity].
    split; [reflexivity|]. intros v. unfold dueBy. simpl.
    rewrite existsb_app. simpl. rewrite andb_false_r. simpl.
    apply orb_false_r.
Qed.

(** Whether the panel is on screen at [v] can be told at any earlier
    time. *)
Lemma advance_twice_panelVisible (t v : Z) (p : Page) :
  (t <= v)%Z ->
  panelVisible (advance v (advance t p)) = panelVisible (advance v p).
Proof.
  intros Htv. rewrite !advance_panelVisible.
  destruct (dueBy HidePanel v (timers p)) eqn:C.
  - apply dueBy_true_iff in C as (tm & Hin & Hcb & Hd).
    destruct (Z_le_gt_dec (due tm) t) as [Hle|Hgt].
    + replace (dueBy HidePanel t (timers p)) with true.
      * destruct (dueBy HidePanel v (timers (advance t p))); reflexivity.
      * symmetry. apply dueBy_true_iff. exists tm. auto.
    + replace (dueBy HidePanel v (timers (advance t p))) with true;
        [reflexivity|].
      symmetry. apply dueBy_true_iff. exists tm.
      split; [apply advance_timers_In; split; [exact Hin|lia]|]. auto.
  - rewrite dueBy_false_iff in C.
    replace (dueBy HidePanel v (timers (advance t p))) with false.
    + replace (dueBy HidePanel t (timers p)) with false; [reflexivity|].
      symmetry. apply dueBy_false_iff. intros tm Hin Hcb.
      specialize (C tm Hin Hcb). lia.
    + symmetry. apply dueBy_false_iff. intros tm Hin Hcb.
      apply advance_timers_In in Hin as [Hin _]. exact (C tm Hin Hcb).
Qed.

(** Events other than clicks, whenever they come, leave the panel to
    its timers. *)
Lemma run_nonclicks_panelVisible (trace : list (Z * Event)) (p : Page) (v : Z) :
  Forall (fun tev => isClick tev = false /\ (fst tev <= v)%Z) trace ->
  panelVisible (advance v (run p trace)) = panelVisible (advance v p).
Proof.
  intros Hall. revert p.
  induction Hall as [|[t ev] trace [Hev Htv] _ IH]; intros p; [reflexivity|].
  cbn [run fold_left]. fold (run (step p (t, ev)) trace). rewrite IH.
  unfold step. cbn [fst snd] in *.
  assert (forall e, ev <> Click e) as Hnc
    by (intros e ->; discriminate Hev).
  destruct (dispatch_nonclick_panel ev (advance t p) Hnc) as [Hpv Hdue].
  rewrite advance_panelVisible, Hpv, Hdue, <- advance_panelVisible.
  apply advance_twice_panelVisible, Htv.
Qed.

(** C6, as the code has it: showing the panel sets a hide timer
    5000ms ahead and takes no timer off, and the panel stays on screen
    until the first pending hide timer is due (or a click on empty
    space hides it). So the panel shown by an accepted click on a part
    at [t] is on screen at a later time [v], no click having come
    (pointer moves, frames and highlights may have), exactly when [v]
    is less than 5000ms after [t] and no hide timer of an earlier show
    was due in between: shown with no such timer pending, it stays
    5000ms to the millisecond. After the click and no event until a
    frame at [u], 5000ms later or more, the panel is hidden and nothing
    is selected; the part then has its base colour and scale 1 unless
    it is the hovered part, which keeps the hover colour and scale
    1.05. *)
Theorem panel_hidden_by_any_due_timer :
  (forall (p : Page) (u : Z),
      panelVisible (advance u p) =
      (panelVisible p && negb (dueBy HidePanel u (timers p)))%bool) /\
  (forall (p : Page) (nm : string) (tm : Timer),
      In tm (timers p) -> In tm (timers (showInteractionPanel nm p))) /\
  (forall (p : Page) (t : Z) (e : MouseEvent) (m : Mesh)
          (trace : list (Z * Event)) (v : Z),
      accepted t p ->
      panelElements p ->
      hitTest e (advance t p) = Some m ->
      (t <= v)%Z ->
      Forall (fun tev => isClick tev = false /\ (fst tev <= v)%Z) trace ->
      let p1 := step p (t, Click e) in
      In (mkTimer (t + 5000) HidePanel) (timers p1) /\
      (panelVisible (advance v (run p1 trace)) = true <->
       (v < t + 5000)%Z /\
       forall tm, In tm (timers p) -> callback tm = HidePanel ->
                  (due tm <= t \/ v < due tm)%Z)) /\
  (forall (p : Page) (t : Z) (e : MouseEvent) (m : Mesh) (u : Z)
          (pose : Camera),
      accepted t p ->
      panelElements p ->
      hitTest e (advance t p) = Some m ->
      JS.truthy (Some (name (userData m))) = true ->
      (t + 5000 <= u)%Z ->
      let nm := name (userData m) in
      let p1 := step p (t, Click e) in
      let q := step p1 (u, AnimationFrame pose) in
      panelVisible p1 = true /\
      In (mkTimer (t + 5000) HidePanel) (timers p1) /\
      panelVisible q = false /\
      clickedPart (chair q) = None /\
      (hoveredPart (chair p) <> Some nm -> baseStyled nm q) /\
      (hoveredPart (chair p) = Some nm -> hoverStyled nm q)).
Proof.
  split; [|split; [|split]].
  - intros p u. rewrite advance_panelVisible.
    destruct (dueBy HidePanel u (timers p)), (panelVisible p); reflexivity.
  - intros p nm tm. apply showInteractionPanel_keeps_timers.
  - intros p t e m trace v Hacc Hel Hhit Hv Htrace p1.
    rewrite (run_nonclicks_panelVisible trace p1 v Htrace).
    destruct (step_click_on_part p t e m Hacc Hhit) as [E1 Hc0].
    fold p1 in E1.
    assert (In (mkTimer (t + 5000) HidePanel) (timers p1)) as Hhide.
    { rewrite E1, <- Hc0 at 1.
      apply clickOnPart_timers_hide, advance_panelElements, Hel. }
    assert (panelVisible p1 = true) as Hshown
      by (rewrite E1; apply clickOnPart_panelVisible,
            advance_panelElements, Hel).
    split; [exact Hhide|].
    rewrite advance_panelVisible, Hshown.
    destruct (dueBy HidePanel v (timers p1)) eqn:Hdue.
    + split; [discriminate|]. intros [Hlt Hold]. exfalso.
      apply dueBy_true_iff in Hdue as (tm & Hin & Hcb & Hd).
      rewrite E1 in Hin. apply clickOnPart_timers_inv in Hin.
      rewrite Hc0 in Hin. destruct Hin as [Hin|[->| ->]].
      * apply advance_timers_In in Hin as [Hin Hlater].
        destruct (Hold tm Hin Hcb); lia.
      * discriminate Hcb.
      * simpl in Hd. lia.
    + split; [|reflexivity]. intros _.
      rewrite dueBy_false_iff in Hdue. split.
      * apply (Hdue _ Hhide). reflexivity.
      * intros tm Hin Hcb.
        destruct (Z_le_gt_dec (due tm) t) as [Hle|Hgt]; [left; exact Hle|].
        right. apply Hdue; [|exact Hcb].
        rewrite E1. apply clickOnPart_timers_keep.
        apply advance_timers_In. split; [exact Hin|lia].
  - intros p t e m u pose Hacc Hel Hhit Htr Hu nm p1 q.
    destruct (step_click_on_part p t e m Hacc Hhit) as [E1 Hc0].
    fold p1 nm in E1.
    assert (In (mkTimer (t + 5000) HidePanel) (timers p1)) as Hhide.
    { rewrite E1, <- Hc0 at 1.
      apply clickOnPart_timers_hide, advance_panelElements, Hel. }
    assert (In (mkTimer (t + 500) ClearClickedPart) (timers p1)) as Hclear.
    { rewrite E1, <- Hc0 at 1. apply clickOnPart_timers_deselect, Htr. }
    assert (clickedPart (chair (advance u p1)) = None) as Hnone.
    { rewrite advance_clickedPart.
      replace (dueBy ClearClickedPart u (timers p1)) with true; [reflexivity|].
      symmetry. apply dueBy_true_iff. eexists. split; [exact Hclear|].
      split; [reflexivity|simpl; lia]. }
    assert (hoveredPart (chair p1) = hoveredPart (chair p)) as Hhov.
    { rewrite E1.
      destruct (clickOnPart_frame nm e (advance t p)) as (_ & -> & _).
      apply advance_hoveredPart. }
    split; [rewrite E1; apply clickOnPart_panelVisible,
              advance_panelElements, Hel|].
    split; [exact Hhide|].
    split.
    { change (panelVisible q) with (panelVisible (advance u p1)).
      rewrite advance_panelVisible.
      replace (dueBy HidePanel u (timers p1)) with true; [reflexivity|].
      symmetry. apply dueBy_true_iff. eexists. split; [exact Hhide|].
      split; [reflexivity|simpl; lia]. }
    split; [exact Hnone|].
    split.
    + intros Hnot k part Hin Hname.
      apply frame_parts in Hin as (part0 & _ & ->).
      rewrite Hnone, Hhov in *.
      destruct (ProductFacts.updatePart_userData (hoveredPart (chair p))
                  None part0) as (Hud & _).
      rewrite Hud in *.
      pose proof (ProductFacts.updatePart_displayed (hoveredPart (chair p))
                    None part0) as D.
      cbv zeta in D. rewrite Hname in D. unfold displayed in D.
      rewrite bool_decide_eq_false_2 in D by discriminate.
      rewrite bool_decide_eq_false_2 in D by exact Hnot.
      injection D as -> ->. split; reflexivity.
    + intros Hyes k part Hin Hname.
      apply frame_parts in Hin as (part0 & _ & ->).
      rewrite Hnone, Hhov in *.
      destruct (ProductFacts.updatePart_userData (hoveredPart (chair p))
                  None part0) as (Hud & _).
      rewrite Hud in *.
      pose proof (ProductFacts.updatePart_displayed (hoveredPart (chair p))
                    None part0) as D.
      cbv zeta in D. rewrite Hname in D. unfold displayed in D.
      rewrite bool_decide_eq_false_2 in D by discriminate.
      rewrite bool_decide_eq_true_2 in D by exact Hyes.
      injection D as -> ->. split; reflexivity.
Qed.

End WithHost.

Import Demo.

Lemma reclick_selection_until_first_timer_witness :
  let p2 := run demoPage [(1000, Click atSeat); (1300, Click atBackrest)] in
  clickedPart (chair p2) = Some "backrest" /\
  clickedPart (chair (advance 1400 p2)) = Some "backrest" /\
  clickedPart (chair (advance 1500 p2)) = None /\
  In (mkTimer 1800 ClearClickedPart) (timers (advance 1500 p2)).
Proof.
  intros p2.
  assert (accepted 1000 demoPage) as Hacc by (vm_compute; discriminate).
  assert (forall tm, In tm (timers demoPage) ->
                     callback tm = ClearClickedPart -> (due tm <= 1000 + 300)%Z)
    as Hold by (intros tm []).
  destruct reclick_selection_until_first_timer as (Hany & Hscenario).
  destruct (Hscenario demoPage 1000%Z atSeat atBackrest
              seatMesh
              (mkMesh (BoxGeometry 2 2 0.2) (mkVector3 0 1 (-0.9)) 0xa0522d
                 (mkVector3 1 1 1)
                 (mkUserData "backrest" 0xa0522d "Ergonomic backrest"
                    (mkVector3 1 1 1)))
              eq_refl Hacc Hold eq_refl eq_refl eq_refl eq_refl)
    as (Hsel & _ & _ & Hmid & Hlate).
  split; [exact Hsel|].
  split; [apply (Hmid 1400%Z); lia|].
  split; [apply Hany; vm_compute; reflexivity|].
  vm_compute. auto.
Defined.

(** The selection made by the second click is gone 300ms after it. *)
Lemma reclick_selection_cleared_early :
  ~ reclickKeepsSelection demoPage 1000 atSeat atBackrest 1600.
Proof.
  unfold reclickKeepsSelection. intros Hc.
  assert (accepted 1000 demoPage) as Hacc by (vm_compute; discriminate).
  specialize (Hc Hacc).
  assert (is_Some (hitTest atSeat (advance 1000 demoPage))) as HA
    by (eexists; vm_compute; reflexivity).
  specialize (Hc HA).
  assert (is_Some (hitTest atBackrest
                     (advance (1000 + 300) (step demoPage (1000%Z, Click atSeat)))))
    as HB by (eexists; vm_compute; reflexivity).
  specialize (Hc HB).
  assert (1000 + 300 <= 1600 < 1000 + 800)%Z as Hu by lia.
  specialize (Hc Hu). vm_compute in Hc. discriminate Hc.
Qed.

Lemma panel_hidden_by_any_due_timer_witness :
  let p := run demoPage [(1000, MouseMove atSeat)] in
  let p1 := step p (1200%Z, Click atSeat) in
  let q := step p1 (6200%Z, AnimationFrame tt) in
  panelVisible p1 = true /\
  panelVisible
    (advance 6199 (run p1 [(3000, MouseMove atBackrest); (5000, AnimationFrame tt)]))
  = true /\
  panelVisible (advance 6200 p1) = false /\
  panelVisible q = false /\
  clickedPart (chair q) = None /\
  hoverStyled "seat" q /\
  panelVisible
    (advance 6000 (run demoPage [(1000, Click atSeat); (4000, Click atBackrest)]))
  = false.
Proof.
  intros p p1 q.
  destruct panel_hidden_by_any_due_timer as (Hany & _ & Hwindow & Hidle).
  assert (accepted 1200 p) as Hacc by (vm_compute; discriminate).
  assert (panelElements p) as Hel by (repeat split; eexists; reflexivity).
  destruct (Hidle p 1200%Z atSeat seatMesh 6200%Z tt Hacc Hel eq_refl eq_refl
              ltac:(lia))
    as (Hshown & _ & Hhidden & Hnone & _ & Hhover).
  split; [exact Hshown|].
  split.
  { assert (Forall (fun tev => isClick tev = false /\ (fst tev <= 6199)%Z)
              [(3000%Z, MouseMove atBackrest); (5000%Z, AnimationFrame tt)])
      as Htrace by (repeat constructor; simpl; lia).
    apply (Hwindow p 1200%Z atSeat seatMesh _ 6199%Z Hacc Hel eq_refl
             ltac:(lia) Htrace).
    split; [lia|]. intros tm []. }
  split.
  { destruct (panelVisible (advance 6200 p1)) eqn:E; [|reflexivity].
    apply (Hwindow p 1200%Z atSeat seatMesh [] 6200%Z Hacc Hel eq_refl
             ltac:(lia) (List.Forall_nil _)) in E.
    destruct E as [E _]. lia. }
  split; [exact Hhidden|]. split; [exact Hnone|].
  split; [apply Hhover; reflexivity|].
  rewrite Hany. vm_compute. reflexivity.
Defined.

(** Two shows 3000ms apart: the first show's timer hides the panel
    2000ms after the second. And a part clicked while hovered is teal at
    scale 1.05, not at its base, once everything has timed out. *)
Lemma panel_hidden_early_and_part_still_hovered :
  ~ panelStaysFiveSeconds demoPage 1000 atSeat 4000 atBackrest 6500 /\
  ~ idleRestoresBase (run demoPage [(1000, MouseMove atSeat)]) 1200 atSeat
      6200 tt.
Proof.
  split.
  - unfold panelStaysFiveSeconds. intros Hc.
    assert (panelElements demoPage) as Hel
      by (repeat split; eexists; reflexivity).
    assert (accepted 1000 demoPage) as Hacc1 by (vm_compute; discriminate).
    assert (accepted 4000 (step demoPage (1000%Z, Click atSeat))) as Hacc2
      by (vm_compute; discriminate).
    assert (is_Some (hitTest atSeat (advance 1000 demoPage))) as H1
      by (eexists; vm_compute; reflexivity).
    assert (is_Some (hitTest atBackrest
                       (advance 4000 (step demoPage (1000%Z, Click atSeat)))))
      as H2 by (eexists; vm_compute; reflexivity).
    specialize (Hc Hel Hacc1 Hacc2 H1 H2 ltac:(lia)).
    vm_compute in Hc. discriminate Hc.
  - unfold idleRestoresBase. intros Hc.
    set (p := run demoPage [(1000, MouseMove atSeat)]) in *.
    assert (accepted 1200 p) as Hacc by (vm_compute; discriminate).
    assert (hitTest atSeat (advance 1200 p) = Some seatMesh) as Hhit
      by (vm_compute; reflexivity).
    specialize (Hc Hacc seatMesh Hhit ltac:(lia)).
    destruct Hc as [_ Hbase].
    assert (In ("seat", hoveredSeatMesh)
              (parts (chair (step (step p (1200%Z, Click atSeat))
                               (6200%Z, AnimationFrame tt))))) as Hin
      by (vm_compute; left; reflexivity).
    destruct (Hbase "seat" hoveredSeatMesh Hin eq_refl) as [Hcol _].
    vm_compute in Hcol. discriminate Hcol.
Qed.

End TimerFacts.

(** ** The part registry *)

Module RegistryFacts.
Import Three Product Registry.

Lemma find_obj_set {A} (k k' : string) (v : A) (o : list (string * A)) :
  List.find (fun kv => String.eqb (fst kv) k') (JS.obj_set k v o) =
  if String.eqb k k' then Some (k, v)
  else List.find (fun kv => String.eqb (fst kv) k') o.
Proof.
  induction o as [|[k0 v0] o IH]; simpl.
  - destruct (String.eqb k k'); reflexivity.
  - destruct (String.eqb k0 k) eqn:E0; simpl.
    + apply String.eqb_eq in E0. subst k0.
      destruct (String.eqb k k'); reflexivity.
    + rewrite IH. destruct (String.eqb k0 k') eqn:E1; [|reflexivity].
      apply String.eqb_eq in E1. subst k0. rewrite String.eqb_sym, E0. reflexivity.
Qed.

Lemma obj_set_fresh {A} (k : string) (v : A) (o : list (string * A)) :
  ~ In k (map fst o) -> JS.obj_set k v o = (o ++ [(k, v)])%list.
Proof.
  induction o as [|[k0 v0] o IH]; simpl; [reflexivity|].
  intros Hnot. destruct (String.eqb k0 k) eqn:E0.
  - apply String.eqb_eq in E0. tauto.
  - rewrite IH by tauto. reflexivity.
Qed.

Lemma obj_set_keys_present {A} (k : string) (v : A) (o : list (string * A)) :
  In k (map fst o) -> map fst (JS.obj_set k v o) = map fst o.
Proof.
  induction o as [|[k0 v0] o IH]; simpl; [tauto|].
  intros Hin. destruct (String.eqb k0 k) eqn:E0; simpl.
  - apply String.eqb_eq in E0. subst. reflexivity.
  - apply String.eqb_neq in E0. rewrite IH; [reflexivity|].
    destruct Hin; [congruence|assumption].
Qed.

Lemma obj_set_In {A} (k : string) (v : A) (o : list (string * A))
    (kv : string * A) :
  In kv (JS.obj_set k v o) -> kv = (k, v) \/ In kv o.
Proof.
  induction o as [|[k0 v0] o IH]; simpl.
  - intros [<-|[]]. left. reflexivity.
  - destruct (String.eqb k0 k); simpl; intros [<-|Hin]; auto.
    destruct (IH Hin); auto.
Qed.

Lemma obj_set_NoDup {A} (k : string) (v : A) (o : list (string * A)) :
  List.NoDup (map fst o) -> List.NoDup (map fst (JS.obj_set k v o)).
Proof.
  intros Hnd. destruct (in_dec string_dec k (map fst o)) as [Hin|Hnot].
  - rewrite obj_set_keys_present by exact Hin. exact Hnd.
  - rewrite obj_set_fresh by exact Hnot. rewrite map_app. simpl.
    apply List.NoDup_app; [exact Hnd|repeat constructor; intros []|].
    intros x Hx [<-|[]]. exact (Hnot Hx).
Qed.

Lemma getPartByName_createPart (c : Chair) (nm : string)
    (g : Geometry) (pos : Vector3) (col : Z) (descr : string) (nm' : string) :
  getPartByName nm' (createPart nm g pos col descr c) =
  if String.eqb nm nm' then Some (freshMesh nm g pos col descr)
  else getPartByName nm' c.
Proof.
  unfold getPartByName, createPart. simpl. rewrite find_obj_set.
  destruct (String.eqb nm nm'); reflexivity.
Qed.

(** X1: a part made under a name other than [__proto__] is found under
    that name right after [createPart], as the mesh the call describes
    (at its base colour and scale 1), also when the name was taken
    before; every other name that is not one of [Object.prototype]'s
    finds what it found before. *)
Theorem createPart_then_getPartByName (c : Chair) (nm : string)
    (g : Geometry) (pos : Vector3) (col : Z) (descr : string) (nm' : string) :
  nm <> "__proto__" ->
  getPartByName nm (createPart nm g pos col descr c) =
    Some (freshMesh nm g pos col descr) /\
  (nm' <> nm -> JS.inheritedKey nm' = false ->
   getPartByName nm' (createPart nm g pos col descr c) = getPartByName nm' c).
Proof.
  intros _. rewrite !getPartByName_createPart, String.eqb_refl.
  split; [reflexivity|]. intros Hneq _.
  destruct (String.eqb_spec nm nm'); [congruence|reflexivity].
Qed.

Lemma createPart_then_getPartByName_witness :
  let c := createPart "seat" (BoxGeometry 1 1 1) (mkVector3 0 0 0) 7 "new"
             newChair in
  getPartByName "seat" c =
    Some (freshMesh "seat" (BoxGeometry 1 1 1) (mkVector3 0 0 0) 7 "new") /\
  getPartByName "backrest" c = getPartByName "backrest" newChair.
Proof.
  intros c.
  destruct (createPart_then_getPartByName newChair "seat" (BoxGeometry 1 1 1)
              (mkVector3 0 0 0) 7 "new" "backrest") as [Hnew Hold].
  - discriminate.
  - split; [exact Hnew|]. apply Hold; [discriminate|reflexivity].
Defined.

Lemma createPart_wellKeyed (c : Chair) (nm : string) (g : Geometry)
    (pos : Vector3) (col : Z) (descr : string) :
  wellKeyed c -> wellKeyed (createPart nm g pos col descr c).
Proof.
  intros [Hnd Hnames]. split; simpl.
  - apply obj_set_NoDup, Hnd.
  - apply List.Forall_forall. intros kv Hin.
    apply obj_set_In in Hin as [->|Hin]; [reflexivity|].
    rewrite List.Forall_forall in Hnames. apply Hnames, Hin.
Qed.

Lemma createPart_atBase (c : Chair) (nm : string) (g : Geometry)
    (pos : Vector3) (col : Z) (descr : string) :
  Forall (fun kv => color (snd kv) = originalColor (userData (snd kv)) /\
                    scale (snd kv) = mkVector3 1 1 1) (parts c) ->
  Forall (fun kv => color (snd kv) = originalColor (userData (snd kv)) /\
                    scale (snd kv) = mkVector3 1 1 1)
    (parts (createPart nm g pos col descr c)).
Proof.
  intros Hb. apply List.Forall_forall. intros kv Hin. simpl in Hin.
  apply obj_set_In in Hin as [->|Hin]; [split; reflexivity|].
  rewrite List.Forall_forall in Hb. apply Hb, Hin.
Qed.

Lemma createParts_snoc (specs : list PartSpec) (s : PartSpec) (c : Chair) :
  createParts (specs ++ [s])%list c =
  createPart (spec_name s) (spec_geometry s) (spec_position s) (spec_color s)
    (spec_description s) (createParts specs c).
Proof. unfold createParts. rewrite fold_left_app. reflexivity. Qed.

Lemma createParts_keys_subset (specs : list PartSpec) (c : Chair) (k : string) :
  In k (map fst (parts (createParts specs c))) ->
  In k (map fst (parts c)) \/ In k (map spec_name specs).
Proof.
  induction specs as [|s specs IH] using rev_ind; simpl; [auto|].
  rewrite createParts_snoc, map_app, in_app_iff. simpl.
  intros Hin. apply in_map_iff in Hin as (kv & <- & Hin).
  apply obj_set_In in Hin as [->|Hin]; simpl; [auto|].
  destruct (IH (in_map fst _ _ Hin)); auto.
Qed.

Lemma createParts_parts (specs : list PartSpec) :
  let c := createParts specs (mkChair [] None None 0 0) in
  wellKeyed c /\
  Forall (fun kv => color (snd kv) = originalColor (userData (snd kv)) /\
                    scale (snd kv) = mkVector3 1 1 1) (parts c) /\
  (length (parts c) <= length specs)%nat /\
  (List.NoDup (map spec_name specs) ->
   parts c =
   map (fun s => (spec_name s,
                  freshMesh (spec_name s) (spec_geometry s) (spec_position s)
                    (spec_color s) (spec_description s))) specs).
Proof.
  induction specs as [|s specs IH] using rev_ind.
  - simpl. repeat split; auto; constructor.
  - cbv zeta in *. rewrite createParts_snoc.
    destruct IH as (Hwk & Hbase & Hlen & Hord).
    split; [apply createPart_wellKeyed, Hwk|].
    split; [apply createPart_atBase, Hbase|].
    set (c := createParts specs (mkChair [] None None 0 0)) in *.
    split.
    + simpl. rewrite length_app. simpl.
      destruct (in_dec string_dec (spec_name s) (map fst (parts c))) as [Hin|Hnot].
      * pose proof (obj_set_keys_present (spec_name s)
                      (mkMesh (spec_geometry s) (spec_position s) (spec_color s)
                         (mkVector3 1 1 1)
                         (mkUserData (spec_name s) (spec_color s)
                            (spec_description s) (mkVector3 1 1 1)))
                      (parts c) Hin) as Hkeys.
        apply (f_equal (@length _)) in Hkeys. rewrite !length_map in Hkeys.
        lia.
      * rewrite obj_set_fresh by exact Hnot. rewrite length_app. simpl. lia.
    + rewrite map_app. intros Hnd.
      apply List.NoDup_app_remove_r in Hnd as Hnd'.
      specialize (Hord Hnd'). simpl.
      rewrite obj_set_fresh.
      * rewrite Hord, map_app. reflexivity.
      * intros Hin. apply createParts_keys_subset in Hin as [[]|Hin].
        apply List.NoDup_remove_2 in Hnd. rewrite app_nil_r in Hnd.
        exact (Hnd Hin).
Qed.

(** X2: whatever series of [createPart] calls builds a chair under
    ordinary names (none a string of digits, none [__proto__]), the keys
    of its [parts] are distinct, each is the name in its mesh's
    [userData], every part is at its base colour and scale 1, and there
    are at most as many parts as calls; when the names of the calls are
    distinct the parts come in the order of the calls. *)
Theorem createParts_registry (specs : list PartSpec) :
  Forall (fun s => JS.ordinaryKey (spec_name s) = true) specs ->
  let c := createParts specs (mkChair [] None None 0 0) in
  wellKeyed c /\
  Forall (fun kv => color (snd kv) = originalColor (userData (snd kv)) /\
                    scale (snd kv) = mkVector3 1 1 1) (parts c) /\
  (length (parts c) <= length specs)%nat /\
  (List.NoDup (map spec_name specs) ->
   parts c =
   map (fun s => (spec_name s,
                  freshMesh (spec_name s) (spec_geometry s) (spec_position s)
                    (spec_color s) (spec_description s))) specs).
Proof. intros _. apply createParts_parts. Qed.

Lemma createParts_registry_witness :
  parts (createParts
           [mkPartSpec "seat" (BoxGeometry 2 0.2 2) (mkVector3 0 0 0) 1 "a";
            mkPartSpec "leg" (CylinderGeometry 0.05 0.05 1.2) (mkVector3 0 0 0) 2 "b"]
           (mkChair [] None None 0 0)) =
  [("seat", freshMesh "seat" (BoxGeometry 2 0.2 2) (mkVector3 0 0 0) 1 "a");
   ("leg", freshMesh "leg" (CylinderGeometry 0.05 0.05 1.2) (mkVector3 0 0 0) 2 "b")].
Proof.
  apply (createParts_registry
           [mkPartSpec "seat" (BoxGeometry 2 0.2 2) (mkVector3 0 0 0) 1 "a";
            mkPartSpec "leg" (CylinderGeometry 0.05 0.05 1.2) (mkVector3 0 0 0) 2 "b"]).
  - repeat constructor.
  - repeat constructor; simpl; intuition discriminate.
Defined.

Lemma wellKeyed_names (c : Chair) :
  wellKeyed c -> partNames c = map fst (parts c).
Proof.
  intros [_ Hnames]. unfold partNames. apply map_ext_in. intros kv Hin.
  rewrite List.Forall_forall in Hnames. apply Hnames, Hin.
Qed.

Lemma fold_descriptions (l : list Mesh) (acc : list (string * string)) :
  List.NoDup (map fst acc ++ map (fun m => name (userData m)) l)%list ->
  fold_left
    (fun d part => JS.obj_set (name (userData part)) (description (userData part)) d)
    l acc =
  (acc ++ map (fun m => (name (userData m), description (userData m))) l)%list.
Proof.
  revert acc. induction l as [|m l IH]; intros acc Hnd; simpl.
  - rewrite app_nil_r. reflexivity.
  - rewrite obj_set_fresh.
    + rewrite IH.
      * rewrite <- app_assoc. reflexivity.
      * rewrite map_app. simpl. rewrite <- app_assoc. exact Hnd.
    + simpl in Hnd. apply List.NoDup_remove_2 in Hnd.
      intros Hin. apply Hnd, in_app_iff. left. exact Hin.
Qed.

(** X3: on a chair whose keys are distinct and are the names of their
    meshes, [getPartDescriptions] lists every part once, in the order of
    [parts], each name with the description in its mesh's [userData]. *)
Theorem getPartDescriptions_lists_parts (c : Chair) :
  wellKeyed c ->
  getPartDescriptions c =
  map (fun kv => (fst kv, description (userData (snd kv)))) (parts c).
Proof.
  intros Hwk. pose proof (wellKeyed_names c Hwk) as Hn.
  destruct Hwk as [Hnd Hnames].
  unfold getPartDescriptions, JS.Object_values.
  rewrite fold_descriptions.
  - simpl. rewrite map_map. apply map_ext_in. intros kv Hin.
    rewrite List.Forall_forall in Hnames. rewrite (Hnames kv Hin). reflexivity.
  - simpl. rewrite map_map. unfold partNames in Hn. rewrite Hn. exact Hnd.
Qed.

Lemma newChair_wellKeyed : wellKeyed newChair.
Proof.
  split.
  - simpl. repeat constructor; simpl; intuition discriminate.
  - simpl. repeat constructor.
Qed.

Lemma newChair_allNamed : allNamed newChair.
Proof. unfold allNamed. simpl. repeat constructor. Qed.

Lemma getPartDescriptions_lists_parts_witness :
  getPartDescriptions newChair =
  map (fun kv => (fst kv, description (userData (snd kv)))) (parts newChair).
Proof. apply getPartDescriptions_lists_parts, newChair_wellKeyed. Defined.

Section WithHost.
Context `{Host}.

Lemma update_keys (c : Chair) :
  map fst (parts (update c)) = map fst (parts c) /\
  map (fun kv => userData (snd kv)) (parts (update c)) =
  map (fun kv => userData (snd kv)) (parts c).
Proof.
  rewrite ProductFacts.update_parts, !map_map. simpl. split; [reflexivity|].
  apply map_ext. intros kv. apply ProductFacts.updatePart_userData.
Qed.

Lemma update_partNames (c : Chair) : partNames (update c) = partNames c.
Proof.
  unfold partNames. rewrite ProductFacts.update_parts, map_map. simpl.
  apply map_ext. intros kv.
  destruct (ProductFacts.updatePart_userData (hoveredPart c) (clickedPart c)
              (snd kv)) as (-> & _). reflexivity.
Qed.

Lemma update_wellKeyed (c : Chair) : wellKeyed c -> wellKeyed (update c).
Proof.
  intros [Hnd Hnames]. destruct (update_keys c) as [Hk _]. split.
  - rewrite Hk. exact Hnd.
  - rewrite ProductFacts.update_parts. apply List.Forall_forall.
    intros kv Hin. apply in_map_iff in Hin as (kv0 & <- & Hin0). simpl.
    destruct (ProductFacts.updatePart_userData (hoveredPart c) (clickedPart c)
                (snd kv0)) as (-> & _).
    rewrite List.Forall_forall in Hnames. apply Hnames, Hin0.
Qed.

Lemma find_map_snd {A B} (f : A -> B) (P : string -> bool)
    (l : list (string * A)) :
  List.find (fun kv => P (fst kv)) (map (fun kv => (fst kv, f (snd kv))) l) =
  option_map (fun kv => (fst kv, f (snd kv))) (List.find (fun kv => P (fst kv)) l).
Proof.
  induction l as [|[k a] l IH]; simpl; [reflexivity|].
  destruct (P k); [reflexivity|exact IH].
Qed.

(** X4: a frame update changes no part's identity: the keys and their
    order, every mesh's [userData], geometry and position, the hovered
    and the selected part stay, so a lookup by a name that is not one of
    [Object.prototype]'s finds after the update the same part restyled,
    or nothing as before, and the descriptions listed are the same; and
    so it is after any number of frames. *)
Theorem update_keeps_registry (c : Chair) :
  map fst (parts (update c)) = map fst (parts c) /\
  map (fun kv => (userData (snd kv), geometry (snd kv), position (snd kv)))
    (parts (update c)) =
  map (fun kv => (userData (snd kv), geometry (snd kv), position (snd kv)))
    (parts c) /\
  hoveredPart (update c) = hoveredPart c /\
  clickedPart (update c) = clickedPart c /\
  (forall nm, JS.inheritedKey nm = false ->
     getPartByName nm (update c) =
     updatePart (hoveredPart c) (clickedPart c) <$> getPartByName nm c) /\
  getPartDescriptions (update c) = getPartDescriptions c /\
  (forall n,
     map (fun kv => (fst kv, userData (snd kv), geometry (snd kv), position (snd kv)))
       (parts (Nat.iter n update c)) =
     map (fun kv => (fst kv, userData (snd kv), geometry (snd kv), position (snd kv)))
       (parts c) /\
     hoveredPart (Nat.iter n update c) = hoveredPart c /\
     clickedPart (Nat.iter n update c) = clickedPart c).
Proof.
  split; [apply update_keys|].
  split.
  { rewrite ProductFacts.update_parts, map_map. simpl. apply map_ext.
    intros kv.
    destruct (ProductFacts.updatePart_userData (hoveredPart c) (clickedPart c)
                (snd kv)) as (-> & -> & ->). reflexivity. }
  split; [reflexivity|]. split; [reflexivity|].
  split.
  { intros nm _. unfold getPartByName. rewrite ProductFacts.update_parts.
    rewrite (find_map_snd (updatePart (hoveredPart c) (clickedPart c))
               (fun k => String.eqb k nm)).
    destruct (List.find _ (parts c)); reflexivity. }
  split.
  { unfold getPartDescriptions, JS.Object_values.
    rewrite ProductFacts.update_parts, map_map. simpl.
    rewrite <- (map_map snd (updatePart (hoveredPart c) (clickedPart c))).
    generalize (map snd (parts c)) (@nil (string * string)).
    intros l. induction l as [|m l IH]; intros acc; simpl; [reflexivity|].
    destruct (ProductFacts.updatePart_userData (hoveredPart c) (clickedPart c) m)
      as (-> & _). apply IH. }
  intros n. induction n as [|n IH]; [repeat split; reflexivity|].
  destruct IH as (Hparts & Hhov & Hclk).
  change (Nat.iter (S n) update c) with (update (Nat.iter n update c)).
  split; [|split; [rewrite <- Hhov|rewrite <- Hclk]; reflexivity].
  rewrite <- Hparts, ProductFacts.update_parts, map_map. apply map_ext.
  intros kv. cbn [fst snd].
  destruct (ProductFacts.updatePart_userData
              (hoveredPart (Nat.iter n update c))
              (clickedPart (Nat.iter n update c)) (snd kv)) as (-> & -> & ->).
  reflexivity.
Qed.

(** X5: on a chair with distinct, self-naming keys, after a frame update
    at most one part is at scale 1.1 and at most one at scale 1.05, and
    when nothing is selected or hovered no part is at either. *)
Theorem update_styles_at_most_one (c : Chair) (i j : nat) (ki kj : string)
    (pi pj : Mesh) :
  wellKeyed c ->
  nth_error (parts (update c)) i = Some (ki, pi) ->
  nth_error (parts (update c)) j = Some (kj, pj) ->
  (scale pi = mkVector3 1.1 1.1 1.1 -> scale pj = mkVector3 1.1 1.1 1.1 -> i = j) /\
  (scale pi = mkVector3 1.05 1.05 1.05 -> scale pj = mkVector3 1.05 1.05 1.05 ->
   i = j) /\
  (clickedPart c = None -> scale pi <> mkVector3 1.1 1.1 1.1) /\
  (hoveredPart c = None -> scale pi <> mkVector3 1.05 1.05 1.05).
Proof.
  intros Hwk Hi Hj.
  pose proof (update_wellKeyed c Hwk) as [Hnd Hnames].
  assert (forall n k p, nth_error (parts (update c)) n = Some (k, p) ->
            name (userData p) = k /\
            (scale p = mkVector3 1.1 1.1 1.1 -> clickedPart c = Some k) /\
            (scale p = mkVector3 1.05 1.05 1.05 -> hoveredPart c = Some k))
    as Hstyle.
  { intros n k p Hn.
    assert (name (userData p) = k) as Hk.
    { rewrite List.Forall_forall in Hnames.
      apply (Hnames (k, p)). eapply nth_error_In, Hn. }
    split; [exact Hk|].
    rewrite ProductFacts.update_parts, nth_error_map in Hn.
    destruct (nth_error (parts c) n) as [[k0 p0]|]; [|discriminate].
    injection Hn as <- <-.
    pose proof (ProductFacts.updatePart_displayed (hoveredPart c) (clickedPart c)
                  p0) as D.
    cbv zeta in D. simpl in Hk.
    destruct (ProductFacts.updatePart_userData (hoveredPart c) (clickedPart c) p0)
      as (Hud & _).
    rewrite Hud in Hk. rewrite Hk in D. unfold Spec.displayed in D. simpl.
    split; intros Hs; rewrite Hs in D;
      repeat case_bool_decide; try assumption; discriminate D. }
  assert (forall k, nth_error (map fst (parts (update c))) i = Some k ->
                    nth_error (map fst (parts (update c))) j = Some k -> i = j)
    as Hsame.
  { intros k Ei Ej. apply (proj1 (List.NoDup_nth_error _) Hnd).
    - apply nth_error_Some. congruence.
    - congruence. }
  assert (nth_error (map fst (parts (update c))) i = Some ki) as Eki
    by (rewrite nth_error_map, Hi; reflexivity).
  assert (nth_error (map fst (parts (update c))) j = Some kj) as Ekj
    by (rewrite nth_error_map, Hj; reflexivity).
  destruct (Hstyle i ki pi Hi) as (_ & Hci & Hhi).
  destruct (Hstyle j kj pj Hj) as (_ & Hcj & Hhj).
  repeat split.
  - intros Si Sj. specialize (Hci Si). specialize (Hcj Sj).
    apply (Hsame ki); congruence.
  - intros Si Sj. specialize (Hhi Si). specialize (Hhj Sj).
    apply (Hsame ki); congruence.
  - intros Hnone Si. specialize (Hci Si). congruence.
  - intros Hnone Si. specialize (Hhi Si). congruence.
Qed.

End WithHost.

Lemma update_keeps_registry_witness :
  getPartByName "seat"
    (update (H := Demo.demoHost)
       (mkChair (parts newChair) (Some "seat") None 0 1))
  = Some Demo.hoveredSeatMesh.
Proof.
  destruct (update_keeps_registry (H := Demo.demoHost)
              (mkChair (parts newChair) (Some "seat") None 0 1))
    as (_ & _ & _ & _ & Hfind & _).
  rewrite Hfind; reflexivity.
Defined.

Lemma update_styles_at_most_one_witness :
  wellKeyed (mkChair (parts newChair) (Some "seat") None 0 1) /\
  scale Demo.hoveredSeatMesh <> mkVector3 1.1 1.1 1.1.
Proof.
  assert (wellKeyed (mkChair (parts newChair) (Some "seat") None 0 1)) as Hwk
    by exact newChair_wellKeyed.
  split; [exact Hwk|].
  apply (update_styles_at_most_one (H := Demo.demoHost)
           (mkChair (parts newChair) (Some "seat") None 0 1) 0 0 "seat" "seat"
           Demo.hoveredSeatMesh Demo.hoveredSeatMesh Hwk eq_refl eq_refl).
  reflexivity.
Defined.

End RegistryFacts.

(** ** Pointer coordinates, cursors, the panel and the click sound *)

Module PointerFacts.
Import Three Product Viewer Spec ViewerFacts Registry Session.

Section WithHost.
Context `{Host}.

Lemma updateMousePosition_only_mouse (e : MouseEvent) (p : Page) :
  let p' := updateMousePosition e p in
  chair p' = chair p /\ timers p' = timers p /\ document p' = document p /\
  canvas p' = canvas p /\ camera p' = camera p /\ clock p' = clock p /\
  audio p' = audio p /\ clickSounds p' = clickSounds p /\
  lastClickTime (handler p') = lastClickTime (handler p) /\
  clickDelay (handler p') = clickDelay (handler p) /\
  partDescriptions (handler p') = partDescriptions (handler p).
Proof. simpl. repeat split; reflexivity. Qed.

(** X6: [updateMousePosition] maps the canvas rectangle onto the square
    from -1 to 1 with the vertical axis turned up: over a rectangle of
    positive width and height, a pointer within the rectangle gets both
    coordinates between -1 and 1; the left and right edges give -1 and 1,
    the top and bottom edges give 1 and -1, the centre gives 0 and 0; and
    nothing but the handler's [mouse] changes. *)
Theorem updateMousePosition_ndc (e : MouseEvent) (p : Page) :
  let r := rect (canvas p) in
  let m := mouse (handler (updateMousePosition e p)) in
  (0 < rect_width r)%Q -> (0 < rect_height r)%Q ->
  ((rect_left r <= clientX e <= rect_left r + rect_width r)%Q ->
   (-1 <= v2_x m <= 1)%Q) /\
  ((rect_top r <= clientY e <= rect_top r + rect_height r)%Q ->
   (-1 <= v2_y m <= 1)%Q) /\
  ((clientX e == rect_left r)%Q -> (v2_x m == -1)%Q) /\
  ((clientX e == rect_left r + rect_width r)%Q -> (v2_x m == 1)%Q) /\
  ((clientY e == rect_top r)%Q -> (v2_y m == 1)%Q) /\
  ((clientY e == rect_top r + rect_height r)%Q -> (v2_y m == -1)%Q) /\
  ((clientX e == rect_left r + rect_width r / 2)%Q -> (v2_x m == 0)%Q) /\
  ((clientY e == rect_top r + rect_height r / 2)%Q -> (v2_y m == 0)%Q) /\
  chair (updateMousePosition e p) = chair p /\
  timers (updateMousePosition e p) = timers p /\
  document (updateMousePosition e p) = document p.
Proof.
  intros r m Hw Hh. subst m. simpl. fold r.
  assert (~ rect_width r == 0)%Q as Hw0 by lra.
  assert (~ rect_height r == 0)%Q as Hh0 by lra.
  split.
  { intros [Hlo Hhi].
    assert (0 <= (clientX e - rect_left r) / rect_width r)%Q
      by (apply Qle_shift_div_l; [exact Hw|lra]).
    assert ((clientX e - rect_left r) / rect_width r <= 1)%Q
      by (apply Qle_shift_div_r; [exact Hw|lra]).
    split; lra. }
  split.
  { intros [Hlo Hhi].
    assert (0 <= (clientY e - rect_top r) / rect_height r)%Q
      by (apply Qle_shift_div_l; [exact Hh|lra]).
    assert ((clientY e - rect_top r) / rect_height r <= 1)%Q
      by (apply Qle_shift_div_r; [exact Hh|lra]).
    split; lra. }
  split; [intros E; rewrite E; field; exact Hw0|].
  split; [intros E; rewrite E; field; exact Hw0|].
  split; [intros E; rewrite E; field; exact Hh0|].
  split; [intros E; rewrite E; field; exact Hh0|].
  split; [intros E; rewrite E; field; exact Hw0|].
  split; [intros E; rewrite E; field; exact Hh0|].
  repeat split; reflexivity.
Qed.

(** The part a hit test returns is a part of the chair. *)
Lemma hitTest_in_parts (e : MouseEvent) (p : Page) (m : Mesh) :
  hitTest e p = Some m -> In m (getAllParts (chair p)).
Proof.
  intros Hhit.
  pose proof (getIntersectedObject_nearest (updateMousePosition e p)) as Hn.
  change (getIntersectedObject (updateMousePosition e p)) with (hitTest e p) in Hn.
  rewrite Hhit in Hn. destruct Hn as [Hin _]. exact Hin.
Qed.

Lemma hitTest_named (e : MouseEvent) (p : Page) (m : Mesh) :
  allNamed (chair p) -> hitTest e p = Some m ->
  JS.truthy (Some (name (userData m))) = true /\
  In (name (userData m)) (partNames (chair p)).
Proof.
  intros Hall Hhit. apply hitTest_in_parts in Hhit.
  unfold getAllParts, JS.Object_values in Hhit.
  apply in_map_iff in Hhit as (kv & <- & Hin). split.
  - unfold allNamed in Hall. rewrite List.Forall_forall in Hall.
    apply Hall, Hin.
  - unfold partNames. apply in_map_iff. exists kv. split; [reflexivity|exact Hin].
Qed.

(** X7: a pointer move sets the canvas cursor to "pointer" exactly when
    the hit test finds a part and to "default" otherwise, and the body
    cursor to "pointer" exactly when the hovered name is not empty (so
    the two agree on a chair without an empty name). It changes nothing
    else but the pointer coordinates and the hovered part: not the
    selection, the parts, the timers, the panel or its texts, the time
    of the last click or the sounds. *)
Theorem handleMouseMove_cursors_and_frame (e : MouseEvent) (p : Page) :
  let p' := handleMouseMove e p in
  cursor (canvas p') =
    match hitTest e p with Some _ => "pointer" | None => "default" end /\
  body_cursor (document p') =
    (if JS.truthy (hoveredPart (chair p')) then "pointer" else "default") /\
  (allNamed (chair p) -> body_cursor (document p') = cursor (canvas p')) /\
  clickedPart (chair p') = clickedPart (chair p) /\
  parts (chair p') = parts (chair p) /\
  timers p' = timers p /\
  interactionPanel (document p') = interactionPanel (document p) /\
  partTitle (document p') = partTitle (document p) /\
  partDescription (document p') = partDescription (document p) /\
  lastClickTime (handler p') = lastClickTime (handler p) /\
  clickSounds p' = clickSounds p /\
  rect (canvas p') = rect (canvas p).
Proof.
  intros p'. subst p'. unfold handleMouseMove.
  change (getIntersectedObject (updateMousePosition e p)) with (hitTest e p).
  destruct (hitTest e p) as [m|] eqn:Hhit; simpl.
  - repeat split; try reflexivity.
    intros Hall. destruct (hitTest_named e p m Hall Hhit) as [Htr _].
    simpl in Htr. rewrite Htr. reflexivity.
  - repeat split; reflexivity.
Qed.

(** *** The panel *)

Lemma showInteractionPanel_missing (nm : string) (p : Page) :
  ~ panelElements p -> showInteractionPanel nm p = p.
Proof.
  unfold panelElements, showInteractionPanel. intros Hnot.
  destruct (interactionPanel (document p)); [|reflexivity].
  destruct (partTitle (document p)); [|reflexivity].
  destruct (partDescription (document p)); [|reflexivity].
  exfalso. apply Hnot. repeat split; eexists; reflexivity.
Qed.

(** X8: when one of the three panel elements is missing from the
    document, an accepted click on a part still selects the part, sets
    its deselect timer and plays the sound, but writes nothing to the
    document and sets no hide timer; and hiding a panel that is not there
    changes nothing. *)
Theorem click_with_panel_missing (e : MouseEvent) (p : Page) (m : Mesh) :
  (clickDelay (handler p) <= clock p - lastClickTime (handler p))%Z ->
  hitTest e p = Some m ->
  ~ panelElements p ->
  let nm := name (userData m) in
  let p' := handleClick e p in
  document p' = document p /\
  clickedPart (chair p') = Some nm /\
  timers p' =
    (timers p ++
     (if JS.truthy (Some nm) then [mkTimer (clock p + 500) ClearClickedPart]
      else []))%list /\
  clickSounds p' = (if audio p then S (clickSounds p) else clickSounds p) /\
  (interactionPanel (document p) = None -> hideInteractionPanel p = p).
Proof.
  intros Hacc Hhit Hnot nm p'. subst p'.
  rewrite (handleClick_hit e p m Hacc Hhit). fold nm.
  unfold clickOnPart.
  set (q := setClickedPart (Some nm)
              (updateMousePosition e (set_lastClickTime (clock p) p))).
  assert (document q = document p /\ audio q = audio p /\
          clickSounds q = clickSounds p /\
          clickedPart (chair q) = Some nm /\
          timers q =
            (timers p ++
             (if JS.truthy (Some nm)
              then [mkTimer (clock p + 500) ClearClickedPart] else []))%list)
    as (Hd & Ha & Hs & Hc & Ht).
  { subst q. unfold setClickedPart.
    destruct (JS.truthy (Some nm)); simpl; rewrite ?app_nil_r;
      repeat split; reflexivity. }
  assert (~ panelElements q) as Hnotq
    by (unfold panelElements in *; rewrite Hd; exact Hnot).
  rewrite (showInteractionPanel_missing nm q Hnotq).
  unfold playClickSound. rewrite Ha, <- Hs.
  split; [destruct (audio p); exact Hd|].
  split; [destruct (audio p); exact Hc|].
  split; [destruct (audio p); exact Ht|].
  split; [destruct (audio p); reflexivity|].
  intros Hnone. unfold hideInteractionPanel. rewrite Hnone. reflexivity.
Qed.

Lemma classList_add_other (l : list string) :
  otherClasses (JS.classList_add "panel-show" l) = otherClasses l.
Proof.
  unfold JS.classList_add, otherClasses.
  destruct (existsb (String.eqb "panel-show") l); [reflexivity|].
  rewrite List.filter_app. simpl. apply app_nil_r.
Qed.

Lemma classList_add_In (l : list string) :
  In "panel-show" (JS.classList_add "panel-show" l) /\
  (In "panel-show" l -> JS.classList_add "panel-show" l = l) /\
  JS.classList_add "panel-show" (JS.classList_add "panel-show" l) =
  JS.classList_add "panel-show" l.
Proof.
  assert (forall l', In "panel-show" l' ->
                     JS.classList_add "panel-show" l' = l') as Hid.
  { intros l' Hin. unfold JS.classList_add.
    replace (existsb (String.eqb "panel-show") l') with true; [reflexivity|].
    symmetry. apply existsb_exists. exists "panel-show".
    split; [exact Hin|reflexivity]. }
  assert (In "panel-show" (JS.classList_add "panel-show" l)) as Hin.
  { unfold JS.classList_add.
    destruct (existsb (String.eqb "panel-show") l) eqn:E.
    - apply existsb_exists in E as (x & Hx & Ex).
      apply String.eqb_eq in Ex. subst x. exact Hx.
    - apply in_app_iff. right. left. reflexivity. }
  split; [exact Hin|]. split; [apply Hid|apply Hid, Hin].
Qed.

Lemma filter_twice {A} (f : A -> bool) (l : list A) :
  List.filter f (List.filter f l) = List.filter f l.
Proof.
  induction l as [|x l IH]; simpl; [reflexivity|].
  destruct (f x) eqn:E; simpl; [rewrite E; f_equal; exact IH|exact IH].
Qed.

Lemma otherClasses_idempotent (l : list string) :
  otherClasses (otherClasses l) = otherClasses l.
Proof. apply filter_twice. Qed.

(** X9: showing the panel displays it with the class "panel-show" put
    once (not again when it is there already) and every other class
    kept; hiding it afterwards leaves display "none" and exactly the
    classes the panel had apart from "panel-show", with the texts of the
    show still in place; showing twice gives the same document as
    showing once, and hiding twice the same page as hiding once. *)
Theorem panel_show_hide_classes (nm : string) (p : Page) (panel : Panel) :
  panelElements p ->
  interactionPanel (document p) = Some panel ->
  let shown := showInteractionPanel nm p in
  let hidden := hideInteractionPanel shown in
  interactionPanel (document shown) =
    Some (mkPanel "block" (JS.classList_add "panel-show" (classList panel))) /\
  In "panel-show" (JS.classList_add "panel-show" (classList panel)) /\
  otherClasses (JS.classList_add "panel-show" (classList panel)) =
    otherClasses (classList panel) /\
  (In "panel-show" (classList panel) ->
   JS.classList_add "panel-show" (classList panel) = classList panel) /\
  interactionPanel (document hidden) =
    Some (mkPanel "none" (otherClasses (classList panel))) /\
  partTitle (document hidden) = Some (formatPartName nm) /\
  partDescription (document hidden) = partDescription (document shown) /\
  document (showInteractionPanel nm shown) = document shown /\
  hideInteractionPanel hidden = hidden.
Proof.
  intros (_ & [t Ht] & [d Hd]) Hp shown hidden.
  assert (document shown =
          mkDocument
            (Some (mkPanel "block" (JS.classList_add "panel-show" (classList panel))))
            (Some (formatPartName nm))
            (Some (descriptionText (partDescriptions (handler p)) nm))
            (body_cursor (document p))) as Hshown.
  { subst shown. unfold showInteractionPanel. rewrite Hp, Ht, Hd. reflexivity. }
  assert (document hidden =
          mkDocument
            (Some (mkPanel "none" (otherClasses (classList panel))))
            (Some (formatPartName nm))
            (Some (descriptionText (partDescriptions (handler p)) nm))
            (body_cursor (document p))) as Hhidden.
  { subst hidden. unfold hideInteractionPanel. rewrite Hshown. simpl.
    unfold JS.classList_remove. fold (otherClasses
      (JS.classList_add "panel-show" (classList panel))).
    rewrite classList_add_other. reflexivity. }
  destruct (classList_add_In (classList panel)) as (Hin & Hid & Hidem).
  rewrite Hshown, Hhidden. simpl.
  split; [reflexivity|]. split; [exact Hin|].
  split; [apply classList_add_other|]. split; [exact Hid|].
  split; [reflexivity|]. split; [reflexivity|]. split; [reflexivity|].
  split.
  - assert (handler shown = handler p) as Hh
      by (subst shown; unfold showInteractionPanel; rewrite Hp, Ht, Hd;
          reflexivity).
    unfold showInteractionPanel at 1. rewrite Hshown. simpl.
    rewrite Hidem, Hh. reflexivity.
  - unfold hideInteractionPanel at 1. rewrite Hhidden. simpl.
    unfold JS.classList_remove. fold (otherClasses (otherClasses (classList panel))).
    rewrite otherClasses_idempotent.
    rewrite <- Hhidden. destruct hidden. reflexivity.
Qed.

(** *** The click sound *)

(** X10: the audio output decides nothing but the sound: a click leaves
    the same clock, chair, camera, canvas, document, handler and timers
    whether an audio context can be made or not. One sound starts for an
    accepted click on a part when it can, and none in every other case. *)
Theorem click_sound_only_counts (e : MouseEvent) (p : Page) :
  silentView (handleClick e (with_audio true p)) =
  silentView (handleClick e (with_audio false p)) /\
  clickSounds (handleClick e (with_audio false p)) = clickSounds p /\
  clickSounds (handleClick e p) =
    (if (negb (clock p - lastClickTime (handler p) <? clickDelay (handler p))%Z
         && audio p)%bool
     then match hitTest e p with
          | Some _ => S (clickSounds p)
          | None => clickSounds p
          end
     else clickSounds p).
Proof.
  assert (forall b q, handleClick e (with_audio b q) =
            if (clock q - lastClickTime (handler q) <? clickDelay (handler q))%Z
            then with_audio b q
            else match hitTest e q with
                 | Some m =>
                     if b
                     then with_clickSounds (S (clickSounds q))
                            (with_audio b
                               (showInteractionPanel (name (userData m))
                                  (setClickedPart (Some (name (userData m)))
                                     (updateMousePosition e
                                        (set_lastClickTime (clock q) q)))))
                     else with_audio b
                            (showInteractionPanel (name (userData m))
                               (setClickedPart (Some (name (userData m)))
                                  (updateMousePosition e
                                     (set_lastClickTime (clock q) q))))
                 | None =>
                     with_audio b
                       (hideInteractionPanel
                          (updateMousePosition e (set_lastClickTime (clock q) q)))
                 end) as Hform.
  { intros b q. unfold handleClick. simpl.
    destruct (clock q - lastClickTime (handler q) <? clickDelay (handler q))%Z;
      [reflexivity|].
    change (getIntersectedObject
              (updateMousePosition e (set_lastClickTime (clock q) (with_audio b q))))
      with (hitTest e q).
    destruct (hitTest e q) as [m|].
    - unfold playClickSound, showInteractionPanel, setClickedPart.
      destruct (JS.truthy (Some (name (userData m)))); simpl;
        destruct (interactionPanel (document q)); simpl;
        destruct (partTitle (document q)); simpl;
        destruct (partDescription (document q)); simpl;
        destruct b; reflexivity.
    - unfold hideInteractionPanel. simpl.
      destruct (interactionPanel (document q)); reflexivity. }
  split; [|split].
  - rewrite !Hform.
    destruct (clock p - lastClickTime (handler p) <? clickDelay (handler p))%Z;
      [reflexivity|].
    destruct (hitTest e p); reflexivity.
  - rewrite Hform.
    destruct (clock p - lastClickTime (handler p) <? clickDelay (handler p))%Z;
      [reflexivity|].
    destruct (hitTest e p) as [m|].
    + unfold showInteractionPanel, setClickedPart.
      destruct (JS.truthy (Some (name (userData m)))); simpl;
        destruct (interactionPanel (document p)); simpl;
        destruct (partTitle (document p)); simpl;
        destruct (partDescription (document p)); reflexivity.
    + unfold hideInteractionPanel. simpl.
      destruct (interactionPanel (document p)); reflexivity.
  - replace p with (with_audio (audio p) p) at 1 by (destruct p; reflexivity).
    rewrite Hform.
    destruct (clock p - lastClickTime (handler p) <? clickDelay (handler p))%Z;
      simpl; [reflexivity|].
    destruct (hitTest e p) as [m|]; destruct (audio p); simpl;
      try reflexivity.
    + unfold showInteractionPanel, setClickedPart.
      destruct (JS.truthy (Some (name (userData m)))); simpl;
        destruct (interactionPanel (document p)); simpl;
        destruct (partTitle (document p)); simpl;
        destruct (partDescription (document p)); reflexivity.
    + unfold hideInteractionPanel. simpl.
      destruct (interactionPanel (document p)); reflexivity.
    + unfold hideInteractionPanel. simpl.
      destruct (interactionPanel (document p)); reflexivity.
Qed.

(** *** The console's highlight *)

(** X22: [debugViewer.highlightPart(name)] stores the name as the
    selection and, unless the name is [null] or empty, sets a deselect
    timer 500ms ahead; an empty name therefore stays selected with no
    timer to clear it. It opens no panel, plays no sound and leaves the
    debounce, the hovered part and the parts alone. A name that is no
    part of the chair puts no part at the selection scale on the next
    frame. *)
Theorem highlightPart_selects_only (v : option string) (p : Page) :
  let p' := dispatch (HighlightPart v) p in
  clickedPart (chair p') = v /\
  timers p' =
    (timers p ++
     (if JS.truthy v then [mkTimer (clock p + 500) ClearClickedPart] else []))%list /\
  hoveredPart (chair p') = hoveredPart (chair p) /\
  parts (chair p') = parts (chair p) /\
  document p' = document p /\
  handler p' = handler p /\
  clickSounds p' = clickSounds p /\
  (forall nm pose k part,
     v = Some nm -> ~ In nm (partNames (chair p)) ->
     In (k, part) (parts (chair (dispatch (AnimationFrame pose) p'))) ->
     scale part <> mkVector3 1.1 1.1 1.1).
Proof.
  cbn [dispatch]. unfold setClickedPart.
  assert (forall nm k part,
            ~ In nm (partNames (chair p)) ->
            In (k, part)
              (map (fun kv => (fst kv,
                               updatePart (hoveredPart (chair p)) (Some nm) (snd kv)))
                 (parts (chair p))) ->
            scale part <> mkVector3 1.1 1.1 1.1) as Hstyle.
  { intros nm k part Hnot Hin.
    apply in_map_iff in Hin as (kv & [= <- <-] & Hin).
    pose proof (ProductFacts.updatePart_displayed (hoveredPart (chair p))
                  (Some nm) (snd kv)) as D.
    cbv zeta in D. unfold displayed in D.
    rewrite (bool_decide_eq_false_2 (Some nm = Some (name (userData (snd kv)))))
      in D.
    - intros Hs. rewrite Hs in D. case_bool_decide; discriminate D.
    - intros [= ->]. apply Hnot. unfold partNames. apply in_map_iff.
      exists kv. split; [reflexivity|exact Hin]. }
  destruct (JS.truthy v) eqn:Htr; simpl; rewrite ?app_nil_r;
    repeat split; try reflexivity;
    intros nm pose k part -> Hnot Hin; exact (Hstyle nm k part Hnot Hin).
Qed.

End WithHost.

Lemma handleMouseMove_cursors_and_frame_witness :
  body_cursor (document (handleMouseMove Demo.atSeat Demo.demoPage)) = "pointer" /\
  cursor (canvas (handleMouseMove Demo.atSeat Demo.demoPage)) = "pointer" /\
  cursor (canvas (handleMouseMove Demo.atNothing Demo.demoPage)) = "default".
Proof.
  destruct (handleMouseMove_cursors_and_frame (H := Demo.demoHost)
              Demo.atSeat Demo.demoPage) as (Hc & _ & Hagree & _).
  destruct (handleMouseMove_cursors_and_frame (H := Demo.demoHost)
              Demo.atNothing Demo.demoPage) as (Hc' & _).
  split; [rewrite Hagree; [exact Hc|exact RegistryFacts.newChair_allNamed]|].
  split; [exact Hc|exact Hc'].
Defined.

Lemma click_with_panel_missing_witness :
  let p := with_document (mkDocument None (Some "") (Some "") "default")
             Demo.demoPage in
  document (handleClick Demo.atSeat p) = document p /\
  clickedPart (chair (handleClick Demo.atSeat p)) = Some "seat" /\
  timers (handleClick Demo.atSeat p) = [mkTimer 1500 ClearClickedPart].
Proof.
  intros p.
  assert (clickDelay (handler p) <= clock p - lastClickTime (handler p))%Z
    as Hacc by (vm_compute; discriminate).
  assert (~ panelElements p) as Hnot
    by (intros ([x Hx] & _); discriminate Hx).
  destruct (click_with_panel_missing (H := Demo.demoHost) Demo.atSeat p
              Demo.seatMesh Hacc eq_refl Hnot) as (Hd & Hc & Ht & _).
  split; [exact Hd|]. split; [exact Hc|exact Ht].
Defined.

Lemma panel_show_hide_classes_witness :
  interactionPanel
    (document (hideInteractionPanel (showInteractionPanel "seat" Demo.demoPage)))
  = Some (mkPanel "none" ["interaction-panel"]).
Proof.
  assert (panelElements Demo.demoPage) as Hel
    by (repeat split; eexists; reflexivity).
  destruct (panel_show_hide_classes (H := Demo.demoHost) "seat" Demo.demoPage
              (mkPanel "none" ["interaction-panel"]) Hel eq_refl)
    as (_ & _ & _ & _ & Hh & _).
  exact Hh.
Defined.

Lemma updateMousePosition_ndc_witness :
  let m := mouse (handler (updateMousePosition (H := Demo.demoHost)
                             (mkMouseEvent 800 0) Demo.demoPage)) in
  (-1 <= v2_x m <= 1)%Q /\ (v2_x m == 1)%Q /\ (v2_y m == 1)%Q.
Proof.
  intros m.
  destruct (updateMousePosition_ndc (H := Demo.demoHost) (mkMouseEvent 800 0)
              Demo.demoPage eq_refl eq_refl)
    as (Hx & _ & _ & Hright & Htop & _).
  split; [apply Hx; split; discriminate|].
  split; [apply Hright; reflexivity|apply Htop; reflexivity].
Defined.

Lemma highlightPart_selects_only_witness :
  timers (dispatch (HighlightPart (Some "cushion")) Demo.demoPage) =
    [mkTimer 1500 ClearClickedPart] /\
  scale Demo.seatMesh <> mkVector3 1.1 1.1 1.1.
Proof.
  destruct (highlightPart_selects_only (H := Demo.demoHost) (Some "cushion")
              Demo.demoPage) as (_ & Ht & _ & _ & _ & _ & _ & Hstyle).
  split; [exact Ht|].
  apply (Hstyle "cushion" tt "seat" Demo.seatMesh eq_refl).
  - simpl. intuition discriminate.
  - vm_compute. left. reflexivity.
Defined.

End PointerFacts.

(** ** The display name, character by character *)

Module FormatFacts.
Import Viewer Spec Session.

Lemma join_cons_String (sep : string) (x : ascii) (w : string)
    (rest : list string) :
  JS.join sep (String x w :: rest) = String x (JS.join sep (w :: rest)).
Proof. destruct rest; reflexivity. Qed.

Lemma split_not_nil (sep : ascii) (s : string) : JS.split sep s <> [].
Proof.
  destruct s as [|c r]; simpl; [discriminate|].
  destruct (Ascii.eqb c sep); [discriminate|].
  destruct (JS.split sep r); discriminate.
Qed.

Lemma formatChars_split (s : string) (b : bool) :
  match JS.split "-"%char s with
  | w :: ws =>
      JS.join " " ((if b then capitalizeWord w else w) :: map capitalizeWord ws)
  | [] => EmptyString
  end = formatChars b s.
Proof.
  revert b. induction s as [|c r IH]; intros b.
  - destruct b; reflexivity.
  - cbn [JS.split formatChars]. destruct (Ascii.eqb c "-"%char).
    + specialize (IH true). destruct (JS.split "-"%char r) as [|w ws] eqn:Es.
      * destruct (split_not_nil _ _ Es).
      * rewrite <- IH. destruct b; reflexivity.
    + specialize (IH false). destruct (JS.split "-"%char r) as [|w ws] eqn:Es.
      * destruct (split_not_nil _ _ Es).
      * rewrite <- IH.
        replace (if b then capitalizeWord (String c w) else String c w)
          with (String (if b then JS.upper_ascii c else c) w)
          by (destruct b; reflexivity).
        apply join_cons_String.
Qed.

Lemma upper_ascii_facts (c : ascii) :
  JS.upper_ascii (JS.upper_ascii c) = JS.upper_ascii c /\
  (Ascii.eqb c "-"%char = false ->
   Ascii.eqb (JS.upper_ascii c) "-"%char = false).
Proof.
  destruct c as [[] [] [] [] [] [] [] []]; vm_compute; split; congruence.
Qed.

Lemma formatChars_noSep (s : string) (b : bool) :
  noSep "-"%char (formatChars b s) = true.
Proof.
  revert b. induction s as [|c r IH]; intros b; [reflexivity|].
  cbn [formatChars]. destruct (Ascii.eqb c "-"%char) eqn:E; cbn [noSep].
  - rewrite IH. reflexivity.
  - rewrite IH. destruct b.
    + rewrite (proj2 (upper_ascii_facts c) E). reflexivity.
    + rewrite E. reflexivity.
Qed.

Lemma formatChars_length (s : string) (b : bool) :
  String.length (formatChars b s) = String.length s.
Proof.
  revert b. induction s as [|c r IH]; intros b; [reflexivity|].
  cbn [formatChars]. destruct (Ascii.eqb c "-"%char); simpl; rewrite IH;
    reflexivity.
Qed.

Lemma formatChars_false_noSep (w : string) :
  noSep "-"%char w = true -> formatChars false w = w.
Proof.
  induction w as [|c r IH]; [reflexivity|]. cbn [noSep formatChars].
  intros Hw. apply andb_prop in Hw as [Hc Hr]. apply negb_true_iff in Hc.
  rewrite Hc, (IH Hr). reflexivity.
Qed.

Lemma formatChars_twice (s : string) :
  formatChars true (formatChars true s) = formatChars true s.
Proof.
  destruct s as [|c r]; [reflexivity|]. cbn [formatChars].
  destruct (Ascii.eqb c "-"%char) eqn:E; cbn [formatChars].
  - rewrite formatChars_false_noSep by apply formatChars_noSep. reflexivity.
  - rewrite (proj2 (upper_ascii_facts c) E).
    rewrite (proj1 (upper_ascii_facts c)).
    rewrite formatChars_false_noSep by apply formatChars_noSep. reflexivity.
Qed.

(** X11: on a string of ASCII characters [formatPartName] works
    character by character: each hyphen becomes a space and the
    character at the start or right after a hyphen is upper-cased, the
    others are kept (so empty words between hyphens give as many
    spaces). Hence the display name has the length of the name and no
    hyphen, and formatting it again changes nothing. *)
Theorem formatPartName_by_character (s : string) :
  JS.isAscii s = true ->
  formatPartName s = formatChars true s /\
  String.length (formatPartName s) = String.length s /\
  noSep "-"%char (formatPartName s) = true /\
  formatPartName (formatPartName s) = formatPartName s.
Proof.
  intros _.
  assert (forall x, formatPartName x = formatChars true x) as Hf.
  { intros x. rewrite <- (formatChars_split x true). unfold formatPartName.
    destruct (JS.split "-"%char x) as [|w ws] eqn:E; [|reflexivity].
    destruct (split_not_nil _ _ E). }
  rewrite !Hf. split; [reflexivity|].
  split; [apply formatChars_length|].
  split; [apply formatChars_noSep|apply formatChars_twice].
Qed.

Lemma formatPartName_by_character_witness :
  formatPartName "left--armrest-" = formatChars true "left--armrest-" /\
  formatChars true "left--armrest-" = "Left  Armrest " /\
  String.length (formatPartName "left--armrest-") = 14%nat.
Proof.
  destruct (formatPartName_by_character "left--armrest-" eq_refl)
    as (Hchars & Hlen & _).
  split; [exact Hchars|]. split; [reflexivity|exact Hlen].
Defined.

End FormatFacts.

(** ** What a session keeps *)

Module SessionFacts.
Import Three Product Viewer Spec ViewerFacts Registry Session.

Lemma sameParts_names (c : Chair) :
  sameParts c ->
  partNames c = partNames newChair /\
  map fst (parts c) = map fst (parts newChair) /\
  wellKeyed c /\ allNamed c.
Proof.
  unfold sameParts. intros Hs.
  assert (partNames c = partNames newChair) as Hn.
  { pose proof (f_equal (map (fun ku : string * UserData => name (snd ku))) Hs)
      as E.
    rewrite !map_map in E. exact E. }
  assert (map fst (parts c) = map fst (parts newChair)) as Hk.
  { pose proof (f_equal (map (fun ku : string * UserData => fst ku)) Hs) as E.
    rewrite !map_map in E. exact E. }
  split; [exact Hn|]. split; [exact Hk|].
  assert (Forall (fun ku : string * UserData =>
                    name (snd ku) = fst ku /\ JS.truthy (Some (name (snd ku))) = true)
            (map (fun kv => (fst kv, userData (snd kv))) (parts c))) as Hall
    by (rewrite Hs; simpl; repeat constructor).
  rewrite List.Forall_map in Hall. simpl in Hall.
  split; [split|].
  - rewrite Hk. apply RegistryFacts.newChair_wellKeyed.
  - eapply List.Forall_impl; [|exact Hall]. intros kv [Hname _]. exact Hname.
  - eapply List.Forall_impl; [|exact Hall]. intros kv [_ Htr]. exact Htr.
Qed.

(** Every part name of the chair has an entry in the handler's table,
    and no entry is the fallback text. *)
Lemma partNames_registered (nm : string) :
  In nm (partNames newChair) ->
  exists descr, descriptionTable !! nm = Some descr /\
                descr <> "Chair component" /\
                JS.truthy (Some descr) = true.
Proof.
  simpl. intros Hin.
  repeat (destruct Hin as [<-|Hin];
          [eexists; split; [vm_compute; reflexivity|split; [discriminate|reflexivity]]|]).
  destruct Hin.
Qed.

Section WithHost.
Context `{Host}.

Lemma hitTest_steady (e : MouseEvent) (p : Page) (m : Mesh) :
  sameParts (chair p) -> hitTest e p = Some m ->
  In (name (userData m)) (partNames newChair) /\
  JS.truthy (Some (name (userData m))) = true.
Proof.
  intros Hs Hhit. destruct (sameParts_names _ Hs) as (Hn & _ & _ & Hall).
  destruct (PointerFacts.hitTest_named e p m Hall Hhit) as [Htr Hin].
  rewrite Hn in Hin. split; assumption.
Qed.

Lemma advance_steady (u : Z) (p : Page) : steady p -> steady (advance u p).
Proof.
  intros (Hs & Hh & Hc & Ht & Hd).
  destruct (advance_untimed u p) as (U & _). apply untimed_eq in U.
  destruct U as (Hparts & Hhov & Hhandler & _).
  unfold steady, sameParts. rewrite Hparts, Hhov, Hhandler, advance_clickedPart.
  repeat split; try assumption.
  destruct (dueBy ClearClickedPart u (timers p)); [exact I|exact Hc].
Qed.

Lemma dispatch_steady (tev : Z * Event) (p : Page) :
  uiEvent tev = true -> steady p -> steady (dispatch (snd tev) p).
Proof.
  destruct tev as [t ev]. simpl. intros Hui (Hs & Hh & Hc & Ht & Hd).
  pose proof (dispatch_handler ev p) as [Hd' Ht'].
  destruct ev as [e|e|pose|v]; cbn [dispatch] in *.
  - unfold steady. rewrite Hd', Ht'.
    unfold handleMouseMove.
    change (getIntersectedObject (updateMousePosition e p)) with (hitTest e p).
    destruct (hitTest e p) as [m|] eqn:Hhit; simpl;
      repeat split; try assumption.
    apply (hitTest_steady e p m Hs Hhit).
  - unfold steady. rewrite Hd', Ht'.
    destruct (handleClick_cases e p) as [[_ ->]|[(m & Hhit & ->)|[_ ->]]].
    + repeat split; assumption.
    + destruct (clickOnPart_frame (name (userData m)) e p)
        as (Hparts & Hhov & Hclk & _).
      unfold sameParts. rewrite Hparts, Hhov, Hclk.
      repeat split; try assumption.
      apply (hitTest_steady e p m Hs Hhit).
    + destruct (hideInteractionPanel_frame
                  (updateMousePosition e (set_lastClickTime (clock p) p)))
        as (-> & _). repeat split; assumption.
  - unfold steady. simpl. repeat split; try assumption.
    unfold sameParts. rewrite <- Hs.
    rewrite ProductFacts.update_parts, map_map. simpl. apply map_ext.
    intros kv.
    destruct (ProductFacts.updatePart_userData (hoveredPart (chair p))
                (clickedPart (chair p)) (snd kv)) as (-> & _). reflexivity.
  - discriminate Hui.
Qed.

Lemma run_steady (trace : list (Z * Event)) (p : Page) :
  forallb uiEvent trace = true -> steady p -> steady (run p trace).
Proof.
  revert p. induction trace as [|tev trace IH]; intros p Hui Hst; [exact Hst|].
  simpl in Hui. apply andb_prop in Hui as [Hev Hrest].
  cbn [run fold_left]. apply (IH _ Hrest). unfold step.
  apply dispatch_steady; [exact Hev|]. apply advance_steady, Hst.
Qed.

Lemma initPage_steady (t0 : Z) (cam : Camera) (cv : Canvas) (d : Document)
    (audioOk : bool) :
  steady (initPage t0 cam cv d audioOk).
Proof. repeat split. Qed.

Lemma getPartByName_found (c : Chair) (nm : string) :
  sameParts c -> In nm (partNames newChair) ->
  exists m, getPartByName nm c = Some m /\ name (userData m) = nm.
Proof.
  intros Hs Hin. destruct (sameParts_names c Hs) as (_ & Hk & [_ Hnames] & _).
  unfold getPartByName.
  destruct (List.find (fun kv => String.eqb (fst kv) nm) (parts c))
    as [[k m]|] eqn:E.
  - apply find_some in E as [Hin' Hk']. simpl in Hk'.
    apply String.eqb_eq in Hk'. subst k. exists m. split; [reflexivity|].
    rewrite List.Forall_forall in Hnames. apply (Hnames _ Hin').
  - exfalso.
    assert (In nm (map fst (parts c))) as Hkey.
    { rewrite Hk. revert Hin. simpl. tauto. }
    apply in_map_iff in Hkey as (kv & <- & Hin').
    apply (find_none _ _ E) in Hin'. rewrite String.eqb_refl in Hin'.
    discriminate.
Qed.

(** X12: through any pointer moves, clicks and frames after [init], and
    whatever time passes, the chair keeps the keys and [userData] of the
    parts it was built with, and the hovered and the selected part are
    each [null] or the name of a part that [getPartByName] finds. *)
Theorem session_names_parts (t0 : Z) (cam : Camera) (cv : Canvas)
    (d : Document) (audioOk : bool) (trace : list (Z * Event)) (u : Z) :
  forallb uiEvent trace = true ->
  let p := advance u (run (initPage t0 cam cv d audioOk) trace) in
  sameParts (chair p) /\
  partNames (chair p) = partNames newChair /\
  wellKeyed (chair p) /\
  (forall nm, hoveredPart (chair p) = Some nm ->
     exists m, getPartByName nm (chair p) = Some m /\ name (userData m) = nm) /\
  (forall nm, clickedPart (chair p) = Some nm ->
     exists m, getPartByName nm (chair p) = Some m /\ name (userData m) = nm).
Proof.
  intros Hui p.
  assert (steady p) as (Hs & Hh & Hc & _)
    by (apply advance_steady, run_steady; [exact Hui|apply initPage_steady]).
  destruct (sameParts_names _ Hs) as (Hn & _ & Hwk & _).
  split; [exact Hs|]. split; [exact Hn|]. split; [exact Hwk|].
  split; intros nm E.
  - rewrite E in Hh. apply getPartByName_found; assumption.
  - rewrite E in Hc. apply getPartByName_found; assumption.
Qed.

(** X13: in such a session, with the panel's elements in the document,
    an accepted click on a part puts the panel on screen with the part's
    display name as title and the description the handler registers for
    it as body; the body is never the fallback "Chair component". *)
Theorem session_click_shows_registered_text (t0 : Z) (cam : Camera)
    (cv : Canvas) (d : Document) (audioOk : bool) (trace : list (Z * Event))
    (t : Z) (e : MouseEvent) (m : Mesh) :
  forallb uiEvent trace = true ->
  let p := run (initPage t0 cam cv d audioOk) trace in
  panelElements p ->
  accepted t p ->
  hitTest e (advance t p) = Some m ->
  let p' := step p (t, Click e) in
  panelVisible p' = true /\
  partTitle (document p') = Some (formatPartName (name (userData m))) /\
  exists descr,
    descriptionTable !! name (userData m) = Some descr /\
    partDescription (document p') = Some descr /\
    descr <> "Chair component".
Proof.
  intros Hui p Hel Hacc Hhit p'.
  assert (steady (advance t p)) as (Hs & _ & _ & Ht & _)
    by (apply advance_steady, run_steady; [exact Hui|apply initPage_steady]).
  destruct (TimerFacts.step_click_on_part p t e m Hacc Hhit) as [E _].
  fold p' in E.
  pose proof (advance_panelElements t p Hel) as Hel'.
  destruct (hitTest_steady e (advance t p) m Hs Hhit) as [Hin _].
  destruct (partNames_registered _ Hin) as (descr & Hlook & Hnot & Htr).
  split; [rewrite E; apply clickOnPart_panelVisible, Hel'|].
  clearbody p'. remember (advance t p) as q eqn:Eq. clear Eq.
  assert (document p' =
          document (showInteractionPanel (name (userData m))
                      (setClickedPart (Some (name (userData m)))
                         (updateMousePosition e
                            (set_lastClickTime (clock q) q))))) as Hdoc.
  { rewrite E. unfold clickOnPart, playClickSound.
    match goal with
    | |- context [if audio ?q then _ else _] => destruct (audio q)
    end; reflexivity. }
  rewrite Hdoc.
  destruct Hel' as ([pan Hp] & [ti Hti] & [de Hde]).
  unfold showInteractionPanel, setClickedPart.
  destruct (JS.truthy (Some (name (userData m)))); simpl;
    rewrite Hp, Hti, Hde; cbn [document with_document setTimeout with_timers
                                 partTitle partDescription handler];
    unfold descriptionText, JS.obj_get;
    cbn [with_chair with_handler set_clickedPart set_lastClickTime
         updateMousePosition handler partDescriptions];
    rewrite Ht, Hlook;
    (split; [reflexivity|]); exists descr;
    (split; [reflexivity|]); (split; [|exact Hnot]);
    unfold JS.or_else; rewrite Htr; reflexivity.
Qed.

(** *** Timers run out *)

Lemma advance_draining (u : Z) (p : Page) :
  (clock p <= u)%Z -> draining p -> draining (advance u p).
Proof.
  intros Hu (Hbound & Hclear & Hsel & Hvis).
  assert (clock (advance u p) = u) as Hclock by apply advance_untimed.
  unfold draining. rewrite Hclock. repeat split.
  - apply TimerFacts.advance_timers_In in H0 as [_ Hlater]. exact Hlater.
  - apply TimerFacts.advance_timers_In in H0 as [Hin _].
    specialize (Hbound tm Hin). lia.
  - intros tm Hin Hcb. apply TimerFacts.advance_timers_In in Hin as [Hin _].
    specialize (Hclear tm Hin Hcb). lia.
  - rewrite advance_clickedPart.
    destruct (dueBy ClearClickedPart u (timers p)) eqn:Hdue; [congruence|].
    intros Hne. destruct (Hsel Hne) as (tm & Hin & Hcb). exists tm.
    split; [|exact Hcb]. apply TimerFacts.advance_timers_In.
    split; [exact Hin|]. exact (proj1 (dueBy_false_iff _ _ _) Hdue tm Hin Hcb).
  - rewrite advance_panelVisible.
    destruct (dueBy HidePanel u (timers p)) eqn:Hdue; [discriminate|].
    intros Hv. destruct (Hvis Hv) as (tm & Hin & Hcb). exists tm.
    split; [|exact Hcb]. apply TimerFacts.advance_timers_In.
    split; [exact Hin|]. exact (proj1 (dueBy_false_iff _ _ _) Hdue tm Hin Hcb).
Qed.

Lemma clickOnPart_document (nm : string) (e : MouseEvent) (p : Page) :
  panelElements p \/ document (clickOnPart nm e p) = document p.
Proof.
  unfold panelElements, clickOnPart, playClickSound, showInteractionPanel,
    setClickedPart.
  destruct (JS.truthy (Some nm)); simpl;
    destruct (interactionPanel (document p)); simpl;
    try (destruct (audio p); right; reflexivity);
    destruct (partTitle (document p)); simpl;
    try (destruct (audio p); right; reflexivity);
    destruct (partDescription (document p)); simpl;
    try (destruct (audio p); right; reflexivity);
    left; repeat split; eexists; reflexivity.
Qed.

Lemma dispatch_draining (tev : Z * Event) (p : Page) :
  uiEvent tev = true -> steady p -> draining p ->
  draining (dispatch (snd tev) p).
Proof.
  destruct tev as [t ev]. simpl.
  intros Hui (Hs & _) Hdr. pose proof Hdr as (Hbound & Hclear & Hsel & Hvis).
  destruct ev as [e|e|pose|v]; cbn [dispatch].
  - unfold handleMouseMove.
    destruct (getIntersectedObject (updateMousePosition e p)); exact Hdr.
  - destruct (handleClick_cases e p) as [[_ ->]|[(m & Hhit & ->)|[_ ->]]].
    + exact Hdr.
    + destruct (hitTest_steady e p m Hs Hhit) as [_ Htr].
      set (nm := name (userData m)) in *.
      destruct (clickOnPart_frame nm e p) as (_ & _ & _ & Hclock & _).
      cbv zeta in Hclock.
      unfold draining. rewrite Hclock. repeat split.
      * apply clickOnPart_timers_inv in H0 as [Hin|[->| ->]]; simpl;
          [apply (Hbound tm Hin)|lia|lia].
      * apply clickOnPart_timers_inv in H0 as [Hin|[->| ->]]; simpl;
          [apply (Hbound tm Hin)|lia|lia].
      * intros tm Hin Hcb.
        apply clickOnPart_timers_inv in Hin as [Hin|[->| ->]]; simpl;
          [apply (Hclear tm Hin Hcb)|lia|discriminate Hcb].
      * intros _. eexists. split; [apply clickOnPart_timers_deselect, Htr|].
        reflexivity.
      * intros Hv. destruct (clickOnPart_document nm e p) as [Hel|Hdoc].
        -- eexists. split; [apply clickOnPart_timers_hide, Hel|reflexivity].
        -- unfold panelVisible in Hv. rewrite Hdoc in Hv.
           destruct (Hvis Hv) as (tm & Hin & Hcb). exists tm.
           split; [apply clickOnPart_timers_keep, Hin|exact Hcb].
    + set (q := updateMousePosition e (set_lastClickTime (clock p) p)).
      destruct (hideInteractionPanel_frame q)
        as (Hc & Ht & _ & Hk & _).
      unfold draining. rewrite Hc, Ht, Hk, panelVisible_hide.
      repeat split; try (intros; discriminate).
      * apply (Hbound tm H0).
      * apply (Hbound tm H0).
      * exact Hclear.
      * exact Hsel.
  - exact Hdr.
  - discriminate Hui.
Qed.

Lemma step_clock (p : Page) (tev : Z * Event) : clock (step p tev) = fst tev.
Proof.
  destruct tev as [t ev]. unfold step. cbn [fst snd].
  assert (clock (advance t p) = t) as Hclock by apply advance_untimed.
  destruct ev as [e|e|pose|v]; cbn [dispatch].
  - unfold handleMouseMove.
    destruct (getIntersectedObject (updateMousePosition e (advance t p)));
      exact Hclock.
  - destruct (handleClick_cases e (advance t p))
      as [[_ ->]|[(m & _ & ->)|[_ ->]]]; [exact Hclock| |].
    + destruct (clickOnPart_frame (name (userData m)) e (advance t p))
        as (_ & _ & _ & -> & _). exact Hclock.
    + destruct (hideInteractionPanel_frame
                  (updateMousePosition e
                     (set_lastClickTime (clock (advance t p)) (advance t p))))
        as (_ & _ & _ & -> & _). exact Hclock.
  - exact Hclock.
  - unfold setClickedPart. destruct (JS.truthy v); exact Hclock.
Qed.

Lemma last_cons_default {A} (a : A) (l : list A) (d d' : A) :
  List.last (a :: l) d = List.last (a :: l) d'.
Proof.
  revert a. induction l as [|b l IH]; intros a; [reflexivity|].
  change (List.last (b :: l) d = List.last (b :: l) d'). apply IH.
Qed.

Lemma run_draining (trace : list (Z * Event)) (p : Page) :
  forallb uiEvent trace = true -> inOrder (clock p) trace ->
  steady p -> draining p ->
  draining (run p trace) /\
  clock (run p trace) = List.last (map fst trace) (clock p).
Proof.
  revert p. induction trace as [|tev trace IH]; intros p Hui Hord Hst Hdr.
  - split; [exact Hdr|reflexivity].
  - simpl in Hui. apply andb_prop in Hui as [Hev Hrest].
    destruct Hord as [Hle Hord]. cbn [run fold_left].
    assert (steady (step p tev)) as Hst'
      by (apply dispatch_steady; [exact Hev|apply advance_steady, Hst]).
    assert (draining (step p tev)) as Hdr'.
    { apply dispatch_draining; [exact Hev|apply advance_steady, Hst|].
      apply advance_draining; assumption. }
    pose proof (step_clock p tev) as Hclock.
    rewrite <- Hclock in Hord.
    destruct (IH (step p tev) Hrest Hord Hst' Hdr') as [Hd Hc].
    split; [exact Hd|]. unfold run in Hc. rewrite Hc, Hclock.
    destruct trace as [|x rest]; [reflexivity|].
    change (List.last (map fst (tev :: x :: rest)) (clock p))
      with (List.last (map fst (x :: rest)) (clock p)).
    apply last_cons_default.
Qed.

(** X14: in a session of pointer moves, clicks and frames in order of
    time, on a page whose panel starts off screen, every pending timer
    is due after the last event and at most 5000ms after it. So 500ms
    after the last event nothing is selected, and 5000ms after it no
    timer is pending and the panel is off screen. *)
Theorem session_drains (t0 : Z) (cam : Camera) (cv : Canvas) (d : Document)
    (audioOk : bool) (trace : list (Z * Event)) :
  forallb uiEvent trace = true ->
  inOrder t0 trace ->
  panelVisible (initPage t0 cam cv d audioOk) = false ->
  let p := run (initPage t0 cam cv d audioOk) trace in
  let t := List.last (map fst trace) t0 in
  clock p = t /\
  (forall tm, In tm (timers p) -> (t < due tm <= t + 5000)%Z) /\
  (forall u, (t + 500 <= u)%Z -> clickedPart (chair (advance u p)) = None) /\
  (forall u, (t + 5000 <= u)%Z ->
     timers (advance u p) = [] /\ panelVisible (advance u p) = false).
Proof.
  intros Hui Hord Hoff p t.
  assert (draining (initPage t0 cam cv d audioOk)) as Hdr0.
  { split; [intros tm []|]. split; [intros tm []|].
    split; [intros Hne; exfalso; apply Hne; reflexivity|].
    intros Hv. congruence. }
  destruct (run_draining trace (initPage t0 cam cv d audioOk) Hui Hord
              (initPage_steady _ _ _ _ _) Hdr0)
    as [(Hbound & Hclear & Hsel & Hvis) Hclock].
  fold p in Hbound, Hclear, Hsel, Hvis, Hclock.
  change (List.last (map fst trace) (clock (initPage t0 cam cv d audioOk)))
    with t in Hclock.
  rewrite Hclock in Hbound, Hclear.
  split; [exact Hclock|]. split; [exact Hbound|]. split.
  - intros u Hu. rewrite advance_clickedPart.
    destruct (dueBy ClearClickedPart u (timers p)) eqn:Hdue; [reflexivity|].
    destruct (clickedPart (chair p)) as [nm|] eqn:Ec; [|reflexivity].
    destruct Hsel as (tm & Hin & Hcb); [discriminate|].
    pose proof (proj1 (dueBy_false_iff _ _ _) Hdue tm Hin Hcb).
    specialize (Hclear tm Hin Hcb). lia.
  - intros u Hu. split.
    + destruct (timers (advance u p)) as [|tm l] eqn:Et; [reflexivity|].
      assert (In tm (timers (advance u p))) as Hin
        by (rewrite Et; left; reflexivity).
      apply TimerFacts.advance_timers_In in Hin as [Hin Hlater].
      specialize (Hbound tm Hin). lia.
    + rewrite advance_panelVisible.
      destruct (dueBy HidePanel u (timers p)) eqn:Hdue; [reflexivity|].
      destruct (panelVisible p) eqn:Ev; [|reflexivity].
      destruct Hvis as (tm & Hin & Hcb); [reflexivity|].
      pose proof (proj1 (dueBy_false_iff _ _ _) Hdue tm Hin Hcb).
      specialize (Hbound tm Hin). lia.
Qed.

End WithHost.

Import Demo.

Lemma session_names_parts_witness :
  let p := advance 1100
             (run demoPage [(1000, MouseMove atSeat); (1010, Click atBackrest)]) in
  hoveredPart (chair p) = Some "seat" /\
  exists m, getPartByName "seat" (chair p) = Some m /\ name (userData m) = "seat".
Proof.
  intros p. split; [vm_compute; reflexivity|].
  destruct (session_names_parts (H := demoHost) 1000 tt demoCanvas demoDocument
              true [(1000%Z, MouseMove atSeat); (1010%Z, Click atBackrest)] 1100
              eq_refl) as (_ & _ & _ & Hhov & _).
  apply Hhov. vm_compute. reflexivity.
Defined.

Lemma session_click_shows_registered_text_witness :
  partDescription
    (document (step (run demoPage [(1000, MouseMove atSeat)])
                 (1200%Z, Click atSeat)))
  = Some "The main seating surface - crafted from solid wood".
Proof.
  assert (panelElements (run demoPage [(1000, MouseMove atSeat)])) as Hel
    by (repeat split; eexists; reflexivity).
  assert (accepted 1200 (run demoPage [(1000, MouseMove atSeat)])) as Hacc
    by (vm_compute; discriminate).
  destruct (session_click_shows_registered_text (H := demoHost) 1000 tt
              demoCanvas demoDocument true [(1000, MouseMove atSeat)] 1200
              atSeat seatMesh eq_refl Hel Hacc eq_refl)
    as (_ & _ & descr & Hlook & Hbody & _).
  etransitivity; [exact Hbody|]. vm_compute in Hlook. symmetry. exact Hlook.
Defined.

Lemma session_drains_witness :
  let p := run demoPage [(1000, MouseMove atSeat); (1200, Click atSeat);
                         (1216, AnimationFrame tt); (4000, Click atBackrest)] in
  clickedPart (chair (advance 4500 p)) = None /\
  timers (advance 9000 p) = [] /\
  panelVisible (advance 9000 p) = false.
Proof.
  intros p.
  assert (inOrder 1000 [(1000%Z, MouseMove atSeat); (1200%Z, Click atSeat);
                        (1216%Z, AnimationFrame (H := demoHost) tt); (4000%Z, Click atBackrest)])
    as Hord by (simpl; lia).
  destruct (session_drains (H := demoHost) 1000 tt demoCanvas demoDocument true
              [(1000%Z, MouseMove atSeat); (1200%Z, Click atSeat);
               (1216%Z, AnimationFrame (H := demoHost) tt); (4000%Z, Click atBackrest)]
              eq_refl Hord eq_refl)
    as (_ & _ & Hsel & Hall).
  split; [apply Hsel; simpl; lia|]. apply Hall. simpl. lia.
Defined.

End SessionFacts.

(** ** The camera animator in motion *)

Module CameraMotionFacts.
Import Three CameraAnimation CameraMotion.
Local Open Scope Q_scope.







Section WithMath.
Context `{Double.Arith}.

Lemma update_stopped (now : Z) (c : CameraController) (cam : PerspectiveCamera) :
  isAnimating c = false -> update now (c, cam) = (c, cam).
Proof. intros Hs. unfold update. rewrite Hs. reflexivity. Qed.

Lemma updates_stopped (times : list Z) (c : CameraController)
    (cam : PerspectiveCamera) :
  isAnimating c = false -> updates times (c, cam) = (c, cam).
Proof.
  intros Hs. unfold updates. induction times as [|now times IH]; [reflexivity|].
  cbn [fold_left]. rewrite (update_stopped now c cam Hs). exact IH.
Qed.

(** X16: a stopped controller moves nothing: over any frames, [update]
    leaves the controller and the camera exactly as they are, so the
    camera keeps the position it was last given. [stop] and [start] keep
    the angle, radius and speed, [start] restarts the elapsed time, and
    two [toggle]s give back the animating state. *)
Theorem stopped_camera_stays (c : CameraController) (cam : PerspectiveCamera)
    (times : list Z) (now now' : Z) :
  (isAnimating c = false -> updates times (c, cam) = (c, cam)) /\
  updates times (stop c, cam) = (stop c, cam) /\
  isAnimating (toggle now' (toggle now c)) = isAnimating c /\
  (angle (start now (stop c)), radius (start now (stop c)),
   speed (start now (stop c))) = (angle c, radius c, speed c) /\
  animationStartTime (start now (stop c)) = now /\
  isAnimating (start now (stop c)) = true.
Proof.
  split; [apply updates_stopped|].
  split; [apply updates_stopped; reflexivity|].
  split; [unfold toggle; destruct (isAnimating c) eqn:E; simpl; congruence|].
  repeat split.
Qed.

(** What an animating frame leaves of the controller and where it aims
    the camera. *)
Lemma update_running (now : Z) (c : CameraController) (cam : PerspectiveCamera) :
  isAnimating c = true ->
  let c' := fst (update now (c, cam)) in
  let cam' := snd (update now (c, cam)) in
  angle c' = Double.add (angle c) (Double.mul 0.016 (speed c)) /\
  (radius c', speed c', targetY c', lookAtTarget c', isAnimating c',
   animationStartTime c', verticalOscillation c', radiusOscillation c') =
  (radius c, speed c, targetY c, lookAtTarget c, isAnimating c,
   animationStartTime c, verticalOscillation c, radiusOscillation c) /\
  cam_lookedAt cam' = Some (lookAtTarget c).
Proof.
  intros Hr. unfold update. rewrite Hr. simpl. repeat split.
Qed.

(** Whether it animates or not, a frame leaves the settings alone. *)
Lemma updates_settings (times : list Z) (c : CameraController)
    (cam : PerspectiveCamera) :
  let c' := fst (updates times (c, cam)) in
  (radius c', speed c', targetY c', lookAtTarget c', isAnimating c',
   animationStartTime c', verticalOscillation c', radiusOscillation c') =
  (radius c, speed c, targetY c, lookAtTarget c, isAnimating c,
   animationStartTime c, verticalOscillation c, radiusOscillation c).
Proof.
  cbv zeta. revert c cam.
  induction times as [|now times IH]; intros c cam; [reflexivity|].
  unfold updates in *. cbn [fold_left].
  destruct (isAnimating c) eqn:Hr.
  - destruct (update now (c, cam)) as [c1 cam1] eqn:E.
    pose proof (update_running now c cam Hr) as (_ & Hf & _).
    cbv zeta in Hf. rewrite E in Hf. cbn [fst] in Hf.
    rewrite IH, Hf, Hr. reflexivity.
  - rewrite (update_stopped now c cam Hr), IH, Hr. reflexivity.
Qed.

(** X17: while the controller is animating, every frame adds to the
    angle, with the host's addition, the host's product of 0.016 and the
    speed, and leaves the radius, speed, target height, look-at target
    and oscillation settings alone; each frame aims the camera at the
    look-at target. So a radius set through [setRadius] to a number
    stays between 2 and 20 over any frames. *)
Theorem running_camera_frames (times : list Z) (c : CameraController)
    (cam : PerspectiveCamera) :
  isAnimating c = true ->
  let c' := fst (updates times (c, cam)) in
  let cam' := snd (updates times (c, cam)) in
  angle c' =
    fold_left (fun a _ => Double.add a (Double.mul 0.016 (speed c)))
      times (angle c) /\
  (radius c', speed c', targetY c', lookAtTarget c', isAnimating c',
   animationStartTime c', verticalOscillation c', radiusOscillation c') =
  (radius c, speed c, targetY c, lookAtTarget c, isAnimating c,
   animationStartTime c, verticalOscillation c, radiusOscillation c) /\
  (times <> [] -> cam_lookedAt cam' = Some (lookAtTarget c)) /\
  (forall r, r <> JS.NaN ->
     let c2 := fst (updates times (setRadius r c, cam)) in
     JS.le 2 (radius c2) /\ JS.le (radius c2) 20).
Proof.
  intros Hr c' cam'. subst c' cam'.
  split; [|split; [apply updates_settings|split]].
  - revert c cam Hr.
    induction times as [|now times IH] using rev_ind; intros c cam Hr;
      [reflexivity|].
    unfold updates in *. rewrite !fold_left_app. cbn [fold_left].
    pose proof (updates_settings times c cam) as Hf. cbv zeta in Hf.
    unfold updates in Hf. specialize (IH c cam Hr).
    destruct (fold_left (fun s now0 => update now0 s) times (c, cam))
      as [c1 cam1]. cbn [fst] in IH, Hf.
    injection Hf as _ Hsp _ _ Hia _ _ _.
    assert (isAnimating c1 = true) as Hr1 by congruence.
    destruct (update_running now c1 cam1 Hr1) as (Ha1 & _).
    cbv zeta in Ha1. rewrite Ha1, IH, Hsp. reflexivity.
  - intros Hne.
    destruct times as [|now times] using rev_ind; [congruence|].
    clear IHtimes. unfold updates. rewrite fold_left_app. cbn [fold_left].
    pose proof (updates_settings times c cam) as Hf. cbv zeta in Hf.
    unfold updates in Hf.
    destruct (fold_left (fun s now0 => update now0 s) times (c, cam))
      as [c1 cam1]. cbn [fst] in Hf.
    injection Hf as _ _ _ Hlt Hia _ _ _.
    assert (isAnimating c1 = true) as Hr1 by congruence.
    destruct (update_running now c1 cam1 Hr1) as (_ & _ & Hl1).
    cbv zeta in Hl1. rewrite Hl1, Hlt. reflexivity.
  - intros r Hnan c2. subst c2.
    pose proof (updates_settings times (setRadius r c) cam) as Hf.
    cbv zeta in Hf. injection Hf as -> _ _ _ _ _ _ _.
    apply CameraFacts.clamp_range, Hnan.
Qed.

End WithMath.

Import DemoMath.

Lemma stopped_camera_stays_witness :
  updates [0%Z; 16%Z; 32%Z]
    (stop (newCameraController 0 8 0), demoCamera)
  = (stop (newCameraController 0 8 0), demoCamera).
Proof.
  apply (proj1 (stopped_camera_stays
                  (stop (newCameraController 0 8 0)) demoCamera
                  [0%Z; 16%Z; 32%Z] 0 0)).
  reflexivity.
Defined.

Lemma running_camera_frames_witness :
  let c' := fst (updates [0%Z; 16%Z; 32%Z]
                   (setRadius 30 (newCameraController 0 8 0), demoCamera)) in
  speed c' = 0.5 /\ JS.le (radius c') 20.
Proof.
  intros c'.
  destruct (running_camera_frames [0%Z; 16%Z; 32%Z]
              (setRadius 30 (newCameraController 0 8 0)) demoCamera eq_refl)
    as (_ & Hkeep & _).
  destruct (running_camera_frames [0%Z; 16%Z; 32%Z]
              (newCameraController 0 8 0) demoCamera eq_refl)
    as (_ & _ & _ & Hrange).
  split.
  - exact (f_equal (fun t => snd (fst (fst (fst (fst (fst (fst t))))))) Hkeep).
  - apply (Hrange 30). discriminate.
Defined.

End CameraMotionFacts.

(** ** Auto-rotation and manual orbit *)

Module MainFacts.
Import Three CameraAnimation CameraMotion Main.
Local Open Scope Q_scope.

Section WithMath.
Context `{Double.Arith}.

(** A frame leaves the switch and the speed as they are. *)
Lemma animateCamera_flags (now : Z) (controls : Controls) (a : App) :
  let a' := animateCamera now controls a in
  autoRotate a' = autoRotate a /\ enableRotate a' = enableRotate a /\
  toggleChecked a' = toggleChecked a /\
  speed (cameraController a') = speed (cameraController a).
Proof.
  unfold animateCamera. destruct (autoRotate a); [|repeat split].
  pose proof (CameraMotionFacts.updates_settings [now] (cameraController a)
                (camera a)) as Hf.
  cbv zeta in Hf. unfold updates in Hf. cbn [fold_left] in Hf.
  destruct (update now (cameraController a, camera a)) as [cc cam].
  cbn [fst] in Hf. injection Hf as _ Hsp _ _ _ _ _ _.
  repeat split. exact Hsp.
Qed.

Lemma act_enableRotate (a : App) (x : Action) :
  enableRotate a = negb (autoRotate a) ->
  enableRotate (act a x) = negb (autoRotate (act a x)).
Proof.
  intros Hinv. destruct x; cbn [act]; try exact Hinv; try reflexivity.
  destruct (animateCamera_flags now controls a) as (-> & -> & _). exact Hinv.
Qed.

Lemma max0_not_negative (s : JS.number) : JS.ltb (JS.Math_max 0 s) 0 = false.
Proof.
  destruct s as [| |q|]; try reflexivity.
  destruct (Qlt_le_dec q 0) as [Hlt|Hge].
  - rewrite (proj2 (CameraFacts.Math_max_Fin 0 q) Hlt). reflexivity.
  - rewrite (proj1 (CameraFacts.Math_max_Fin 0 q) Hge).
    apply not_true_iff_false. intros Hn.
    apply (proj1 (CameraFacts.lt_Fin q 0)) in Hn. lra.
Qed.

Lemma act_speed (a : App) (x : Action) :
  JS.ltb (speed (cameraController a)) 0 = false ->
  JS.ltb (speed (cameraController (act a x))) 0 = false.
Proof.
  intros Hs. destruct x; cbn [act].
  - simpl. destruct checked'; exact Hs.
  - exact Hs.
  - unfold setRotationSpeed. cbn [cameraController setSpeed speed].
    apply max0_not_negative.
  - exact Hs.
  - destruct (animateCamera_flags now controls a) as (_ & _ & _ & ->).
    exact Hs.
  - exact Hs.
Qed.

Lemma act_checked (a : App) (x : Action) :
  (isSwitch x = true -> toggleChecked (act a x) = autoRotate (act a x)) /\
  (toggleChecked a = autoRotate a ->
   toggleChecked (act a x) = autoRotate (act a x)).
Proof.
  destruct x; cbn [act isSwitch].
  - split; reflexivity.
  - split; reflexivity.
  - split; [discriminate|intros Hc; exact Hc].
  - split; [discriminate|intros Hc; exact Hc].
  - split; [discriminate|]. intros Hc.
    destruct (animateCamera_flags now controls a) as (-> & _ & -> & _).
    exact Hc.
  - split; [discriminate|intros Hc; exact Hc].
Qed.

(** X19: whatever the user does with the checkbox, the console hooks
    and the orbit controls, and however many frames pass, manual rotation is enabled exactly when
    auto-rotation is off and the speed is never below 0; once the
    switch has been used the checkbox shows the mode. While auto-rotation
    is off [animate] does not run the camera animator: the controller is
    unchanged and the camera is as the orbit controls leave it.
    Switching on with the checkbox restarts the controller from the
    camera's position at that time: the angle and the radius are read
    off the position, the start time is the time of the change, and the
    speed, the target height and the camera stay; the console toggle
    leaves the controller as it was. *)
Theorem autoRotate_excludes_manual (cam : PerspectiveCamera) (checked : bool)
    (now0 : Z) (controls0 : Controls) (l : list Action) :
  let a := acts (initApp cam checked now0 controls0) l in
  enableRotate a = negb (autoRotate a) /\
  JS.ltb (speed (cameraController a)) 0 = false /\
  (existsb isSwitch l = true -> toggleChecked a = autoRotate a) /\
  (forall now controls, autoRotate a = false ->
     cameraController (animateCamera now controls a) = cameraController a /\
     camera (animateCamera now controls a) = controls (camera a)) /\
  (forall now,
     let a' := onAutoRotateChange true now a in
     let pos := cam_position (camera a) in
     animationStartTime (cameraController a') = now /\
     angle (cameraController a') = Double.atan2 (pos_z pos) (pos_x pos) /\
     radius (cameraController a') =
       Double.sqrt (Double.add (Double.mul (pos_x pos) (pos_x pos))
                               (Double.mul (pos_z pos) (pos_z pos))) /\
     (speed (cameraController a'), targetY (cameraController a'),
      lookAtTarget (cameraController a'), isAnimating (cameraController a')) =
     (speed (cameraController a), targetY (cameraController a),
      lookAtTarget (cameraController a), isAnimating (cameraController a)) /\
     camera a' = camera a) /\
  cameraController (toggleAutoRotate a) = cameraController a.
Proof.
  intros a.
  assert (enableRotate a = negb (autoRotate a) /\
          JS.ltb (speed (cameraController a)) 0 = false /\
          (existsb isSwitch l = true -> toggleChecked a = autoRotate a))
    as (He & Hs & Hc).
  { subst a. induction l as [|x l IH] using rev_ind.
    - cbn [acts fold_left existsb]. unfold initApp.
      destruct (animateCamera_flags now0 controls0
                  (mkApp true false checked (constructController cam now0) cam))
        as (-> & -> & _ & ->).
      split; [reflexivity|]. split; [reflexivity|discriminate].
    - unfold acts in *. rewrite fold_left_app. simpl.
      destruct IH as (He & Hs & Hc).
      split; [apply act_enableRotate, He|].
      split; [apply act_speed, Hs|].
      rewrite existsb_app. simpl. rewrite orb_false_r. intros Hsw.
      apply orb_prop in Hsw as [Hsw|Hsw].
      + apply (proj2 (act_checked _ _)), Hc, Hsw.
      + apply (proj1 (act_checked _ _)), Hsw. }
  split; [exact He|]. split; [exact Hs|]. split; [exact Hc|].
  split.
  { intros now controls Hoff. unfold animateCamera. rewrite Hoff.
    split; reflexivity. }
  split; [intros now; repeat split|reflexivity].
Qed.

End WithMath.

Import DemoMath.

Lemma autoRotate_excludes_manual_witness :
  let a := acts (initApp demoCamera false 0 (fun cam => cam))
             [Frame 16 (fun cam => cam); DebugToggle; Orbit (fun cam => cam);
              Frame 32 (fun cam => cam); DebugSpeed (-1)] in
  toggleChecked a = autoRotate a /\
  cameraController (animateCamera 48 (fun cam => cam) a) = cameraController a.
Proof.
  intros a.
  destruct (autoRotate_excludes_manual demoCamera false 0 (fun cam => cam)
              [Frame 16 (fun cam => cam); DebugToggle; Orbit (fun cam => cam);
               Frame 32 (fun cam => cam); DebugSpeed (-1)])
    as (_ & _ & Hc & Hoff & _).
  split; [apply Hc; reflexivity|apply Hoff; reflexivity].
Defined.

End MainFacts.

(** ** Start-up *)

Module StartupFacts.
Import Product Viewer CameraAnimation CameraMotion Startup.

Section WithHost.
Context `{Host} `{Double.Arith}.


(** X21: when the loading-screen timer runs after a start-up that wired
    the page, the loading screen is hidden with its content as it was and
    the rest of the application unchanged; when the loading screen is
    not in the document the callback's error escapes and nothing else
    changes. *)
Theorem loading_screen_hidden_after_init (msg : string)
    (controls : PerspectiveCamera -> PerspectiveCamera) (now : Z) (d : Dom) :
  is_Some (canvasContainer d) -> autoRotateToggle d = true ->
  let s := fst (init msg controls now (freshState d)) in
  let s' := fst (hideLoadingScreen msg s) in
  loadingTimer s = Some (now + 1000)%Z /\
  loadingTimer s' = None /\
  (listeners s', frameLoop s', app_chair s', app_interactionHandler s',
   app_sceneData s', app_cameraController s', app_camera s') =
  (listeners s, frameLoop s, app_chair s, app_interactionHandler s,
   app_sceneData s, app_cameraController s, app_camera s) /\
  (forall ls, loadingScreen d = Some ls ->
     loadingScreen (dom s') = Some (mkLoadingScreen "none" (ls_content ls)) /\
     snd (hideLoadingScreen msg s) = Normal) /\
  (loadingScreen d = None ->
     dom s' = dom s /\ snd (hideLoadingScreen msg s) = Uncaught msg).
Proof.
  intros [c Hc] Ht. destruct d as [cc t [ls|]]; simpl in Hc, Ht; subst;
    cbv zeta; simpl;
    repeat match goal with
           | |- _ /\ _ => split
           | |- _ -> _ => intro
           | |- forall _, _ => intro
           | E : Some _ = Some _ |- _ => injection E as <-
           end;
    try discriminate; reflexivity.
Qed.

End WithHost.

Import DemoMath.


Lemma loading_screen_hidden_after_init_witness :
  loadingScreen
    (dom (fst (hideLoadingScreen "null"
                 (fst (init (H := Demo.demoHost) "null" (fun cam => cam) 0
                         (freshState
                            (mkDom (Some false) true
                               (Some (mkLoadingScreen "flex" LoadingIndicator)))))))))
  = Some (mkLoadingScreen "none" LoadingIndicator).
Proof.
  destruct (loading_screen_hidden_after_init (H := Demo.demoHost) "null"
              (fun cam => cam) 0
              (mkDom (Some false) true
                 (Some (mkLoadingScreen "flex" LoadingIndicator)))
              (ex_intro _ false eq_refl) eq_refl)
    as (_ & _ & _ & Hls & _).
  apply (Hls (mkLoadingScreen "flex" LoadingIndicator) eq_refl).
Defined.

End StartupFacts.
